(** * AMOS auto-tensorize scheduling: a shallow embedding

    This development embeds
    [python/tvm/auto_tensorize/tensorization_phases/scheduling.py]
    and proves properties of the parameter records, the parameter
    generators, the schedule generator ([CUDAScheduleGenerator]), the schedule
    applier ([CUDAScheduleApplier]) and [auto_schedule].

    Conventions.
    - Python values that travel through [Params] are modelled by [pyval]
      ([None], integers, lists and tuples); Python exceptions by [exn] and a
      computation that may raise by [result].
    - Python dictionaries whose iteration order is observable are association
      lists in insertion order; dictionaries that are only looked up are
      [gmap]s.
    - Costs are Python floats; they are idealised as real numbers, and
      [np.exp] as the real exponential.
    - TVM's schedule object is external: it is represented by the sequence of
      primitive calls it received, their results being named symbolically. *)

From Stdlib Require Import ZArith Reals Lra String Ascii DecimalString.
From stdpp Require Import gmap strings list.

Set Warnings "-register-all".
Open Scope Z_scope.

(** ** Python basics *)

Module Py.

Inductive exn :=
| AssertionError (msg : string)
| RuntimeError (msg : string)
| IndexError
| KeyError
| TypeError
| AttributeError.

Inductive result (A : Type) :=
| Ok (a : A)
| Raise (e : exn).
Arguments Ok {A} a.
Arguments Raise {A} e.

#[global] Instance result_ret : MRet result := fun _ a => Ok a.
#[global] Instance result_bind : MBind result := fun _ _ f m =>
  match m with
  | Ok a => f a
  | Raise e => Raise e
  end.
#[global] Instance result_fmap : FMap result := fun _ _ f m =>
  match m with
  | Ok a => Ok (f a)
  | Raise e => Raise e
  end.

(** [assert c, msg] *)
Definition py_assert (c : bool) (msg : string) : result unit :=
  if c then Ok tt else Raise (AssertionError msg).

(** The values stored in a [Params] record. *)
Inductive pyval :=
| PyNone
| PyInt (z : Z)
| PyList (l : list pyval)
| PyTuple (l : list pyval).

(** Position denoted by a slice bound [i] in a sequence of length [len]:
    negative bounds count from the end, and every bound is clamped. *)
Definition slice_bound (len : nat) (i : Z) : nat :=
  if i <? 0 then Z.to_nat (Z.max 0 (Z.of_nat len + i))
  else Nat.min len (Z.to_nat i).

(** [l[start:stop]]; an omitted bound is [None]. *)
Definition py_slice {A} (l : list A) (start stop : option Z) : list A :=
  let s := from_option (slice_bound (length l)) 0%nat start in
  let e := from_option (slice_bound (length l)) (length l) stop in
  drop s (take e l).

(** [l[i]] on a Python list. *)
Definition list_getitem {A} (l : list A) (i : Z) : result A :=
  let j := if i <? 0 then Z.of_nat (length l) + i else i in
  if j <? 0 then Raise IndexError
  else match l !! Z.to_nat j with
       | Some x => Ok x
       | None => Raise IndexError
       end.

(** [v[i]] on a value: lists and tuples are subscriptable, [None] and
    integers are not. *)
Definition py_getitem (v : pyval) (i : Z) : result pyval :=
  match v with
  | PyList l | PyTuple l => list_getitem l i
  | PyNone | PyInt _ => Raise TypeError
  end.

(** The elements visited by [for x in v]. *)
Definition py_iter (v : pyval) : result (list pyval) :=
  match v with
  | PyList l | PyTuple l => Ok l
  | PyNone | PyInt _ => Raise TypeError
  end.

(** [len(v)] *)
Definition py_len (v : pyval) : result Z :=
  l ← py_iter v; Ok (Z.of_nat (length l)).

(** [v[start:stop]] on a value; the slice of a tuple is a tuple. *)
Definition py_getslice (v : pyval) (start stop : option Z) : result pyval :=
  match v with
  | PyList l => Ok (PyList (py_slice l start stop))
  | PyTuple l => Ok (PyTuple (py_slice l start stop))
  | PyNone | PyInt _ => Raise TypeError
  end.

(** [a * b]: product of integers; a sequence times an integer repeats the
    sequence. *)
Definition py_mul (a b : pyval) : result pyval :=
  match a, b with
  | PyInt x, PyInt y => Ok (PyInt (x * y))
  | PyInt n, PyList l | PyList l, PyInt n =>
      Ok (PyList (concat (replicate (Z.to_nat n) l)))
  | PyInt n, PyTuple l | PyTuple l, PyInt n =>
      Ok (PyTuple (concat (replicate (Z.to_nat n) l)))
  | _, _ => Raise TypeError
  end.

(** [a > n] for an integer literal [n]. *)
Definition py_gt (a : pyval) (n : Z) : result bool :=
  match a with
  | PyInt x => Ok (n <? x)
  | _ => Raise TypeError
  end.

(** *** Dictionaries in insertion order *)

Section Dict.
Context {K V : Type} `{EqDecision K}.

Fixpoint dict_get (d : list (K * V)) (k : K) : option V :=
  match d with
  | [] => None
  | (k', v) :: d' => if decide (k' = k) then Some v else dict_get d' k
  end.

(** [d[k] = v]: an existing key keeps its position. *)
Fixpoint dict_set (d : list (K * V)) (k : K) (v : V) : list (K * V) :=
  match d with
  | [] => [(k, v)]
  | (k', v') :: d' =>
      if decide (k' = k) then (k, v) :: d' else (k', v') :: dict_set d' k v
  end.
End Dict.

(** *** [json.dumps] on the values above *)

Definition dquote : string := String "034"%char EmptyString.

Definition dumps_int (z : Z) : string := NilZero.string_of_int (Z.to_int z).

Fixpoint json_dumps (v : pyval) : string :=
  let fix items (l : list pyval) : string :=
    match l with
    | [] => EmptyString
    | [x] => json_dumps x
    | x :: l' => json_dumps x +:+ ", " +:+ items l'
    end in
  match v with
  | PyNone => "null"
  | PyInt z => dumps_int z
  | PyList l | PyTuple l => "[" +:+ items l +:+ "]"
  end.

Fixpoint dumps_items (d : list (string * pyval)) : string :=
  match d with
  | [] => EmptyString
  | [(k, v)] => dquote +:+ k +:+ dquote +:+ ": " +:+ json_dumps v
  | (k, v) :: d' =>
      dquote +:+ k +:+ dquote +:+ ": " +:+ json_dumps v +:+ ", " +:+ dumps_items d'
  end.

(** [json.dumps] of a dictionary with string keys. *)
Definition json_dumps_dict (d : list (string * pyval)) : string :=
  "{" +:+ dumps_items d +:+ "}".

End Py.
Export Py.

(** ** [State] and [Params] *)

(** Loop axes of the external schedule, named by how they were obtained. *)
Inductive Stage :=
| StageOf (op : nat)
| CacheStage (op : nat).

Inductive IterVar :=
| Axis (s : Stage) (i : nat)
| ReduceAxis (s : Stage) (i : nat)
| SplitOuter (parent : IterVar) (factor : pyval)
| SplitInner (parent : IterVar) (factor : pyval)
| NpartsOuter (parent : IterVar) (nparts : Z)
| NpartsInner (parent : IterVar) (nparts : Z)
| Fused (parts : list IterVar)
| ThreadAxis (tag : string).

Record State := mkState {
  inlined : gset nat;
  main_op_reduce_axis : list (list IterVar);
  output_op_axis : list (list IterVar);
  last_op_axis : list (list IterVar);
  tensorize_iter : gmap nat IterVar
}.

Definition empty_state : State := mkState ∅ [] [] [] ∅.

Record Params := mkParams {
  vectorize : pyval;
  spatial_factors : pyval;
  reduce_factors : pyval;
  last_factors : pyval;
  output_unroll_step : pyval;
  last_unroll_step : pyval
}.

Definition to_json (self : Params) : list (string * pyval) :=
  [ ("vectorize", vectorize self);
    ("spatial_factors", spatial_factors self);
    ("reduce_factors", reduce_factors self);
    ("last_factors", last_factors self);
    ("output_unroll_step", output_unroll_step self);
    ("last_unroll_step", last_unroll_step self) ]%string.

(** [obj[key]] on a dictionary with string keys. *)
Definition obj_getitem (obj : list (string * pyval)) (key : string) : result pyval :=
  match dict_get obj key with
  | Some v => Ok v
  | None => Raise KeyError
  end.

(** [from_json] assigns the six attributes of [self] one after the other;
    the result is the object after the method, or the exception raised. *)
Definition from_json (self : Params) (obj : list (string * pyval)) : result Params :=
  v ← obj_getitem obj "vectorize";
  let self := mkParams v (spatial_factors self) (reduce_factors self)
                (last_factors self) (output_unroll_step self) (last_unroll_step self) in
  s ← obj_getitem obj "spatial_factors";
  let self := mkParams (vectorize self) s (reduce_factors self)
                (last_factors self) (output_unroll_step self) (last_unroll_step self) in
  r ← obj_getitem obj "reduce_factors";
  let self := mkParams (vectorize self) (spatial_factors self) r
                (last_factors self) (output_unroll_step self) (last_unroll_step self) in
  l ← obj_getitem obj "last_factors";
  let self := mkParams (vectorize self) (spatial_factors self) (reduce_factors self)
                l (output_unroll_step self) (last_unroll_step self) in
  o ← obj_getitem obj "output_unroll_step";
  let self := mkParams (vectorize self) (spatial_factors self) (reduce_factors self)
                (last_factors self) o (last_unroll_step self) in
  u ← obj_getitem obj "last_unroll_step";
  Ok (mkParams (vectorize self) (spatial_factors self) (reduce_factors self)
        (last_factors self) (output_unroll_step self) u).

(** [Params.__str__] *)
Definition Params_str (self : Params) : string := json_dumps_dict (to_json self).

Definition empty_params : Params :=
  mkParams PyNone (PyList []) (PyList []) (PyList []) PyNone PyNone.

(** ** Target independent parameter generators

    [QLearningParamGenerator], the base class (its [get], [feedback] and
    Q-table), is not part of this file of the repository; only the methods
    defined by the subclasses are embedded. *)

(** [d[k] = v] for the pair [kv = (k, v)], on a dictionary that is only
    looked up. *)
Definition dict_insert (m : gmap Z Z) (kv : Z * Z) : gmap Z Z :=
  <[kv.1 := kv.2]> m.

(** [{k: v for k, v in kvs}]: the pairs are inserted in order. *)
Definition dict_comprehension (kvs : list (Z * Z)) : gmap Z Z :=
  foldl dict_insert ∅ kvs.

(** [zip(range(len(l)), l)] *)
Definition enumerate {A} (l : list A) : list (Z * A) :=
  zip (Z.of_nat <$> seq 0 (length l)) l.

(** [d[k]] on such a dictionary. *)
Definition map_getitem (d : gmap Z Z) (k : Z) : result Z :=
  match d !! k with
  | Some v => Ok v
  | None => Raise KeyError
  end.

Module SplitFactorGenerator.

Record t := mk {
  choices : list (list Z);
  factor_map : list (Z * Z);
  sum_val : Z;
  directions : list (list Z);
  reverse_map : gmap Z Z
}.

(** [__init__], given what [remap_factors(any_factor_split(extent, parts))]
    and [get_directions(dim)] returned (both live in [utils], outside this
    file): [remapped] is the tuple [(choices, factor_map, dim, sum_val)]. *)
Definition init (remapped : list (list Z) * list (Z * Z) * Z * Z)
    (dirs : list (list Z)) : t :=
  let '(choices, factor_map, dim, sum_val) := remapped in
  mk choices factor_map sum_val dirs
     (dict_comprehension ((fun xy => (xy.2, xy.1)) <$> factor_map)).

Definition move_towards_direction (self : t) (init : list Z) (d : list Z)
    : result (list Z) :=
  '(ret, tmp_sum) ← foldl (fun acc iv =>
      '(ret, tmp_sum) ← acc;
      x ← list_getitem init iv.1;
      Ok (ret ++ [x + iv.2], tmp_sum + (x + iv.2)))
    (Ok ([], 0)) (enumerate d);
  Ok (ret ++ [sum_val self - tmp_sum]).

Definition map_to_hidden (self : t) (factors : list Z) : result (list Z) :=
  mapM (map_getitem (reverse_map self)) factors.

Definition map_from_hidden (self : t) (init : list Z) : result (list Z) :=
  mapM (fun i => match dict_get (factor_map self) i with
                 | Some f => Ok f
                 | None => Raise KeyError
                 end) init.

Definition valid (self : t) (init : list Z) : bool :=
  forallb (fun v => (0 <=? v) && (v <=? sum_val self)) init.

End SplitFactorGenerator.

Module VectorizeLengthGenerator.

Record t := mk {
  lengths : list Z;
  choices : list Z;
  length_map : gmap Z Z;
  reverse_map : gmap Z Z;
  directions : list Z
}.

(** [__init__], given [get_factor_lst(get_vector_length(target, dtype))]
    (computed outside this file). *)
Definition init (lengths : list Z) : t :=
  let choices := Z.of_nat <$> seq 0 (length lengths) in
  mk lengths choices
     (dict_comprehension (zip choices lengths))
     (dict_comprehension (zip lengths choices))
     [0; 1; -1].

Definition move_towards_direction (self : t) (init d : Z) : Z := init + d.

Definition valid (self : t) (init : Z) : bool :=
  (0 <=? init) && (init <? Z.of_nat (length (lengths self))).

Definition map_to_hidden (self : t) (length : Z) : result Z :=
  map_getitem (reverse_map self) length.

Definition map_from_hidden (self : t) (init : Z) : result Z :=
  map_getitem (length_map self) init.

End VectorizeLengthGenerator.

Module UnrollStepGenerator.

Record t := mk {
  steps : list Z;
  choices : list Z;
  length_map : gmap Z Z;
  reverse_map : gmap Z Z;
  directions : list Z
}.

Definition init (steps : list Z) : t :=
  let choices := Z.of_nat <$> seq 0 (length steps) in
  mk steps choices
     (dict_comprehension (zip choices steps))
     (dict_comprehension (zip steps choices))
     [0; 1; -1].

Definition move_towards_direction (self : t) (init d : Z) : Z := init + d.

Definition valid (self : t) (init : Z) : bool :=
  (0 <=? init) && (init <? Z.of_nat (length (steps self))).

Definition map_to_hidden (self : t) (length : Z) : result Z :=
  map_getitem (reverse_map self) length.

Definition map_from_hidden (self : t) (init : Z) : result Z :=
  map_getitem (length_map self) init.

End UnrollStepGenerator.

(** ** The schedule generator *)

Module CUDAScheduleGenerator.

(** Modelled from the spec: [Entry] is defined in the [search] package,
    outside this file.  A search entry is a (Params, cost) pair, and
    "ordering is by cost descending for best-first retrieval (a
    max-priority archive)": [a < b] holds when [a] has the greater cost. *)
Record Entry := mkEntry {
  record : Params;
  value : R
}.

(** Modelled from the spec: [Entry.__lt__], which [heapq] uses; with the
    ordering "by cost descending", [a < b] is [a.value > b.value]. *)
Definition entry_lt (a b : Entry) : bool :=
  if Rgt_dec (value a) (value b) then true else false.

(** What one trial of [get] obtains from the random source and from the
    sub-generators' [get] (which is [QLearningParamGenerator.get], outside
    this file). *)
Record Draw := mkDraw {
  (** the record assembled from the six groups of [gen.get(policy="random")] *)
  random_record : Params;
  (** [np.random.random()] in [greedy] *)
  greedy_sample : R;
  (** the [i]-th iteration of [sa_select_entry]: the number behind
      [np.random.randint(0, num_cand)] and [np.random.random()] *)
  sa_samples : nat → Z * R;
  (** the record assembled from the six groups of
      [gen.get(hint=..., policy="q")], given the selected entry's record *)
  q_record : Params → result Params
}.

(** The attributes of the generator that [get] reads or writes; [trial_no]
    counts the draws consumed so far. *)
Record t := mk {
  eps : R;
  entries : list Entry;
  visited : gset string;
  trial_no : nat
}.

Definition calculate_p (x best : R) : R :=
  exp ((x - best) / 2 * (best + / 100000))%R.

Definition greedy (self : t) (sample : R) : bool :=
  if Rgt_dec sample (eps self) then true else false.

(** The body of the loop of [valid], [warp_num *= factors[0][1]], on the
    outcome of the iterations before it. *)
Definition valid_step (acc : result pyval) (factors : pyval) : result pyval :=
  warp_num ← acc;
  f0 ← py_getitem factors 0;
  f01 ← py_getitem f0 1;
  py_mul warp_num f01.

(** The loop of [valid] over [record.spatial_factors]. *)
Definition valid_loop (items : list pyval) (warp_num : pyval) : result pyval :=
  foldl valid_step (Ok warp_num) items.

Definition valid (record : Params) : result bool :=
  items ← py_iter (spatial_factors record);
  warp_num ← valid_loop items (PyInt 1);
  too_many ← py_gt warp_num 32;
  if too_many : bool then Ok false
  else
    l0 ← py_getitem (last_factors record) 0;
    l00 ← py_getitem l0 0;
    warp_num ← py_getitem l00 1;
    too_many ← py_gt warp_num 32;
    if too_many : bool then Ok false else Ok true.

(** [heapq.nlargest(n, l)] is [sorted(l, reverse=True)[:n]]: descending for
    [<], equal elements in their original order. *)
Fixpoint insert_desc (x : Entry) (l : list Entry) : list Entry :=
  match l with
  | [] => [x]
  | y :: l' => if entry_lt y x then x :: y :: l' else y :: insert_desc x l'
  end.

Definition sorted_desc (l : list Entry) : list Entry :=
  foldl (fun acc x => insert_desc x acc) [] l.

Definition nlargest (n : nat) (l : list Entry) : list Entry :=
  take n (sorted_desc l).

(** The [for i in range(max_num)] loop of [sa_select_entry], with [n]
    iterations left and [i] the current index. *)
Fixpoint sa_loop (cand : list Entry) (ps : list R) (samples : nat → Z * R)
    (n i : nat) : result Entry :=
  match n with
  | O => list_getitem cand 0
  | S n' =>
      let choice := (samples i).1 `mod` Z.of_nat (length cand) in
      p ← list_getitem ps choice;
      if Rlt_dec (samples i).2 p then list_getitem cand (Z.of_nat i)
      else sa_loop cand ps samples n' (S i)
  end.

Definition sa_select_entry (self : t) (samples : nat → Z * R) (max_num : nat)
    : result Entry :=
  _ ← py_assert (bool_decide (0 < length (entries self))%nat) EmptyString;
  let topk := nlargest (Nat.min max_num (length (entries self))) (entries self) in
  let cand := topk in
  best ← list_getitem cand 0;
  let best_value := value best in
  let ps := (fun x => calculate_p (value x) best_value) <$> cand in
  sa_loop cand ps samples max_num 0.

Definition record_from_json (obj : list (string * pyval)) : result Params :=
  v ← obj_getitem obj "vectorize";
  s ← obj_getitem obj "spatial_factors";
  r ← obj_getitem obj "reduce_factors";
  l ← obj_getitem obj "last_factors";
  o ← obj_getitem obj "output_unroll_step";
  u ← obj_getitem obj "last_unroll_step";
  Ok (mkParams v s r l o u).

(** What [get] returns: a record it generated, or an archived entry. *)
Inductive Returned :=
| RetRecord (r : Params)
| RetEntry (e : Entry).

(** The outcome of the first statement of the loop body of [get]
    (the [if policy == ...] chain). *)
Inductive Assembled :=
| Candidate (record : Params)
| ReturnNow (e : Entry).

Definition assemble (self : t) (policy : string) (d : Draw) : result Assembled :=
  if bool_decide (policy = "random") || bool_decide (entries self = []) then
    Ok (Candidate (random_record d))
  else if bool_decide (policy = "q") then
    if greedy self (greedy_sample d) then
      entry ← sa_select_entry self (sa_samples d) 20;
      record ← q_record d (record entry);
      Ok (Candidate record)
    else Ok (Candidate (random_record d))
  else if bool_decide (policy = "greedy") then
    e ← list_getitem (entries self) 0;
    Ok (ReturnNow e)
  else Raise (RuntimeError ("Unknown policy: " +:+ policy)).

(** [return self.entries[0]] *)
Definition fallback (self : t) : result Returned :=
  RetEntry <$> list_getitem (entries self) 0.

Definition next_trial (self : t) : t :=
  mk (eps self) (entries self) (visited self) (S (trial_no self)).

Definition add_visited (self : t) (s : string) : t :=
  mk (eps self) (entries self) ({[ s ]} ∪ visited self) (trial_no self).

(** One iteration of the loop of [get]: [None] when the loop goes on. *)
Definition trial (tape : nat → Draw) (policy : string) (repeat : bool)
    (self : t) : option (result Returned) * t :=
  let d := tape (trial_no self) in
  let self := next_trial self in
  match assemble self policy d with
  | Raise e => (Some (Raise e), self)
  | Ok (ReturnNow e) => (Some (Ok (RetEntry e)), self)
  | Ok (Candidate record) =>
      if repeat || negb (bool_decide (Params_str record ∈ visited self)) then
        match valid record with
        | Raise e => (Some (Raise e), self)
        | Ok true =>
            (Some (Ok (RetRecord record)), add_visited self (Params_str record))
        | Ok false => (None, self)
        end
      else (None, self)
  end.

(** [get], with [max_trial] iterations left. *)
Fixpoint get (tape : nat → Draw) (policy : string) (repeat : bool)
    (max_trial : nat) (self : t) : result Returned * t :=
  match max_trial with
  | O => (fallback self, self)
  | S n =>
      match trial tape policy repeat self with
      | (Some r, self') => (r, self')
      | (None, self') => get tape policy repeat n self'
      end
  end.

(** [heapq._siftdown(heap, 0, pos)] for [newitem = heap[pos]]: the [while
    pos > 0] loop moves parents down; it runs at most [pos] times, and [n]
    bounds the iterations left. *)
Fixpoint siftdown (n : nat) (heap : list Entry) (newitem : Entry) (pos : nat)
    : list Entry :=
  match n with
  | O => <[pos := newitem]> heap
  | S n' =>
      if (0 <? pos)%nat then
        let parentpos := ((pos - 1) / 2)%nat in
        match heap !! parentpos with
        | Some parent =>
            if entry_lt newitem parent
            then siftdown n' (<[pos := parent]> heap) newitem parentpos
            else <[pos := newitem]> heap
        | None => <[pos := newitem]> heap
        end
      else <[pos := newitem]> heap
  end.

(** [heapq.heappush(heap, item)] *)
Definition heappush (heap : list Entry) (item : Entry) : list Entry :=
  let heap := heap ++ [item] in
  siftdown (length heap - 1) heap item (length heap - 1).

(** [feedback]: the entry is pushed on the archive.  The calls that follow,
    [feedback] of the sub-generators, are [QLearningParamGenerator.feedback]
    (outside this file) and do not touch the attributes modelled here. *)
Definition feedback (self : t) (record : Params) (value : R) : t :=
  mk (eps self) (heappush (entries self) (mkEntry record value))
     (visited self) (trial_no self).

End CUDAScheduleGenerator.

(** ** The compute graph and the recipe stage (external collaborators) *)

(** A TVM operation: [handle] is the identity of the object ([==] on
    operations compares handles), [is_compute] tells whether it is a
    [tvm.te.ComputeOp]; its axes are named [Axis]/[ReduceAxis] of its stage.
    The other operations of a graph are placeholders, which have no axes:
    [n_axis] and [n_reduce_axis] mean nothing for them. *)
Record Operation := mkOp {
  handle : nat;
  is_compute : bool;
  n_axis : nat;
  n_reduce_axis : nat
}.

Definition op_eq (a b : Operation) : bool := bool_decide (handle a = handle b).

Definition op_axis (op : Operation) : list IterVar :=
  Axis (StageOf (handle op)) <$> seq 0 (n_axis op).

Definition op_reduce_axis (op : Operation) : list IterVar :=
  ReduceAxis (StageOf (handle op)) <$> seq 0 (n_reduce_axis op).

(** [op.reduce_axis] on an operation of any kind: the attribute exists on a
    compute operation only, and reading it on a placeholder raises
    [AttributeError]. *)
Definition getattr_reduce_axis (op : Operation) : result (list IterVar) :=
  if is_compute op then Ok (op_reduce_axis op) else Raise AttributeError.

Record ComputeDAG := mkDAG {
  op_lst : list Operation;
  feed_graph : gmap nat (list Operation)
}.

(** [OperationRole], [InstructionScope] and [RecipeStage] are defined in the
    [recipe] module, outside this file. *)
Module OperationRole.
(** Modelled from the spec: the role tags are Load, Main and Output. *)
Inductive t := load_op | main_op | output_op.
#[global] Instance eq_dec : EqDecision t.
Proof. solve_decision. Defined.
End OperationRole.

Module InstructionScope.
(** Modelled from the spec: the scope flag selects thread- or block-level
    granularity. *)
Inductive t := thread | block.
#[global] Instance eq_dec : EqDecision t.
Proof. solve_decision. Defined.
End InstructionScope.

(** Modelled from the spec: the capability descriptor supplies the mapping
    from operation to role, the intrinsic looked up per operation, the
    reserved-axis counts, the reserved reduce axes of the Main operation and
    the scope flag; the fields are the attributes that the applier reads,
    keyed by the operation's handle. *)
Record RecipeStage := mkRecipeStage {
  operation_role : gmap nat OperationRole.t;
  capsule_key : gmap nat string;
  reserve_inner_axis_count : gmap nat Z;
  main_op_reserve_reduce_axis : list Z;
  instruction_scope : InstructionScope.t
}.

(** The calls received by the schedule object. *)
Inductive Primitive :=
| SchComputeInline (s : Stage)
| SchCacheRead (op : nat) (scope : string) (readers : list nat)
| SchComputeAt (s parent : Stage) (axis : IterVar)
| SchSplit (s : Stage) (parent : IterVar) (factor : pyval)
| SchSplitNparts (s : Stage) (parent : IterVar) (nparts : Z)
| SchFuse (s : Stage) (axes : list IterVar)
| SchReorder (s : Stage) (axes : list IterVar)
| SchBind (s : Stage) (iv : IterVar) (thread : IterVar)
| SchVectorize (s : Stage) (iv : IterVar)
| SchSetScope (s : Stage) (scope : string)
| SchPragma (s : Stage) (iv : IterVar) (key : string) (v : pyval)
| SchTensorize (s : Stage) (iv : IterVar) (capsule : string).

(** [zip] applied to the unpacked rows of [ls]: the columns of [ls], as
    many as the shortest row has. *)
Definition zip_star {A} (ls : list (list A)) : list (list A) :=
  match ls with
  | [] => []
  | l0 :: _ =>
      let n := foldr (fun l m => Nat.min (length l) m) (length l0) ls in
      omap (fun i => mapM (fun l : list A => l !! i) ls) (seq 0 n)
  end.

Definition len {A} (l : list A) : Z := Z.of_nat (length l).

(** ** The schedule applier *)

Module CUDAScheduleApplier.

(** The attributes set once by [__init__]. *)
Record t := mk {
  target_dag : ComputeDAG;
  main_op : Operation;
  output_op : Operation;
  main_op_id : Z;
  output_op_id : Z;
  recipe_stage : RecipeStage
}.

Definition warp_size : Z := 32.
Definition bx : IterVar := ThreadAxis "blockIdx.x".
Definition ty : IterVar := ThreadAxis "threadIdx.y".
Definition tx : IterVar := ThreadAxis "threadIdx.x".
Definition obx : IterVar := ThreadAxis "blockIdx.x".
Definition oty : IterVar := ThreadAxis "threadIdx.y".
Definition otx : IterVar := ThreadAxis "threadIdx.x".

(** What a call of [apply] reads and writes: the attributes [self.state]
    and [self.params], and the schedule object. *)
Record Mem := mkMem {
  state : State;
  params : Params;
  sch : list Primitive
}.

(** Computations over [Mem] that may raise; the memory at the time of the
    exception is kept. *)
Definition M (A : Type) : Type := Mem → result A * Mem.

#[global] Instance M_ret : MRet M := fun _ a m => (Ok a, m).
#[global] Instance M_bind : MBind M := fun _ _ f c m =>
  match c m with
  | (Ok a, m') => f a m'
  | (Raise e, m') => (Raise e, m')
  end.

Definition lift {A} (r : result A) : M A := fun m => (r, m).
Definition emit (p : Primitive) : M unit :=
  fun m => (Ok tt, mkMem (state m) (params m) (sch m ++ [p])).
Definition get_state : M State := fun m => (Ok (state m), m).
Definition set_state (s : State) : M unit :=
  fun m => (Ok tt, mkMem s (params m) (sch m)).
Definition get_params : M Params := fun m => (Ok (params m), m).
Definition set_params (p : Params) : M unit :=
  fun m => (Ok tt, mkMem (state m) p (sch m)).
Definition get_sch : M (list Primitive) := fun m => (Ok (sch m), m).

Fixpoint foldM {A B} (f : B → A → M B) (b : B) (l : list A) : M B :=
  match l with
  | [] => mret b
  | x :: l' => b' ← f b x; foldM f b' l'
  end.

Definition forM {A} (l : list A) (f : A → M unit) : M unit :=
  foldM (fun _ x => f x) tt l.

(** *** Schedule primitives *)

Definition split (s : Stage) (parent : IterVar) (factor : pyval)
    : M (IterVar * IterVar) :=
  _ ← emit (SchSplit s parent factor);
  mret (SplitOuter parent factor, SplitInner parent factor).

Definition split_nparts (s : Stage) (parent : IterVar) (nparts : Z)
    : M (IterVar * IterVar) :=
  _ ← emit (SchSplitNparts s parent nparts);
  mret (NpartsOuter parent nparts, NpartsInner parent nparts).

Definition fuse (s : Stage) (axes : list IterVar) : M IterVar :=
  _ ← emit (SchFuse s axes);
  mret (Fused axes).

(** *** State and parameter accessors *)

Definition initialize_state : M unit := set_state empty_state.

Definition initialize_parameters (p : Params) : M unit := set_params p.

Definition check_parameter_ready : M bool := mret true.

Definition get_main_op_outermost_last_reduce_axis : M IterVar :=
  st ← get_state;
  if 0 <? len (main_op_reduce_axis st) then
    l0 ← lift (list_getitem (main_op_reduce_axis st) 0);
    _ ← lift (py_assert (0 <? len l0) EmptyString);
    lift (list_getitem l0 (-1))
  else lift (Raise (RuntimeError "No reduce axis in main op.")).

Definition get_main_op_second_outermost_last_reduce_axis : M IterVar :=
  st ← get_state;
  if 1 <? len (main_op_reduce_axis st) then
    l1 ← lift (list_getitem (main_op_reduce_axis st) 1);
    _ ← lift (py_assert (0 <? len l1) EmptyString);
    lift (list_getitem l1 (-1))
  else get_main_op_outermost_last_reduce_axis.

Definition get_output_op_third_innermost_last_axis : M IterVar :=
  st ← get_state;
  _ ← lift (py_assert (2 <? len (output_op_axis st)) EmptyString);
  l ← lift (list_getitem (output_op_axis st) (-3));
  _ ← lift (py_assert (0 <? len l) EmptyString);
  lift (list_getitem l (-1)).

Definition get_output_op_outermost_last_axis : M IterVar :=
  st ← get_state;
  _ ← lift (py_assert (1 <? len (output_op_axis st)) EmptyString);
  l ← lift (list_getitem (output_op_axis st) 0);
  _ ← lift (py_assert (0 <? len l) EmptyString);
  lift (list_getitem l (-1)).

Definition get_last_op_second_innermost_last_axis : M IterVar :=
  st ← get_state;
  _ ← lift (py_assert (0 <? len (last_op_axis st)) EmptyString);
  l ← lift (list_getitem (last_op_axis st) (-1));
  _ ← lift (py_assert (1 <? len l) EmptyString);
  lift (list_getitem l (-2)).

Definition get_last_op_outermost_last_axis : M IterVar :=
  st ← get_state;
  _ ← lift (py_assert (0 <? len (last_op_axis st)) EmptyString);
  l ← lift (list_getitem (last_op_axis st) 0);
  _ ← lift (py_assert (0 <? len l) EmptyString);
  lift (list_getitem l 0).

Definition get_tensorize_iter (op : Operation) : M IterVar :=
  st ← get_state;
  match tensorize_iter st !! handle op with
  | Some iv => mret iv
  | None => lift (Raise (AssertionError EmptyString))
  end.

Definition get_main_op_warp_numbers : M pyval :=
  p ← get_params;
  lift (
    n ← py_len (spatial_factors p);
    _ ← py_assert (0 <? n) EmptyString;
    parts ← py_iter (spatial_factors p);
    foldl (fun acc part =>
             ret ← acc;
             p0 ← py_getitem part 0;
             n0 ← py_len p0;
             _ ← py_assert (1 <? n0) EmptyString;
             w ← py_getitem p0 (-2);
             py_mul ret w)
          (Ok (PyInt 1)) parts).

(** [[x[0] for x in factors[:number]]], after the assertion on the length. *)
Definition first_factors (factors : pyval) (number : Z) (msg : string)
    : result (list pyval) :=
  n ← py_len factors;
  _ ← py_assert (number <=? n) msg;
  head ← py_getslice factors None (Some number);
  xs ← py_iter head;
  mapM (fun x => py_getitem x 0) xs.

Definition get_main_op_reduce_axis_factors (number : Z) : M (list pyval) :=
  p ← get_params;
  lift (first_factors (reduce_factors p) number EmptyString).

Definition get_output_op_axis_factors (number : Z) : M (list pyval) :=
  p ← get_params;
  lift (first_factors (spatial_factors p) number (dumps_int number)).

Definition get_last_op_axis_factors (number : Z) : M (list pyval) :=
  p ← get_params;
  lift (first_factors (last_factors p) number EmptyString).

Definition get_last_op_warp_numbers : M pyval :=
  p ← get_params;
  lift (
    n ← py_len (last_factors p);
    _ ← py_assert (0 <? n) EmptyString;
    parts ← py_iter (last_factors p);
    foldl (fun acc part =>
             ret ← acc;
             n0 ← py_len part;
             _ ← py_assert (0 <? n0) EmptyString;
             p0 ← py_getitem part 0;
             w ← py_getitem p0 (-1);
             py_mul ret w)
          (Ok (PyInt 1)) parts).

Definition is_none (v : pyval) : bool :=
  match v with PyNone => true | _ => false end.

Definition get_vectorize_length : M pyval :=
  p ← get_params;
  _ ← lift (py_assert (negb (is_none (vectorize p))) EmptyString);
  lift (py_getitem (vectorize p) 0).

Definition get_output_op_unroll_step : M pyval :=
  p ← get_params;
  _ ← lift (py_assert (negb (is_none (output_unroll_step p))) EmptyString);
  lift (py_getitem (output_unroll_step p) 0).

Definition get_last_op_unroll_step : M pyval :=
  p ← get_params;
  _ ← lift (py_assert (negb (is_none (last_unroll_step p))) EmptyString);
  lift (py_getitem (last_unroll_step p) 0).

(** *** The seven primitives *)

Definition modify_state (f : State → State) : M unit :=
  st ← get_state; set_state (f st).

Definition add_inlined (op : nat) (st : State) : State :=
  mkState ({[ op ]} ∪ inlined st) (main_op_reduce_axis st) (output_op_axis st)
    (last_op_axis st) (tensorize_iter st).
Definition set_main_op_reduce_axis (v : list (list IterVar)) (st : State) : State :=
  mkState (inlined st) v (output_op_axis st) (last_op_axis st) (tensorize_iter st).
Definition set_output_op_axis (v : list (list IterVar)) (st : State) : State :=
  mkState (inlined st) (main_op_reduce_axis st) v (last_op_axis st) (tensorize_iter st).
Definition set_last_op_axis (v : list (list IterVar)) (st : State) : State :=
  mkState (inlined st) (main_op_reduce_axis st) (output_op_axis st) v (tensorize_iter st).
Definition set_tensorize_iter (op : nat) (iv : IterVar) (st : State) : State :=
  mkState (inlined st) (main_op_reduce_axis st) (output_op_axis st)
    (last_op_axis st) (<[op := iv]> (tensorize_iter st)).

(** [op in self.recipe_stage.operation_role] *)
Definition has_role (self : t) (op : Operation) : bool :=
  bool_decide (is_Some (operation_role (recipe_stage self) !! handle op)).

(** [int(self.recipe_stage.reserve_inner_axis_count[op])] *)
Definition reserve_count (self : t) (op : Operation) : result Z :=
  match reserve_inner_axis_count (recipe_stage self) !! handle op with
  | Some n => Ok n
  | None => Raise KeyError
  end.

Definition can_inline (op : Operation) (dag : ComputeDAG) : bool :=
  if negb (bool_decide (is_Some (feed_graph dag !! handle op))) then false
  else if negb (is_compute op) then false
  else if (0 <? n_reduce_axis op)%nat then false
  else true.

Definition inline (self : t) (op_id : Z) (op : Operation)
    (X : Operation → Operation) : M unit :=
  if has_role self op then mret tt
  else if can_inline op (target_dag self) then
    _ ← emit (SchComputeInline (StageOf (handle (X op))));
    modify_state (add_inlined (handle op))
  else mret tt.

Definition cache_read (self : t) (op_id : Z) (op : Operation)
    (X : Operation → Operation) : M unit :=
  if has_role self op then mret tt
  else match feed_graph (target_dag self) !! handle op with
  | None => mret tt
  | Some consumers =>
    if len consumers <=? 0 then mret tt
    else
      c0 ← lift (list_getitem consumers 0);
      let do_cache_read_for_load :=
        match operation_role (recipe_stage self) !! handle c0 with
        | Some role =>
            if decide (role = OperationRole.load_op)
            then len consumers =? 1 else false
        | None => false
        end in
      last ← lift (list_getitem (op_lst (target_dag self)) (-1));
      let do_cache_read_for_last :=
        if op_eq c0 last then len consumers =? 1 else false in
      _ ← lift (py_assert
                  (negb (do_cache_read_for_load && do_cache_read_for_last))
                  EmptyString);
      if do_cache_read_for_load then
        let S := CacheStage (handle (X op)) in
        _ ← emit (SchCacheRead (handle (X op)) "shared"
                    ((fun x => handle (X x)) <$> consumers));
        axis ← get_main_op_outermost_last_reduce_axis;
        _ ← emit (SchComputeAt S (StageOf (handle (X (main_op self)))) axis);
        warp_num ← get_main_op_warp_numbers;
        vec_len ← get_vectorize_length;
        fused ← fuse S (Axis S <$> seq 0 (n_axis (X op)));
        '(fused, vectorized) ← split S fused vec_len;
        '(fused, thread_level) ← split S fused (PyInt warp_size);
        '(fused, warp_level) ← split S fused warp_num;
        _ ← emit (SchBind S thread_level tx);
        _ ← emit (SchBind S warp_level ty);
        emit (SchVectorize S vectorized)
      else mret tt
  end.

Definition set_scope (self : t) (op_id : Z) (op : Operation)
    (X : Operation → Operation) : M unit :=
  match operation_role (recipe_stage self) !! handle op with
  | Some role =>
      if decide (role ≠ OperationRole.output_op)
      then emit (SchSetScope (StageOf (handle (X op))) "local")
      else mret tt
  | None => mret tt
  end.

(** The splitting loop shared by the three branches of [tiling]:
    [part = []; for f in reversed(factors[1:]): iv, inner = split(iv, f);
    part.append(inner)], then [part.append(iv)] and the reversal. *)
Definition split_parts (s : Stage) (iv : IterVar) (factors : pyval)
    : M (list IterVar) :=
  tail ← lift (py_getslice factors (Some 1) None);
  fs ← lift (py_iter tail);
  '(iv, part) ← foldM (fun '(iv, part) f =>
                         '(iv, inner) ← split s iv f;
                         mret (iv, part ++ [inner]))
                      (iv, []) (reverse fs);
  mret (reverse (part ++ [iv])).

(** The loop of [tiling] that separates the reserved reduce axes from the
    ones to split; the result is [(reserve_reduce_axis, split_reduce_axis)]. *)
Definition partition_reduce_axis (tmp : list Z) (all_reduce_axis : list IterVar)
    : list IterVar * list IterVar :=
  foldl (fun '(reserve, split) '(i, iv) =>
           if bool_decide (i ∈ tmp) then (reserve ++ [iv], split)
           else (reserve, split ++ [iv]))
        ([], []) (enumerate all_reduce_axis).

Definition tiling_main (self : t) (op : Operation)
    (X : Operation → Operation) : M unit :=
  let s := StageOf (handle (X op)) in
  let axis := op_axis (X op) in
  reserve_spatial_num ← lift (reserve_count self op);
  let spatial_axis_split_parts :=
    (py_slice axis None (Some (- reserve_spatial_num)),
     py_slice axis (Some (- reserve_spatial_num)) None) in
  let all_reduce_axis := op_reduce_axis (X op) in
  let '(reserve_reduce_axis, split_reduce_axis) :=
    partition_reduce_axis (main_op_reserve_reduce_axis (recipe_stage self))
      all_reduce_axis in
  let reserve_reduce_num := len reserve_reduce_axis in
  pos ← get_output_op_third_innermost_last_axis;
  _ ← emit (SchComputeAt s (StageOf (handle (X (output_op self)))) pos);
  reduce_axis_split_factors ←
    get_main_op_reduce_axis_factors (len split_reduce_axis);
  reduce_axis_split_parts ←
    mapM (fun '(iv, factors) => split_parts s iv factors)
         (zip split_reduce_axis reduce_axis_split_factors);
  let reordered_reduce_axis :=
    zip_star reduce_axis_split_parts ++ [reserve_reduce_axis] in
  _ ← lift (py_assert (3 <? len reordered_reduce_axis)
              "No enough reduce axis split.");
  let ordered_axis :=
    concat (py_slice reordered_reduce_axis None (Some (-2)) ++
            [spatial_axis_split_parts.1] ++
            py_slice reordered_reduce_axis (Some (-2)) (Some (-1)) ++
            [spatial_axis_split_parts.2] ++
            py_slice reordered_reduce_axis (Some (-1)) None) in
  _ ← emit (SchReorder s ordered_axis);
  _ ← modify_state (set_main_op_reduce_axis reordered_reduce_axis);
  iv ← lift (list_getitem ordered_axis
               (- (reserve_spatial_num + reserve_reduce_num)));
  modify_state (set_tensorize_iter (handle op) iv).

Definition tiling_output (self : t) (op : Operation)
    (X : Operation → Operation) : M unit :=
  let s := StageOf (handle (X op)) in
  let axis := op_axis (X op) in
  reserve_spatial_num ← lift (reserve_count self op);
  let split_spatial_axis := py_slice axis None (Some (- reserve_spatial_num)) in
  let reserve_spatial_axis := py_slice axis (Some (- reserve_spatial_num)) None in
  spatial_axis_split_factors ←
    get_output_op_axis_factors (len split_spatial_axis);
  spatial_axis_split_parts ←
    mapM (fun '(iv, factors) => split_parts s iv factors)
         (zip split_spatial_axis spatial_axis_split_factors);
  let reordered_spatial_axis :=
    zip_star spatial_axis_split_parts ++ [reserve_spatial_axis] in
  let ordered_axis := concat reordered_spatial_axis in
  _ ← emit (SchReorder s ordered_axis);
  _ ← lift (py_assert (3 <? len reordered_spatial_axis)
              "No enough spatial axis split.");
  fused_axis ← mapM (fuse s) (py_slice reordered_spatial_axis None (Some (-2)));
  let final_axis := (fun x => [x]) <$> fused_axis in
  f0 ← lift (list_getitem fused_axis 0);
  _ ← emit (SchBind s f0 bx);
  _ ← forM (py_slice fused_axis (Some 1) (Some (-1)))
           (fun med_fused => emit (SchBind s med_fused (ThreadAxis "vthread")));
  fl ← lift (list_getitem fused_axis (-1));
  _ ← emit (SchBind s fl ty);
  r2 ← lift (list_getitem reordered_spatial_axis (-2));
  r1 ← lift (list_getitem reordered_spatial_axis (-1));
  final_axis ←
    (if decide (instruction_scope (recipe_stage self) = InstructionScope.thread)
     then
       fused ← fuse s r2;
       '(outer, inner) ← split_nparts s fused warp_size;
       _ ← emit (SchBind s outer tx);
       mret (final_axis ++ [[outer; inner]] ++ [r1])
     else mret (final_axis ++ [r2] ++ [r1]));
  _ ← modify_state (set_output_op_axis final_axis);
  lastl ← lift (list_getitem final_axis (-1));
  iv ← lift (list_getitem lastl (-2));
  modify_state (set_tensorize_iter (handle op) iv).

Definition tiling_last (self : t) (op : Operation)
    (X : Operation → Operation) : M unit :=
  let s := StageOf (handle (X op)) in
  let axis := op_axis (X op) in
  fused ← fuse s axis;
  '(fused, thread_level) ← split s fused (PyInt warp_size);
  split_factors ← get_last_op_axis_factors 1;
  sf0 ← lift (list_getitem split_factors 0);
  split_parts ← split_parts s fused sf0;
  p0 ← lift (list_getitem split_parts 0);
  _ ← emit (SchBind s p0 obx);
  pl ← lift (list_getitem split_parts (-1));
  _ ← emit (SchBind s pl oty);
  _ ← emit (SchBind s thread_level otx);
  modify_state (set_last_op_axis [split_parts ++ [thread_level]]).

Definition tiling (self : t) (op_id : Z) (op : Operation)
    (X : Operation → Operation) : M unit :=
  if op_eq op (main_op self) then tiling_main self op X
  else if op_eq op (output_op self) then tiling_output self op X
  else
    last ← lift (list_getitem (op_lst (target_dag self)) (-1));
    if op_eq op last then tiling_last self op X else mret tt.

Definition compute_at (self : t) (op_id : Z) (op : Operation)
    (X : Operation → Operation) : M unit :=
  if negb (has_role self op) then mret tt
  else if op_id <? main_op_id self then
    axis ← get_main_op_second_outermost_last_reduce_axis;
    _ ← emit (SchComputeAt (StageOf (handle (X op)))
                (StageOf (handle (X (main_op self)))) axis);
    reserve_spatial_num ← lift (reserve_count self op);
    iv ← lift (list_getitem (op_axis (X op)) (- reserve_spatial_num));
    modify_state (set_tensorize_iter (handle op) iv)
  else if (main_op_id self <? op_id) && (op_id <? output_op_id self) then
    axis ← get_output_op_third_innermost_last_axis;
    _ ← emit (SchComputeAt (StageOf (handle (X op)))
                (StageOf (handle (X (output_op self)))) axis);
    reserve_spatial_num ← lift (reserve_count self op);
    iv ← lift (list_getitem (op_axis (X op)) (- reserve_spatial_num));
    modify_state (set_tensorize_iter (handle op) iv)
  else mret tt.

Definition unroll (self : t) (op_id : Z) (op : Operation)
    (X : Operation → Operation) : M unit :=
  let s := StageOf (handle (X op)) in
  if op_eq op (output_op self) then
    axis ← get_output_op_outermost_last_axis;
    step ← get_output_op_unroll_step;
    emit (SchPragma s axis "auto_unroll_max_step" step)
  else if op_eq op (main_op self) then
    axis ← get_main_op_outermost_last_reduce_axis;
    step ← get_output_op_unroll_step;
    emit (SchPragma s axis "auto_unroll_max_step" step)
  else
    last ← lift (list_getitem (op_lst (target_dag self)) (-1));
    if op_eq op last then
      axis ← get_last_op_outermost_last_axis;
      step ← get_last_op_unroll_step;
      emit (SchPragma s axis "auto_unroll_max_step" step)
    else mret tt.

(** The intrinsic returned by [recipe.get_intrinsic] is named by the
    capsule key it is looked up with. *)
Definition tensorize (self : t) (op_id : Z) (op : Operation)
    (X : Operation → Operation) : M unit :=
  if negb (has_role self op) then mret tt
  else
    intrin ← lift (match capsule_key (recipe_stage self) !! handle op with
                   | Some k => Ok k
                   | None => Raise KeyError
                   end);
    axis ← get_tensorize_iter op;
    emit (SchTensorize (StageOf (handle (X op))) axis intrin).

Definition primitives
    : list (t → Z → Operation → (Operation → Operation) → M unit) :=
  [inline; cache_read; set_scope; tiling; compute_at; unroll; tensorize].

(** [apply] returns the schedule object it was given, after the calls. *)
Definition apply (self : t) (params : Params) (X : Operation → Operation)
    : M (list Primitive) :=
  _ ← initialize_parameters params;
  _ ← check_parameter_ready;
  _ ← initialize_state;
  let dag := target_dag self in
  let total_op := len (op_lst dag) in
  _ ← forM (enumerate (reverse (op_lst dag))) (fun '(op_id, op) =>
        if negb (is_compute op) then mret tt
        else forM primitives (fun prim => prim self (total_op - op_id - 1) op X));
  get_sch.

End CUDAScheduleApplier.

(** ** [auto_schedule] *)

(** [intrin_match_result.recipe.target] and the two attributes of
    [transform_state] that [auto_schedule] reads; [main_op_map] is a
    dictionary, iterated in insertion order. *)
Record MatchInput := mkMatchInput {
  recipe_target : string;
  main_op_map : list (nat * Operation);
  transform_dag : ComputeDAG
}.

(** The body of the loop over [op_lst], on the outcome of the iterations
    before it.  The test reads [op.reduce_axis] first, and unlike [can_inline]
    and [apply] it does so without asking whether [op] is a compute
    operation. *)
Definition reduce_check (target_main_op : Operation) (acc : result unit)
    (op : Operation) : result unit :=
  _ ← acc;
  reduce_axis ← getattr_reduce_axis op;
  if (0 <? len reduce_axis) && negb (op_eq op target_main_op)
  then Raise (RuntimeError
         "We do not support scheduling for reduce op which is not main op.")
  else Ok tt.

Definition auto_schedule (inp : MatchInput) : result unit :=
  let target_main_op :=
    foldl (fun _ kv => Some kv.2) None (main_op_map inp) in
  match target_main_op with
  | None => Raise (AssertionError EmptyString)
  | Some target_main_op =>
      _ ← foldl (reduce_check target_main_op) (Ok tt)
            (op_lst (transform_dag inp));
      if bool_decide (recipe_target inp = "cuda") then Ok tt
      else Raise (RuntimeError ("Target not supported: " +:+ recipe_target inp))
  end.

(** ** Vocabulary of the statements *)

(** The warp-dimension entry of a choice [(factors, direction)]: the second
    element of the chosen factor tuple, when there is one and it is an
    integer. *)
Definition warp_dim (c : pyval) : option Z :=
  match py_getitem c 0 ≫= (fun f => py_getitem f 1) with
  | Ok (PyInt w) => Some w
  | _ => None
  end.

Definition spatial_warp_dims (r : Params) : option (list Z) :=
  match py_iter (spatial_factors r) with
  | Ok items => mapM warp_dim items
  | Raise _ => None
  end.

Definition last_warp_dim (r : Params) : option Z :=
  match py_getitem (last_factors r) 0 with
  | Ok c => warp_dim c
  | Raise _ => None
  end.

Definition product (l : list Z) : Z := foldr Z.mul 1 l.

(** The invariant that [heapq] keeps on a list: no element is smaller (for
    [<]) than its parent. *)
Definition is_heap (h : list CUDAScheduleGenerator.Entry) : Prop :=
  ∀ i e p, (0 < i)%nat → h !! i = Some e → h !! ((i - 1) / 2)%nat = Some p →
    CUDAScheduleGenerator.entry_lt e p = false.

(** The parent of position [i] in the heap, [(i - 1) >> 1]. *)
Definition parent (i : nat) : nat := ((i - 1) / 2)%nat.

(** The invariant of the loop of [_siftdown]: the list is a heap but for a
    hole at [pos], which waits for [x]; the children of the hole are not
    above [x] nor above the parent of the hole. *)
Record sift_inv (hp : list CUDAScheduleGenerator.Entry) (pos : nat)
    (x : CUDAScheduleGenerator.Entry) : Prop := mk_sift_inv {
  sift_pos : (pos < length hp)%nat;
  sift_others : ∀ i e p, (0 < i)%nat → i ≠ pos →
    hp !! i = Some e → hp !! parent i = Some p →
    (CUDAScheduleGenerator.value e <= CUDAScheduleGenerator.value p)%R;
  sift_children : ∀ c e, (0 < c)%nat → parent c = pos →
    hp !! c = Some e →
    (CUDAScheduleGenerator.value e <= CUDAScheduleGenerator.value x)%R;
  sift_grand : ∀ c e g, (0 < pos)%nat → (0 < c)%nat → parent c = pos →
    hp !! c = Some e → hp !! parent pos = Some g →
    (CUDAScheduleGenerator.value e <= CUDAScheduleGenerator.value g)%R
}.

(** None of the [max_trial] attempts of [get] finds a valid, non-duplicate
    candidate: each assembles a candidate that has been visited (and
    [repeat] is off) or that [valid] rejects. *)
Definition no_candidate_found (tape : nat → CUDAScheduleGenerator.Draw)
    (policy : string) (repeat : bool) (max_trial : nat)
    (self : CUDAScheduleGenerator.t) : Prop :=
  ∀ i, (i < max_trial)%nat → ∃ record,
    CUDAScheduleGenerator.assemble self policy
      (tape (CUDAScheduleGenerator.trial_no self + i)%nat)
      = Ok (CUDAScheduleGenerator.Candidate record) ∧
    ((repeat = false ∧ Params_str record ∈ CUDAScheduleGenerator.visited self) ∨
     CUDAScheduleGenerator.valid record = Ok false).

(** What an attempt of [get] does with the candidate [r] it has assembled:
    it rejects [r] when the duplicate guard or [valid] says no, it returns
    [r] when both say yes, and it fails when [valid] raises behind the
    guard. *)
Definition attempt_rejected (repeat : bool) (self : CUDAScheduleGenerator.t)
    (r : Params) : Prop :=
  (repeat = false ∧ Params_str r ∈ CUDAScheduleGenerator.visited self) ∨
  CUDAScheduleGenerator.valid r = Ok false.

Definition attempt_accepted (repeat : bool) (self : CUDAScheduleGenerator.t)
    (r : Params) : Prop :=
  (repeat = true ∨ Params_str r ∉ CUDAScheduleGenerator.visited self) ∧
  CUDAScheduleGenerator.valid r = Ok true.

Definition attempt_fails (repeat : bool) (self : CUDAScheduleGenerator.t)
    (r : Params) (e : exn) : Prop :=
  (repeat = true ∨ Params_str r ∉ CUDAScheduleGenerator.visited self) ∧
  CUDAScheduleGenerator.valid r = Raise e.

(** A 3-way choice [c] with the factors [f] (outer to inner): [c[0]] is a
    sequence of these three factors. *)
Definition three_way_choice (c : pyval) (f : pyval * pyval * pyval) : Prop :=
  ∃ v, py_getitem c 0 = Ok v ∧ py_iter v = Ok [f.1.1; f.1.2; f.2].

(** The three tile levels of the axis [iv] split by such factors: the
    innermost factor is split off first. *)
Definition tile_level0 (t : IterVar * (pyval * pyval * pyval)) : IterVar :=
  let '(iv, (f0, f1, f2)) := t in SplitOuter (SplitOuter iv f2) f1.
Definition tile_level1 (t : IterVar * (pyval * pyval * pyval)) : IterVar :=
  let '(iv, (f0, f1, f2)) := t in SplitInner (SplitOuter iv f2) f1.
Definition tile_level2 (t : IterVar * (pyval * pyval * pyval)) : IterVar :=
  let '(iv, (f0, f1, f2)) := t in SplitInner iv f2.

(** The part of the loop nest that the splitting loop of [tiling] builds
    for one axis. *)
Definition tile_part (t : IterVar * (pyval * pyval * pyval)) : list IterVar :=
  [tile_level0 t; tile_level1 t; tile_level2 t].

(** The reduce axes of [op] whose position is listed in
    [main_op_reserve_reduce_axis], and the others. *)
Definition reserved_reduce_axes (reserve : list Z) (op : Operation) : list IterVar :=
  ReduceAxis (StageOf (handle op))
    <$> filter (fun i => Z.of_nat i ∈ reserve) (seq 0 (n_reduce_axis op)).
Definition tileable_reduce_axes (reserve : list Z) (op : Operation) : list IterVar :=
  ReduceAxis (StageOf (handle op))
    <$> filter (fun i => Z.of_nat i ∉ reserve) (seq 0 (n_reduce_axis op)).

(** A sequence of [feedback] calls, one per (record, cost) pair, and the
    entry that each of them pushes. *)
Definition fed_entry (rv : Params * R) : CUDAScheduleGenerator.Entry :=
  CUDAScheduleGenerator.mkEntry rv.1 rv.2.

Definition feedback_all (self : CUDAScheduleGenerator.t) (l : list (Params * R))
    : CUDAScheduleGenerator.t :=
  foldl (fun s rv => CUDAScheduleGenerator.feedback s rv.1 rv.2) self l.

(** One call of a method on the generator: [get] with any arguments and any
    random source, or [feedback]. *)
Inductive generator_step
    : CUDAScheduleGenerator.t → CUDAScheduleGenerator.t → Prop :=
| step_get tape policy repeat max_trial self :
    generator_step self
      (CUDAScheduleGenerator.get tape policy repeat max_trial self).2
| step_feedback self record v :
    generator_step self (CUDAScheduleGenerator.feedback self record v).

(** [sum(l)] *)
Definition zsum (l : list Z) : Z := foldr Z.add 0 l.

(** Iteration [i] of the loop of [sa_select_entry] accepts: the sample is
    below the weight of the candidate drawn, relative to the first
    candidate. *)
Definition sa_accepted (cand : list CUDAScheduleGenerator.Entry)
    (samples : nat → Z * R) (i : nat) : Prop :=
  ∃ best c,
    cand !! 0%nat = Some best ∧
    cand !! Z.to_nat ((samples i).1 `mod` Z.of_nat (length cand)) = Some c ∧
    ((samples i).2 < CUDAScheduleGenerator.calculate_p
                       (CUDAScheduleGenerator.value c)
                       (CUDAScheduleGenerator.value best))%R.

(** ** Sample inputs *)

(** A choice as the sub-generators return it: the value and a direction. *)
Definition split_choice (factors : list Z) : pyval :=
  PyTuple [PyList (PyInt <$> factors); PyInt 0].
Definition scalar_choice (z : Z) : pyval := PyTuple [PyInt z; PyInt 0].

(** Two spatial axes with warp factors 2 and 2: accepted by [valid]. *)
Definition sample_record : Params :=
  mkParams (scalar_choice 4)
    (PyList [split_choice [2; 2; 2]; split_choice [4; 2; 1]])
    (PyList [split_choice [2; 3; 5]])
    (PyList [split_choice [4; 8]])
    (scalar_choice 64) (scalar_choice 16).

(** Warp factors 8 and 8, 64 warps: rejected by [valid]. *)
Definition wide_record : Params :=
  mkParams (scalar_choice 4)
    (PyList [split_choice [1; 8; 1]; split_choice [1; 8; 1]])
    (PyList [split_choice [2; 3; 5]])
    (PyList [split_choice [4; 8]])
    (scalar_choice 64) (scalar_choice 16).

(** A random source and sub-generators whose choice spaces have one
    element: every draw assembles the record [r]. *)
Definition constant_tape (r : Params) : nat → CUDAScheduleGenerator.Draw :=
  fun _ => CUDAScheduleGenerator.mkDraw r 0%R (fun _ => (0, 0%R)) (fun _ => Ok r).

(** A generator after [__init__]: [eps = 1e-1], no entry, nothing visited. *)
Definition fresh_generator : CUDAScheduleGenerator.t :=
  CUDAScheduleGenerator.mk (/ 10)%R [] ∅ 0.

Definition entry_hi : CUDAScheduleGenerator.Entry :=
  CUDAScheduleGenerator.mkEntry sample_record 2%R.
Definition entry_lo : CUDAScheduleGenerator.Entry :=
  CUDAScheduleGenerator.mkEntry wide_record 1%R.

(** The generator after [feedback(sample_record, 2)] and
    [feedback(wide_record, 1)]. *)
Definition fed_generator : CUDAScheduleGenerator.t :=
  CUDAScheduleGenerator.mk (/ 10)%R [entry_hi; entry_lo] ∅ 0.

(** A graph before the intrinsic is spliced in: two placeholders, a
    reduction (the match point) and an elementwise operation. *)
Definition op_a : Operation := mkOp 0 false 2 0.
Definition op_b : Operation := mkOp 1 false 2 0.
Definition op_gemm : Operation := mkOp 2 true 2 1.
Definition op_relu : Operation := mkOp 3 true 2 0.

Definition gemm_dag : ComputeDAG :=
  mkDAG [op_a; op_b; op_gemm; op_relu]
    (list_to_map [(0%nat, [op_gemm]); (1%nat, [op_gemm]); (2%nat, [op_relu])]).

(** A graph of compute operations only: a table computed from its indices,
    its row sums (a reduction, the match point) and an elementwise
    operation. *)
Definition op_iota : Operation := mkOp 0 true 2 0.
Definition op_rowsum : Operation := mkOp 1 true 1 1.
Definition op_scale : Operation := mkOp 2 true 1 0.
(** A second reduction, as in a graph the scheduler does not accept. *)
Definition op_total : Operation := mkOp 3 true 1 1.

Definition rowsum_dag : ComputeDAG :=
  mkDAG [op_iota; op_rowsum; op_scale]
    (list_to_map [(0%nat, [op_rowsum]); (1%nat, [op_scale])]).

Definition rowsum_total_dag : ComputeDAG :=
  mkDAG [op_iota; op_rowsum; op_scale; op_total]
    (list_to_map [(0%nat, [op_rowsum]); (1%nat, [op_scale]);
                  (2%nat, [op_total])]).

(** The graph after the splice, for a matrix-multiply intrinsic with the
    capsules load_a, load_b, mma and store: each role-bearing operation has
    two outer and two reserved spatial axes, the Main operation one
    tileable and one reserved reduction axis. *)
Definition op_load_a : Operation := mkOp 2 true 4 0.
Definition op_load_b : Operation := mkOp 3 true 4 0.
Definition op_mma : Operation := mkOp 4 true 4 2.
Definition op_store : Operation := mkOp 5 true 4 0.

Definition mma_dag : ComputeDAG :=
  mkDAG [op_a; op_b; op_load_a; op_load_b; op_mma; op_store]
    (list_to_map [(0%nat, [op_load_a]); (1%nat, [op_load_b]);
                  (2%nat, [op_mma]); (3%nat, [op_mma]); (4%nat, [op_store])]).

Definition mma_stage : RecipeStage :=
  mkRecipeStage
    (list_to_map [(2%nat, OperationRole.load_op); (3%nat, OperationRole.load_op);
                  (4%nat, OperationRole.main_op); (5%nat, OperationRole.output_op)])
    (list_to_map [(2%nat, "load_a"); (3%nat, "load_b"); (4%nat, "mma");
                  (5%nat, "store")]%string)
    (list_to_map [(2%nat, 2); (3%nat, 2); (4%nat, 2); (5%nat, 2)])
    [1] InstructionScope.block.

Definition mma_applier : CUDAScheduleApplier.t :=
  CUDAScheduleApplier.mk mma_dag op_mma op_store 4 5 mma_stage.

(** The memory in which [apply] reaches the Main operation of [mma_dag]:
    the seven primitives have been applied to the Output operation, with
    the parameters [sample_record] and the default [mapping_func]. *)
Definition mma_output_done : CUDAScheduleApplier.Mem :=
  (CUDAScheduleApplier.forM CUDAScheduleApplier.primitives
     (fun prim => prim mma_applier 5 op_store (fun x => x))
     (CUDAScheduleApplier.mkMem empty_state sample_record [])).2.

(** The memory after [tiling] on the Main operation. *)
Definition mma_main_tiled : CUDAScheduleApplier.Mem :=
  (CUDAScheduleApplier.tiling mma_applier 4 op_mma (fun x => x)
     mma_output_done).2.

(** The [sa_select_entry] samples of one trial: [np.random.randint] gives 1
    and [np.random.random()] gives 0.1 at every iteration. *)
Definition sa_tape : nat → Z * R := fun _ => (1, (/ 10)%R).

(** The generator [self] after [n] more draws have been consumed by trials
    that went on. *)
Definition after_trials (self : CUDAScheduleGenerator.t) (n : nat)
    : CUDAScheduleGenerator.t :=
  CUDAScheduleGenerator.mk (CUDAScheduleGenerator.eps self)
    (CUDAScheduleGenerator.entries self) (CUDAScheduleGenerator.visited self)
    (CUDAScheduleGenerator.trial_no self + n).

(** A second record accepted by [valid], with another vector length. *)
Definition narrow_record : Params :=
  mkParams (scalar_choice 2)
    (PyList [split_choice [2; 2; 2]; split_choice [4; 2; 1]])
    (PyList [split_choice [2; 3; 5]])
    (PyList [split_choice [4; 8]])
    (scalar_choice 64) (scalar_choice 16).

(** A random source whose first draw assembles [sample_record] and whose
    later draws assemble [narrow_record]. *)
Definition two_record_tape : nat → CUDAScheduleGenerator.Draw :=
  fun i => match i with
           | O => constant_tape sample_record i
           | S _ => constant_tape narrow_record i
           end.

(** The matrix-multiply graph followed by an elementwise operation without
    role, the trailing operation of the graph. *)
Definition op_bias : Operation := mkOp 6 true 2 0.

Definition mma_bias_dag : ComputeDAG :=
  mkDAG [op_a; op_b; op_load_a; op_load_b; op_mma; op_store; op_bias]
    (list_to_map [(0%nat, [op_load_a]); (1%nat, [op_load_b]);
                  (2%nat, [op_mma]); (3%nat, [op_mma]); (4%nat, [op_store]);
                  (5%nat, [op_bias])]).

Definition mma_bias_applier : CUDAScheduleApplier.t :=
  CUDAScheduleApplier.mk mma_bias_dag op_mma op_store 4 5 mma_stage.

(** An archive with two negative costs, and samples for which the first
    two iterations of [sa_select_entry] draw the second candidate and reject
    it, and the third one draws the first candidate. *)
Definition entry_m1 : CUDAScheduleGenerator.Entry :=
  CUDAScheduleGenerator.mkEntry sample_record (-1)%R.
Definition entry_m2 : CUDAScheduleGenerator.Entry :=
  CUDAScheduleGenerator.mkEntry narrow_record (-2)%R.

Definition loss_generator : CUDAScheduleGenerator.t :=
  CUDAScheduleGenerator.mk (/ 10)%R [entry_m1; entry_m2] ∅ 0.

Definition late_tape : nat → Z * R :=
  fun i => match i with
           | 0%nat | 1%nat => (1, (6 / 10)%R)
           | _ => (0, (6 / 10)%R)
           end.

(** * Properties *)

(** ** Serialisation of [Params] *)

(** C5: serialising a record with [to_json] and reading it back, with
    [Params.from_json] on any receiving object or with
    [CUDAScheduleGenerator.record_from_json], gives a record equal to the
    original in its six fields. *)
Theorem params_json_roundtrip (self p : Params) :
  from_json self (to_json p) = Ok p ∧
  CUDAScheduleGenerator.record_from_json (to_json p) = Ok p.
Proof. destruct p. split; reflexivity. Qed.

(** ** Hidden and visible choices of the generators *)

Section Comprehension.
Implicit Types (kvs : list (Z * Z)) (m : gmap Z Z).

Lemma comprehension_lookup_inv kvs : ∀ m k v,
  foldl dict_insert m kvs !! k = Some v → (k, v) ∈ kvs ∨ m !! k = Some v.
Proof.
  induction kvs as [|[k' v'] kvs IH]; intros m k v Hl; simpl in *.
  - by right.
  - apply IH in Hl as [Hin | Hl].
    + left. by right.
    + unfold dict_insert in Hl. simpl in Hl.
      destruct (decide (k' = k)) as [->|Hne].
      * rewrite lookup_insert_eq in Hl. inversion Hl; subst. left. by left.
      * rewrite lookup_insert_ne in Hl by done. by right.
Qed.

Lemma comprehension_lookup_is_Some kvs : ∀ m k,
  k ∈ kvs.*1 ∨ is_Some (m !! k) → is_Some (foldl dict_insert m kvs !! k).
Proof.
  induction kvs as [|[k' v'] kvs IH]; intros m k H; simpl in *.
  - destruct H as [H|H]; [by apply elem_of_nil in H | done].
  - apply IH. destruct H as [H|H].
    + apply elem_of_cons in H as [->|H]; [right | by left].
      unfold dict_insert. simpl. rewrite lookup_insert_eq. by eexists.
    + right. unfold dict_insert. simpl.
      destruct (decide (k' = k)) as [->|Hne].
      * rewrite lookup_insert_eq. by eexists.
      * by rewrite lookup_insert_ne.
Qed.

Lemma comprehension_lookup_nodup kvs : ∀ m k v,
  NoDup kvs.*1 → (k, v) ∈ kvs → foldl dict_insert m kvs !! k = Some v.
Proof.
  induction kvs as [|[k' v'] kvs IH]; intros m k v Hnd Hin; simpl in *.
  - by apply elem_of_nil in Hin.
  - apply NoDup_cons in Hnd as [Hnotin Hnd].
    apply elem_of_cons in Hin as [Heq|Hin].
    + inversion Heq; subst.
      destruct (foldl dict_insert (dict_insert m (k', v')) kvs !! k')
        as [w|] eqn:E.
      * apply comprehension_lookup_inv in E as [E|E].
        -- exfalso. apply Hnotin. apply list_elem_of_fmap.
           by exists (k', w).
        -- unfold dict_insert in E. simpl in E.
           by rewrite lookup_insert_eq in E.
      * assert (is_Some (foldl dict_insert (dict_insert m (k', v')) kvs !! k'))
          as [? Hs].
        { apply comprehension_lookup_is_Some. right. unfold dict_insert. simpl.
          rewrite lookup_insert_eq. by eexists. }
        congruence.
    + by apply IH.
Qed.
End Comprehension.

Lemma dict_comprehension_inv kvs k v :
  dict_comprehension kvs !! k = Some v → (k, v) ∈ kvs.
Proof.
  intros H. apply comprehension_lookup_inv in H as [H|H]; [done|].
  by rewrite lookup_empty in H.
Qed.

Lemma dict_comprehension_is_Some kvs k :
  k ∈ kvs.*1 → is_Some (dict_comprehension kvs !! k).
Proof. intros H. apply comprehension_lookup_is_Some. by left. Qed.

Lemma dict_comprehension_nodup kvs k v :
  NoDup kvs.*1 → (k, v) ∈ kvs → dict_comprehension kvs !! k = Some v.
Proof. apply comprehension_lookup_nodup. Qed.

Lemma dict_get_nodup (d : list (Z * Z)) k v :
  NoDup d.*1 → (k, v) ∈ d → dict_get d k = Some v.
Proof.
  induction d as [|[k' v'] d IH]; intros Hnd Hin; simpl in *.
  - by apply elem_of_nil in Hin.
  - apply NoDup_cons in Hnd as [Hnotin Hnd].
    apply elem_of_cons in Hin as [Heq|Hin].
    + inversion Heq; subst. by rewrite decide_True.
    + rewrite decide_False; [by apply IH|].
      intros ->. apply Hnotin. apply list_elem_of_fmap. by exists (k, v).
Qed.

(** Round trip through an index dictionary and its inverse, as built by
    [VectorizeLengthGenerator] and [UnrollStepGenerator]. *)
Lemma index_maps_roundtrip (values : list Z) (x : Z) :
  let choices := Z.of_nat <$> seq 0 (length values) in
  x ∈ values →
  map_getitem (dict_comprehension (zip values choices)) x
    ≫= map_getitem (dict_comprehension (zip choices values)) = Ok x.
Proof.
  intros choices Hx.
  assert (length choices = length values) as Hlen.
  { unfold choices. by rewrite length_fmap, length_seq. }
  destruct (dict_comprehension_is_Some (zip values choices) x) as [i Hi].
  { rewrite fst_zip; [done | lia]. }
  assert (dict_comprehension (zip choices values) !! i = Some x) as Hback.
  { apply dict_comprehension_inv in Hi.
    apply dict_comprehension_nodup.
    - rewrite fst_zip by lia. unfold choices.
      apply NoDup_fmap_2; [apply Nat2Z.inj' | apply NoDup_seq].
    - apply list_elem_of_lookup in Hi as [j Hj].
      apply lookup_zip_with_Some in Hj as (a & b & Heq & Ha & Hb).
      inversion Heq; subst.
      apply list_elem_of_lookup. exists j.
      apply lookup_zip_with_Some. eauto. }
  unfold map_getitem, mbind, result_bind. by rewrite Hi, Hback.
Qed.

Lemma mapM_result_roundtrip {A B} (f : A → result B) (g : B → result A)
    (x : list A) :
  Forall (fun a => f a ≫= g = Ok a) x → mapM f x ≫= mapM g = Ok x.
Proof.
  induction 1 as [|a x Ha Hx IH]; [reflexivity|].
  cbn. destruct (f a) as [b|e]; cbn in *; [|discriminate].
  destruct (mapM f x) as [h|e]; cbn in *; [|discriminate].
  rewrite Ha, IH. reflexivity.
Qed.

Lemma split_factor_roundtrip choices factor_map dim sum_val dirs (x : list Z) :
  let g := SplitFactorGenerator.init (choices, factor_map, dim, sum_val) dirs in
  NoDup factor_map.*1 →
  Forall (fun f => f ∈ factor_map.*2) x →
  SplitFactorGenerator.map_to_hidden g x
    ≫= SplitFactorGenerator.map_from_hidden g = Ok x.
Proof.
  intros g Hnd Hx.
  apply mapM_result_roundtrip.
  eapply Forall_impl; [exact Hx|].
  intros f' Hf. simpl.
  apply list_elem_of_fmap in Hf as ([k f''] & -> & Hin). simpl.
  destruct (dict_comprehension_is_Some
              ((fun xy : Z * Z => (xy.2, xy.1)) <$> factor_map) f'') as [i Hi].
  { apply list_elem_of_fmap. exists (f'', k). split; [done|].
    apply list_elem_of_fmap. by exists (k, f''). }
  assert (dict_get factor_map i = Some f'') as Hback.
  { apply dict_comprehension_inv in Hi.
    apply list_elem_of_fmap in Hi as ([k' f3] & Heq & Hin').
    inversion Heq; subst. by apply dict_get_nodup. }
  unfold map_getitem. rewrite Hi. cbn. by rewrite Hback.
Qed.

(** C6: for each of the three generators, mapping a visible choice to its
    hidden index and back gives the choice again.  The visible choices of the
    split generator are the factor lists over the values of [factor_map]
    (a dictionary: its keys are distinct); those of the other two are the
    vector lengths and the unroll steps. *)
Theorem map_hidden_roundtrip :
  (∀ choices factor_map dim sum_val dirs (x : list Z),
     let g := SplitFactorGenerator.init (choices, factor_map, dim, sum_val) dirs in
     NoDup factor_map.*1 →
     Forall (fun f => f ∈ factor_map.*2) x →
     SplitFactorGenerator.map_to_hidden g x
       ≫= SplitFactorGenerator.map_from_hidden g = Ok x) ∧
  (∀ lengths x,
     let g := VectorizeLengthGenerator.init lengths in
     x ∈ lengths →
     VectorizeLengthGenerator.map_to_hidden g x
       ≫= VectorizeLengthGenerator.map_from_hidden g = Ok x) ∧
  (∀ steps x,
     let g := UnrollStepGenerator.init steps in
     x ∈ steps →
     UnrollStepGenerator.map_to_hidden g x
       ≫= UnrollStepGenerator.map_from_hidden g = Ok x).
Proof.
  split; [|split].
  - apply split_factor_roundtrip.
  - intros lengths x g Hx. by apply index_maps_roundtrip.
  - intros steps x g Hx. by apply index_maps_roundtrip.
Qed.

Lemma map_hidden_roundtrip_witness :
  (let g := SplitFactorGenerator.init
              ([[0; 2]; [1; 1]; [2; 0]], [(0, 1); (1, 2); (2, 4)], 1, 2)
              [[1]; [-1]] in
   SplitFactorGenerator.map_to_hidden g [4; 1]
     ≫= SplitFactorGenerator.map_from_hidden g = Ok [4; 1]) ∧
  (let g := VectorizeLengthGenerator.init [1; 2; 4; 8] in
   VectorizeLengthGenerator.map_to_hidden g 4
     ≫= VectorizeLengthGenerator.map_from_hidden g = Ok 4) ∧
  (let g := UnrollStepGenerator.init [16; 64; 512; 1500] in
   UnrollStepGenerator.map_to_hidden g 512
     ≫= UnrollStepGenerator.map_from_hidden g = Ok 512).
Proof.
  destruct map_hidden_roundtrip as (Hs & Hv & Hu).
  split; [|split].
  - apply (Hs [[0; 2]; [1; 1]; [2; 0]] [(0, 1); (1, 2); (2, 4)] 1 2 [[1]; [-1]] [4; 1]).
    + compute_done.
    + compute_done.
  - apply (Hv [1; 2; 4; 8] 4). compute_done.
  - apply (Hu [16; 64; 512; 1500] 512). compute_done.
Defined.

(** ** The validity check of the schedule generator *)

Section Valid.
Import CUDAScheduleGenerator.
Local Arguments valid_step : simpl never.

Lemma valid_fold_raise items e : foldl valid_step (Raise e) items = Raise e.
Proof. induction items; simpl; auto. Qed.

(** Once the accumulated product is not an integer it never is again. *)
Lemma valid_fold_not_int items : ∀ v z,
  (∀ z', v ≠ PyInt z') → foldl valid_step (Ok v) items ≠ Ok (PyInt z).
Proof.
  induction items as [|c items IH]; intros v z Hv; simpl.
  - intros [= ->]. by eapply Hv.
  - destruct (valid_step (Ok v) c) as [v'|e] eqn:E.
    + apply IH. intros z' ->. unfold valid_step in E. cbn in E.
      destruct (py_getitem c 0) as [f0|]; cbn in E; [|discriminate].
      destruct (py_getitem f0 1) as [f01|]; cbn in E; [|discriminate].
      destruct v, f01; cbn in E; try discriminate; by eapply Hv.
    + by rewrite valid_fold_raise.
Qed.

Lemma valid_fold_int_inv items : ∀ a b,
  foldl valid_step (Ok (PyInt a)) items = Ok (PyInt b) →
  ∃ ws, mapM warp_dim items = Some ws ∧ b = a * product ws.
Proof.
  induction items as [|c items IH]; intros a b H; simpl in H.
  - inversion H; subst. exists []. split; [done|]. unfold product. simpl. lia.
  - destruct (valid_step (Ok (PyInt a)) c) as [v'|e] eqn:E.
    2:{ by rewrite valid_fold_raise in H. }
    unfold valid_step in E. cbn in E.
    destruct (py_getitem c 0) as [f0|] eqn:E0; cbn in E; [|discriminate].
    destruct (py_getitem f0 1) as [f01|] eqn:E1; cbn in E; [|discriminate].
    destruct f01 as [|w|l|l]; cbn in E; try discriminate; inversion E; subst.
    + apply IH in H as (ws & Hws & ->).
      exists (w :: ws). split.
      * assert (warp_dim c = Some w) as Hc.
        { unfold warp_dim. rewrite E0. cbn. by rewrite E1. }
        change (mapM warp_dim (c :: items))
          with (y ← warp_dim c; k ← mapM warp_dim items; mret (y :: k)).
        by rewrite Hc, Hws.
      * unfold product. simpl. lia.
    + exfalso. by eapply valid_fold_not_int; [|exact H].
    + exfalso. by eapply valid_fold_not_int; [|exact H].
Qed.

Lemma valid_fold_int items : ∀ a ws,
  mapM warp_dim items = Some ws →
  foldl valid_step (Ok (PyInt a)) items = Ok (PyInt (a * product ws)).
Proof.
  induction items as [|c items IH]; intros a ws H; cbn in H.
  - inversion H; subst. unfold product. simpl. f_equal. f_equal. lia.
  - destruct (warp_dim c) as [w|] eqn:Ew; cbn in H; [|discriminate].
    destruct (mapM warp_dim items) as [ws'|] eqn:Em; cbn in H; [|discriminate].
    inversion H; subst. simpl.
    unfold warp_dim in Ew.
    destruct (py_getitem c 0) as [f0|] eqn:E0; cbn in Ew; [|discriminate].
    destruct (py_getitem f0 1) as [f01|] eqn:E1; cbn in Ew; [|discriminate].
    destruct f01; try discriminate. inversion Ew; subst.
    unfold valid_step at 2. cbn. rewrite E0. cbn. rewrite E1. cbn.
    rewrite (IH _ ws') by done. unfold product. simpl. f_equal. f_equal. lia.
Qed.

Lemma valid_iff_warp_capacity r :
  valid r = Ok true ↔
  ∃ ws w, spatial_warp_dims r = Some ws ∧ product ws ≤ 32 ∧
          last_warp_dim r = Some w ∧ w ≤ 32.
Proof.
  unfold valid, spatial_warp_dims, last_warp_dim. split.
  - intros H.
    destruct (py_iter (spatial_factors r)) as [items|]; cbn in H; [|discriminate].
    unfold valid_loop in H.
    destruct (foldl valid_step (Ok (PyInt 1)) items) as [v|] eqn:E;
      cbn in H; [|discriminate].
    destruct v as [|b| |]; cbn in H; try discriminate.
    apply valid_fold_int_inv in E as (ws & Hws & ->).
    destruct (32 <? 1 * product ws) eqn:Hp; [discriminate|].
    destruct (py_getitem (last_factors r) 0) as [l0|]; cbn in H; [|discriminate].
    unfold warp_dim.
    destruct (py_getitem l0 0) as [l00|]; cbn in H |- *; [|discriminate].
    destruct (py_getitem l00 1) as [w|]; cbn in H |- *; [|discriminate].
    destruct w as [|w| |]; cbn in H; try discriminate.
    destruct (32 <? w) eqn:Hw; [discriminate|].
    exists ws, w. repeat split; auto; lia.
  - intros (ws & w & Hws & Hp & Hw & Hle).
    destruct (py_iter (spatial_factors r)) as [items|]; [|discriminate]. cbn.
    unfold valid_loop. rewrite (valid_fold_int _ _ ws) by done. cbn.
    replace (32 <? 1 * product ws) with false by lia.
    destruct (py_getitem (last_factors r) 0) as [l0|]; [|discriminate]. cbn.
    unfold warp_dim in Hw.
    destruct (py_getitem l0 0) as [l00|]; cbn in Hw |- *; [|discriminate].
    destruct (py_getitem l00 1) as [w'|]; cbn in Hw |- *; [|discriminate].
    destruct w'; try discriminate. inversion Hw; subst. cbn.
    by replace (32 <? w) with false by lia.
Qed.

(** A record leaves [get] only through the [return record] that follows
    the validity check. *)
Lemma get_record_checked tape policy repeat max_trial : ∀ self r self',
  get tape policy repeat max_trial self = (Ok (RetRecord r), self') →
  valid r = Ok true.
Proof.
  induction max_trial as [|n IH]; intros self r self' H; simpl in H.
  - unfold fallback in H.
    destruct (list_getitem (entries self) 0); cbn in H; inversion H.
  - unfold trial in H.
    destruct (assemble _ _ _) as [[record|e]|e]; try (inversion H; fail).
    destruct (repeat || _); [|by eapply IH].
    destruct (valid record) as [[|]|e] eqn:Hv.
    + by inversion H; subst.
    + by eapply IH.
    + inversion H.
Qed.
End Valid.

(** ** The search loop of the schedule generator *)

Section Get.
Import CUDAScheduleGenerator.

Lemma assemble_next_trial self policy d :
  assemble (next_trial self) policy d = assemble self policy d.
Proof. reflexivity. Qed.

Lemma trial_rejected tape policy repeat self record :
  assemble self policy (tape (trial_no self)) = Ok (Candidate record) →
  (repeat = false ∧ Params_str record ∈ visited self) ∨ valid record = Ok false →
  trial tape policy repeat self = (None, next_trial self).
Proof.
  intros Ha Hrej. unfold trial. rewrite assemble_next_trial, Ha.
  destruct Hrej as [[-> Hin]|Hv].
  - simpl. by rewrite bool_decide_eq_true_2.
  - rewrite Hv. by destruct (repeat || _).
Qed.

Lemma trial_accepts tape policy repeat self record :
  assemble self policy (tape (trial_no self)) = Ok (Candidate record) →
  repeat = true ∨ Params_str record ∉ visited self →
  valid record = Ok true →
  trial tape policy repeat self
    = (Some (Ok (RetRecord record)),
       add_visited (next_trial self) (Params_str record)).
Proof.
  intros Ha Hnew Hv. unfold trial. rewrite assemble_next_trial, Ha, Hv.
  destruct Hnew as [->|Hnew]; [done|].
  simpl. rewrite (bool_decide_eq_false_2 _ Hnew). simpl. by rewrite orb_true_r.
Qed.

(** When every attempt is rejected the loop ends and [get] returns
    [self.entries[0]]. *)
Lemma get_exhausted tape policy repeat max_trial : ∀ self,
  no_candidate_found tape policy repeat max_trial self →
  get tape policy repeat max_trial self
    = (fallback self, after_trials self max_trial).
Proof.
  induction max_trial as [|n IH]; intros self Hno; simpl.
  - unfold after_trials. rewrite Nat.add_0_r. by destruct self.
  - destruct (Hno 0%nat) as (record & Ha & Hrej); [lia|].
    rewrite Nat.add_0_r in Ha.
    rewrite (trial_rejected _ _ _ _ record) by done.
    rewrite IH.
    + unfold after_trials, next_trial, fallback. simpl.
      do 2 f_equal. lia.
    + intros i Hi. destruct (Hno (S i)) as (r' & Ha' & Hrej'); [lia|].
      exists r'. simpl. rewrite assemble_next_trial.
      replace (S (trial_no self + i))%nat with (trial_no self + S i)%nat by lia.
      done.
Qed.

Lemma trial_raises tape policy repeat self record e :
  assemble self policy (tape (trial_no self)) = Ok (Candidate record) →
  repeat = true ∨ Params_str record ∉ visited self →
  valid record = Raise e →
  trial tape policy repeat self = (Some (Raise e), next_trial self).
Proof.
  intros Ha Hnew Hv. unfold trial. rewrite assemble_next_trial, Ha, Hv.
  destruct Hnew as [->|Hnew]; [done|].
  simpl. rewrite (bool_decide_eq_false_2 _ Hnew). simpl. by rewrite orb_true_r.
Qed.

(** The attempts that are rejected only consume draws. *)
Lemma get_skip_rejected tape policy repeat n : ∀ k self,
  no_candidate_found tape policy repeat k self →
  get tape policy repeat (k + n) self
    = get tape policy repeat n (after_trials self k).
Proof.
  induction k as [|k IH]; intros self Hno.
  - unfold after_trials. rewrite Nat.add_0_r. by destruct self.
  - destruct (Hno 0%nat) as (record & Ha & Hrej); [lia|].
    rewrite Nat.add_0_r in Ha. cbn [Nat.add get].
    rewrite (trial_rejected _ _ _ _ record) by done.
    rewrite IH.
    + f_equal. unfold after_trials, next_trial. simpl. f_equal. lia.
    + intros i Hi. destruct (Hno (S i)) as (r' & Ha' & Hrej'); [lia|].
      exists r'. simpl. rewrite assemble_next_trial.
      replace (S (trial_no self + i))%nat with (trial_no self + S i)%nat by lia.
      done.
Qed.

(** The first attempt that is not rejected decides the call. *)
Lemma get_first_accepted tape policy repeat max_trial k self r :
  (k < max_trial)%nat →
  no_candidate_found tape policy repeat k self →
  assemble self policy (tape (trial_no self + k)%nat) = Ok (Candidate r) →
  attempt_accepted repeat self r →
  get tape policy repeat max_trial self
    = (Ok (RetRecord r), add_visited (after_trials self (S k)) (Params_str r)).
Proof.
  intros Hk Hno Ha [Hnew Hv].
  replace max_trial with (k + S (max_trial - S k))%nat by lia.
  rewrite get_skip_rejected by done. cbn [get].
  rewrite (trial_accepts _ _ _ _ r); [|exact Ha|exact Hnew|exact Hv].
  f_equal. unfold add_visited, next_trial, after_trials. simpl. f_equal. lia.
Qed.

Lemma get_first_fails tape policy repeat max_trial k self r e :
  (k < max_trial)%nat →
  no_candidate_found tape policy repeat k self →
  assemble self policy (tape (trial_no self + k)%nat) = Ok (Candidate r) →
  attempt_fails repeat self r e →
  get tape policy repeat max_trial self = (Raise e, after_trials self (S k)).
Proof.
  intros Hk Hno Ha [Hnew Hv].
  replace max_trial with (k + S (max_trial - S k))%nat by lia.
  rewrite get_skip_rejected by done. cbn [get].
  rewrite (trial_raises _ _ _ _ r e); [|exact Ha|exact Hnew|exact Hv].
  f_equal. unfold next_trial, after_trials. simpl. f_equal. lia.
Qed.

Lemma assemble_empty_archive self policy d :
  entries self = [] → assemble self policy d = Ok (Candidate (random_record d)).
Proof.
  intros He. unfold assemble. rewrite He.
  by rewrite (bool_decide_eq_true_2 ([] = [])), orb_true_r.
Qed.

Lemma no_candidate_empty_archive tape policy repeat k self :
  entries self = [] →
  (∀ j, (j < k)%nat →
        attempt_rejected repeat self
          (random_record (tape (trial_no self + j)%nat))) →
  no_candidate_found tape policy repeat k self.
Proof.
  intros He Hrej j Hj. eexists. split; [by apply assemble_empty_archive|].
  by apply Hrej.
Qed.

Lemma assemble_random self d :
  assemble self "random" d = Ok (Candidate (random_record d)).
Proof. reflexivity. Qed.

Lemma trial_empty_archive tape policy repeat self :
  entries self = [] →
  trial tape policy repeat self = trial tape "random" repeat self.
Proof.
  intros He. unfold trial.
  rewrite (assemble_empty_archive (next_trial self)) by done.
  by rewrite assemble_random.
Qed.

Lemma trial_entries tape policy repeat self o self' :
  trial tape policy repeat self = (o, self') → entries self' = entries self.
Proof.
  unfold trial.
  destruct (assemble _ _ _) as [[record|e]|e]; try by intros [= <- <-].
  destruct (repeat || _); [|by intros [= <- <-]].
  destruct (valid record) as [[|]|e]; by intros [= <- <-].
Qed.

Lemma get_empty_archive tape policy repeat max_trial : ∀ self,
  entries self = [] →
  get tape policy repeat max_trial self = get tape "random" repeat max_trial self.
Proof.
  induction max_trial as [|n IH]; intros self He; simpl; [done|].
  rewrite (trial_empty_archive _ policy) by done.
  destruct (trial tape "random" repeat self) as [[r|] self'] eqn:Ht; [done|].
  apply IH. apply trial_entries in Ht. congruence.
Qed.

(** An entry returned by [get] is an entry of the archive. *)
Lemma list_getitem_elem {A} (l : list A) i x : list_getitem l i = Ok x → x ∈ l.
Proof.
  unfold list_getitem. destruct (_ <? 0); [discriminate|].
  destruct (l !! _) eqn:E; [|discriminate].
  intros [= <-]. by eapply list_elem_of_lookup_2.
Qed.

Lemma assemble_entry_archived self policy d e :
  assemble self policy d = Ok (ReturnNow e) → e ∈ entries self.
Proof.
  unfold assemble.
  destruct (_ || _); [discriminate|].
  destruct (bool_decide (policy = "q")).
  - destruct (greedy _ _); [|discriminate].
    destruct (sa_select_entry _ _ _); cbn; [|discriminate].
    destruct (q_record _ _); cbn; discriminate.
  - destruct (bool_decide (policy = "greedy")); [|discriminate].
    destruct (list_getitem (entries self) 0) eqn:E; cbn; [|discriminate].
    intros [= <-]. by eapply list_getitem_elem.
Qed.

Lemma get_entry_archived tape policy repeat max_trial : ∀ self e self',
  get tape policy repeat max_trial self = (Ok (RetEntry e), self') →
  e ∈ entries self.
Proof.
  induction max_trial as [|n IH]; intros self e self' H; simpl in H.
  - unfold fallback in H.
    destruct (list_getitem (entries self) 0) eqn:E; cbn in H; inversion H; subst.
    by eapply list_getitem_elem.
  - destruct (trial tape policy repeat self) as [[r|] self1] eqn:Ht.
    + inversion H; subst. unfold trial in Ht.
      destruct (assemble _ _ _) as [[record|e0]|e0] eqn:Ea.
      * destruct (repeat || _); [|discriminate].
        destruct (valid record) as [[|]|]; inversion Ht.
      * inversion Ht; subst. by apply assemble_entry_archived in Ea.
      * inversion Ht.
    + apply IH in H. apply trial_entries in Ht. by rewrite <- Ht.
Qed.

Lemma entry_lt_false a b : entry_lt a b = false ↔ (value a <= value b)%R.
Proof.
  unfold entry_lt.
  destruct (Rgt_dec (value a) (value b)); split; intros; try done; lra.
Qed.

(** The root of a heap for [<] has the greatest cost. *)
Lemma heap_root_best h r :
  is_heap h → h !! 0%nat = Some r → ∀ e, e ∈ h → (value e <= value r)%R.
Proof.
  intros Hh Hr e He. apply list_elem_of_lookup in He as [i Hi].
  revert e Hi. induction i as [i IH] using lt_wf_ind. intros e Hi.
  destruct (decide (i = 0%nat)) as [->|Hne].
  - rewrite Hr in Hi. inversion Hi. lra.
  - assert ((i - 1) / 2 < i)%nat as Hlt.
    { apply Nat.Div0.div_lt_upper_bound; lia. }
    destruct (lookup_lt_is_Some_2 h ((i - 1) / 2)%nat) as [p Hp].
    { apply lookup_lt_Some in Hi. lia. }
    pose proof (IH _ Hlt p Hp).
    assert (entry_lt e p = false) as Hep by (eapply Hh; [|done..]; lia).
    apply entry_lt_false in Hep. lra.
Qed.

Lemma entry_lt_true a b : entry_lt a b = true ↔ (value a > value b)%R.
Proof.
  unfold entry_lt.
  destruct (Rgt_dec (value a) (value b)); split; intros; try done; lra.
Qed.

Lemma parent_lt i : (0 < i)%nat → (parent i < i)%nat.
Proof. intros. unfold parent. apply Nat.Div0.div_lt_upper_bound. lia. Qed.

Lemma parent_child c p : (0 < c)%nat → parent c = p → (p < c)%nat.
Proof. intros Hc <-. by apply parent_lt. Qed.

Lemma sift_place hp pos x :
  sift_inv hp pos x →
  (pos = 0%nat ∨ ∃ p, hp !! parent pos = Some p ∧ (value x <= value p)%R) →
  is_heap (<[pos := x]> hp).
Proof.
  intros [Hpos Ha Hb Hc] Hroot i e q Hi He Hq. fold (parent i) in Hq.
  apply entry_lt_false.
  destruct (decide (i = pos)) as [->|Hne].
  - rewrite list_lookup_insert_eq in He by done. inversion He; subst.
    rewrite list_lookup_insert_ne in Hq by (pose proof (parent_lt pos Hi); lia).
    destruct Hroot as [->|(p & Hp & Hle)]; [lia|]. congruence.
  - rewrite list_lookup_insert_ne in He by done.
    destruct (decide (parent i = pos)) as [Hp|Hp].
    + rewrite Hp, list_lookup_insert_eq in Hq by done. inversion Hq; subst.
      by eapply Hb.
    + rewrite list_lookup_insert_ne in Hq by done. by eapply Ha.
Qed.

Lemma sift_step hp pos x p :
  sift_inv hp pos x → (0 < pos)%nat → hp !! parent pos = Some p →
  (value x > value p)%R →
  sift_inv (<[pos := p]> hp) (parent pos) x.
Proof.
  intros [Hpos Ha Hb Hc] H0 Hp Hgt.
  pose proof (parent_lt pos H0) as Hlt.
  split.
  - rewrite length_insert. lia.
  - intros i e q Hi Hne He Hq.
    destruct (decide (i = pos)) as [->|Hip].
    + rewrite list_lookup_insert_eq in He by done. inversion He; subst.
      rewrite list_lookup_insert_ne in Hq by lia.
      rewrite Hp in Hq. inversion Hq. lra.
    + rewrite list_lookup_insert_ne in He by done.
      destruct (decide (parent i = pos)) as [Hpi|Hpi].
      * rewrite Hpi, list_lookup_insert_eq in Hq by done. inversion Hq; subst.
        by eapply (Hc i).
      * rewrite list_lookup_insert_ne in Hq by done. by eapply Ha.
  - intros c e Hc0 Hpc He.
    destruct (decide (c = pos)) as [->|Hcp].
    + rewrite list_lookup_insert_eq in He by done. inversion He; subst. lra.
    + rewrite list_lookup_insert_ne in He by done.
      assert (value e <= value p)%R; [|lra].
      eapply (Ha c); eauto. by rewrite Hpc.
  - intros c e g Hpp Hc0 Hpc He Hg.
    rewrite list_lookup_insert_ne in Hg by (pose proof (parent_lt _ Hpp); lia).
    assert (value p <= value g)%R as Hpg.
    { eapply (Ha (parent pos)); eauto. lia. }
    destruct (decide (c = pos)) as [->|Hcp].
    + rewrite list_lookup_insert_eq in He by done. by inversion He; subst.
    + rewrite list_lookup_insert_ne in He by done.
      assert (value e <= value p)%R; [|lra].
      eapply (Ha c); eauto. by rewrite Hpc.
Qed.

Lemma siftdown_is_heap n : ∀ hp pos x,
  sift_inv hp pos x → (pos ≤ n)%nat → is_heap (siftdown n hp x pos).
Proof.
  induction n as [|n IH]; intros hp pos x Hinv Hn; cbn [siftdown].
  - apply sift_place; [done|]. left. lia.
  - destruct (Nat.ltb_spec 0 pos) as [H0|H0].
    2:{ apply sift_place; [done|]. left. lia. }
    change ((pos - 1) / 2)%nat with (parent pos).
    destruct (lookup_lt_is_Some_2 hp (parent pos)) as [p Hp].
    { pose proof (parent_lt pos H0). pose proof (sift_pos _ _ _ Hinv). lia. }
    rewrite Hp.
    destruct (entry_lt x p) eqn:E.
    + apply IH.
      * apply sift_step; auto. by apply entry_lt_true.
      * pose proof (parent_lt pos H0). lia.
    + apply sift_place; [done|]. right. exists p. split; [done|].
      by apply entry_lt_false.
Qed.

Lemma heappush_is_heap h x : is_heap h → is_heap (heappush h x).
Proof.
  intros Hh. unfold heappush. rewrite length_app. simpl.
  replace (length h + 1 - 1)%nat with (length h) by lia.
  apply siftdown_is_heap; [|lia].
  split.
  - rewrite length_app. simpl. lia.
  - intros i e p Hi Hne He Hp.
    assert (i < length h)%nat as Hlt.
    { apply lookup_lt_Some in He. rewrite length_app in He. simpl in He. lia. }
    rewrite lookup_app_l in He by done.
    rewrite lookup_app_l in Hp by (pose proof (parent_lt i Hi); lia).
    apply entry_lt_false. by eapply Hh.
  - intros c e Hc Hpc He.
    apply lookup_lt_Some in He. rewrite length_app in He. simpl in He.
    unfold parent in Hpc.
    assert (c - 1 < 2 * (length h + 1))%nat by lia.
    exfalso.
    assert (length h * 2 ≤ c - 1)%nat; [|lia].
    rewrite <- Hpc. rewrite Nat.mul_comm. apply Nat.Div0.mul_div_le.
  - intros c e g _ Hc Hpc He _.
    apply lookup_lt_Some in He. rewrite length_app in He. simpl in He.
    unfold parent in Hpc. exfalso.
    assert (c - 1 < 2 * (length h + 1))%nat by lia.
    assert (c - 1 < 2 * S (length h))%nat by lia.
    assert (c - 1 = 2 * ((c-1)/2) + (c - 1) mod 2)%nat by apply Nat.div_mod_eq.
    pose proof (Nat.mod_upper_bound (c - 1) 2). lia.
Qed.

(** The archive is only changed by [feedback], which keeps it a heap. *)
Lemma feedback_is_heap self record v :
  is_heap (entries self) → is_heap (entries (feedback self record v)).
Proof. apply heappush_is_heap. Qed.

Lemma fed_generator_by_feedback :
  feedback (feedback fresh_generator sample_record 2) wide_record 1
    = fed_generator.
Proof.
  unfold feedback, fed_generator, fresh_generator. simpl. f_equal.
  unfold heappush. simpl.
  assert (entry_lt (mkEntry wide_record 1) (mkEntry sample_record 2) = false) as ->.
  { apply entry_lt_false. simpl. lra. }
  reflexivity.
Qed.

Lemma is_heap_fed : is_heap (entries fed_generator).
Proof.
  intros i e p Hi He Hp. destruct i as [|[|i]]; [lia| |done].
  simpl in He, Hp. inversion He; inversion Hp; subst.
  apply entry_lt_false. simpl. lra.
Qed.
End Get.

(** C3: [valid(record)] returns [True] exactly when the product of the
    warp-dimension entries of the spatial factors is at most 32 and the
    warp-dimension factor of the trailing operation is at most 32; and every
    record returned by [get] passes this check.  When [get] returns an
    archived entry instead, the entry comes from the archive, so its record
    passes the check as soon as the archived records do. *)
Theorem valid_warp_capacity :
  (∀ r, CUDAScheduleGenerator.valid r = Ok true ↔
        ∃ ws w, spatial_warp_dims r = Some ws ∧ product ws ≤ 32 ∧
                last_warp_dim r = Some w ∧ w ≤ 32) ∧
  (∀ tape policy repeat max_trial self r self',
     CUDAScheduleGenerator.get tape policy repeat max_trial self
       = (Ok (CUDAScheduleGenerator.RetRecord r), self') →
     CUDAScheduleGenerator.valid r = Ok true) ∧
  (∀ tape policy repeat max_trial self e self',
     (∀ a, a ∈ CUDAScheduleGenerator.entries self →
           CUDAScheduleGenerator.valid (CUDAScheduleGenerator.record a) = Ok true) →
     CUDAScheduleGenerator.get tape policy repeat max_trial self
       = (Ok (CUDAScheduleGenerator.RetEntry e), self') →
     CUDAScheduleGenerator.valid (CUDAScheduleGenerator.record e) = Ok true).
Proof.
  split; [|split].
  - apply valid_iff_warp_capacity.
  - intros tape policy repeat max_trial. apply get_record_checked.
  - intros tape policy repeat max_trial self e self' Harch Hget.
    apply Harch. by eapply get_entry_archived.
Qed.

Lemma valid_warp_capacity_witness :
  (CUDAScheduleGenerator.get (constant_tape sample_record) "random" false 100
     fresh_generator).1 = Ok (CUDAScheduleGenerator.RetRecord sample_record) ∧
  CUDAScheduleGenerator.valid sample_record = Ok true ∧
  spatial_warp_dims sample_record = Some [2; 2] ∧
  last_warp_dim sample_record = Some 8.
Proof.
  destruct valid_warp_capacity as (Hiff & Hget & _).
  split; [reflexivity|]. split; [|split; reflexivity].
  apply (Hget (constant_tape sample_record) "random"%string false 100%nat
              fresh_generator sample_record
              (CUDAScheduleGenerator.get (constant_tape sample_record) "random"
                 false 100 fresh_generator).2).
  reflexivity.
Defined.

(** C1, amended: when [get] finds no valid, non-duplicate candidate within
    [max_trial] attempts and the archive is not empty, it returns the root of
    the archive, [self.entries[0]], which is the best archived entry: no
    archived entry has a greater cost. *)
Theorem get_exhausted_returns_best tape policy repeat max_trial self e rest :
  CUDAScheduleGenerator.entries self = e :: rest →
  is_heap (CUDAScheduleGenerator.entries self) →
  no_candidate_found tape policy repeat max_trial self →
  (CUDAScheduleGenerator.get tape policy repeat max_trial self).1
    = Ok (CUDAScheduleGenerator.RetEntry e) ∧
  ∀ e', e' ∈ CUDAScheduleGenerator.entries self →
        (CUDAScheduleGenerator.value e' <= CUDAScheduleGenerator.value e)%R.
Proof.
  intros He Hh Hno. split.
  - rewrite get_exhausted by done. simpl.
    unfold CUDAScheduleGenerator.fallback. by rewrite He.
  - apply heap_root_best; [done|]. by rewrite He.
Qed.

Lemma get_exhausted_returns_best_witness :
  (CUDAScheduleGenerator.get (constant_tape wide_record) "random" false 100
     fed_generator).1 = Ok (CUDAScheduleGenerator.RetEntry entry_hi) ∧
  ∀ e', e' ∈ CUDAScheduleGenerator.entries fed_generator →
        (CUDAScheduleGenerator.value e' <= CUDAScheduleGenerator.value entry_hi)%R.
Proof.
  apply (get_exhausted_returns_best (constant_tape wide_record) "random"%string
           false 100%nat fed_generator entry_hi [entry_lo]).
  - reflexivity.
  - apply is_heap_fed.
  - intros i Hi. exists wide_record. split; [reflexivity|]. right. reflexivity.
Defined.

(** C1 as stated fails on an empty archive: every one of the 100 attempts
    generates [wide_record], which [valid] rejects, and [get] then raises
    [IndexError] instead of returning the first generated candidate. *)
Lemma get_exhausted_empty_archive_raises :
  no_candidate_found (constant_tape wide_record) "random" false 100
    fresh_generator ∧
  (CUDAScheduleGenerator.get (constant_tape wide_record) "random" false 100
     fresh_generator).1 = Raise IndexError.
Proof.
  split.
  - intros i Hi. exists wide_record. split; [reflexivity|]. right. reflexivity.
  - reflexivity.
Qed.

(** C10, amended: with an empty archive, every attempt of [get] with policy
    ["q"] assembles its candidate from the random draws alone, as policy
    ["random"] does (no greedy coin, no [sa_select_entry]), and the whole
    call behaves as the call with policy ["random"]: it returns the first
    drawn record that the duplicate guard and [valid] accept, and raises what
    [valid] raises on a record behind the guard.  The archive is still read
    when all [max_trial] attempts are rejected: [self.entries[0]] then raises
    [IndexError]. *)
Theorem q_policy_empty_archive_is_random tape repeat max_trial self :
  CUDAScheduleGenerator.entries self = [] →
  (∀ d, CUDAScheduleGenerator.assemble self "q" d
          = Ok (CUDAScheduleGenerator.Candidate
                  (CUDAScheduleGenerator.random_record d)) ∧
        CUDAScheduleGenerator.assemble self "q" d
          = CUDAScheduleGenerator.assemble self "random" d) ∧
  CUDAScheduleGenerator.get tape "q" repeat max_trial self
    = CUDAScheduleGenerator.get tape "random" repeat max_trial self ∧
  (∀ k, (k < max_trial)%nat →
     (∀ j, (j < k)%nat →
        attempt_rejected repeat self
          (CUDAScheduleGenerator.random_record
             (tape (CUDAScheduleGenerator.trial_no self + j)%nat))) →
     let r := CUDAScheduleGenerator.random_record
                (tape (CUDAScheduleGenerator.trial_no self + k)%nat) in
     (attempt_accepted repeat self r →
      CUDAScheduleGenerator.get tape "q" repeat max_trial self
        = (Ok (CUDAScheduleGenerator.RetRecord r),
           CUDAScheduleGenerator.add_visited (after_trials self (S k))
             (Params_str r))) ∧
     (∀ e, attempt_fails repeat self r e →
      CUDAScheduleGenerator.get tape "q" repeat max_trial self
        = (Raise e, after_trials self (S k)))) ∧
  ((∀ j, (j < max_trial)%nat →
      attempt_rejected repeat self
        (CUDAScheduleGenerator.random_record
           (tape (CUDAScheduleGenerator.trial_no self + j)%nat))) →
   CUDAScheduleGenerator.get tape "q" repeat max_trial self
     = (Raise IndexError, after_trials self max_trial)).
Proof.
  intros He. split; [|split; [|split]].
  - intros d. by rewrite assemble_random, assemble_empty_archive.
  - by apply get_empty_archive.
  - intros k Hk Hrej r. split.
    + intros Hacc. apply get_first_accepted; [done| | |done].
      * by apply no_candidate_empty_archive.
      * by apply assemble_empty_archive.
    + intros e Hfail. eapply get_first_fails; [done| | |done].
      * by apply no_candidate_empty_archive.
      * by apply assemble_empty_archive.
  - intros Hrej. rewrite get_exhausted.
    + unfold CUDAScheduleGenerator.fallback. by rewrite He.
    + by apply no_candidate_empty_archive.
Qed.

Lemma q_policy_empty_archive_is_random_witness :
  CUDAScheduleGenerator.assemble fresh_generator "q"
    (constant_tape sample_record 0%nat)
    = Ok (CUDAScheduleGenerator.Candidate sample_record) ∧
  CUDAScheduleGenerator.get (constant_tape sample_record) "q" false 100
    fresh_generator
  = CUDAScheduleGenerator.get (constant_tape sample_record) "random" false 100
      fresh_generator ∧
  CUDAScheduleGenerator.get (constant_tape sample_record) "q" false 100
    fresh_generator
  = (Ok (CUDAScheduleGenerator.RetRecord sample_record),
     CUDAScheduleGenerator.add_visited (after_trials fresh_generator 1)
       (Params_str sample_record)) ∧
  CUDAScheduleGenerator.get (constant_tape wide_record) "q" false 100
    fresh_generator
  = (Raise IndexError, after_trials fresh_generator 100).
Proof.
  destruct (q_policy_empty_archive_is_random (constant_tape sample_record)
              false 100%nat fresh_generator) as (Ha & Hg & Hk & _);
    [reflexivity|].
  destruct (q_policy_empty_archive_is_random (constant_tape wide_record)
              false 100%nat fresh_generator) as (_ & _ & _ & Hx);
    [reflexivity|].
  split; [apply (Ha (constant_tape sample_record 0%nat))|].
  split; [exact Hg|]. split.
  - apply (Hk 0%nat); [lia|intros j Hj; lia|].
    split; [right; apply not_elem_of_empty|reflexivity].
  - apply Hx. intros j Hj. right. reflexivity.
Defined.

(** C10 as stated fails when no attempt succeeds: with policy ["q"] on an
    empty archive, every one of the 100 attempts draws [wide_record], which
    [valid] rejects, and the call ends by reading [self.entries[0]], which
    raises [IndexError] for the missing archive. *)
Lemma q_policy_empty_archive_raises :
  CUDAScheduleGenerator.entries fresh_generator = [] ∧
  (∀ i, CUDAScheduleGenerator.valid
          (CUDAScheduleGenerator.random_record (constant_tape wide_record i))
        = Ok false) ∧
  (CUDAScheduleGenerator.get (constant_tape wide_record) "q" false 100
     fresh_generator).1 = Raise IndexError.
Proof.
  split; [reflexivity|]. split; [intros i; reflexivity|reflexivity].
Qed.

(** C9, amended: when every draw assembles the same valid, not yet visited
    record, the first [get(policy="random", repeat=False)] returns it; the
    second call rejects every attempt as a duplicate and returns the root of
    the archive when the archive is not empty; with [repeat=True] the second
    call returns the record again. *)
Theorem singleton_space_get_twice tape r0 self n m :
  (∀ i, CUDAScheduleGenerator.random_record (tape i) = r0) →
  CUDAScheduleGenerator.valid r0 = Ok true →
  Params_str r0 ∉ CUDAScheduleGenerator.visited self →
  (CUDAScheduleGenerator.get tape "random" false (S n) self).1
    = Ok (CUDAScheduleGenerator.RetRecord r0) ∧
  (∀ e rest, CUDAScheduleGenerator.entries self = e :: rest →
     (CUDAScheduleGenerator.get tape "random" false m
        (CUDAScheduleGenerator.get tape "random" false (S n) self).2).1
       = Ok (CUDAScheduleGenerator.RetEntry e)) ∧
  (CUDAScheduleGenerator.get tape "random" true (S m)
     (CUDAScheduleGenerator.get tape "random" false (S n) self).2).1
    = Ok (CUDAScheduleGenerator.RetRecord r0).
Proof.
  intros Htape Hv Hnew.
  assert (CUDAScheduleGenerator.get tape "random" false (S n) self
          = (Ok (CUDAScheduleGenerator.RetRecord r0),
             CUDAScheduleGenerator.add_visited
               (CUDAScheduleGenerator.next_trial self) (Params_str r0))) as H1.
  { simpl. rewrite (trial_accepts _ _ _ _ r0); auto.
    by rewrite assemble_random, Htape. }
  rewrite H1. simpl. split; [done|]. split.
  - intros e rest He. rewrite get_exhausted.
    + simpl. unfold CUDAScheduleGenerator.fallback. simpl. by rewrite He.
    + intros i Hi. exists r0. split.
      * by rewrite assemble_random, Htape.
      * left. split; [done|]. simpl. set_solver.
  - rewrite (trial_accepts _ _ _ _ r0); auto.
    by rewrite assemble_random, Htape.
Qed.

Lemma singleton_space_get_twice_witness :
  (CUDAScheduleGenerator.get (constant_tape sample_record) "random" false 100
     fed_generator).1 = Ok (CUDAScheduleGenerator.RetRecord sample_record) ∧
  (CUDAScheduleGenerator.get (constant_tape sample_record) "random" false 100
     (CUDAScheduleGenerator.get (constant_tape sample_record) "random" false
        100 fed_generator).2).1
    = Ok (CUDAScheduleGenerator.RetEntry entry_hi) ∧
  (CUDAScheduleGenerator.get (constant_tape sample_record) "random" true 100
     (CUDAScheduleGenerator.get (constant_tape sample_record) "random" false
        100 fed_generator).2).1
    = Ok (CUDAScheduleGenerator.RetRecord sample_record).
Proof.
  destruct (singleton_space_get_twice (constant_tape sample_record)
              sample_record fed_generator 99 100) as (H1 & H2 & H3).
  - reflexivity.
  - reflexivity.
  - simpl. set_solver.
  - split; [exact H1|]. split; [|exact H3].
    apply (H2 entry_hi [entry_lo]). reflexivity.
Defined.

(** C9 as stated fails: from a fresh generator whose draws all assemble
    [sample_record], the first call returns it and the second call, after
    100 duplicates, raises [IndexError]. *)
Lemma singleton_space_second_get_raises :
  (CUDAScheduleGenerator.get (constant_tape sample_record) "random" false 100
     fresh_generator).1 = Ok (CUDAScheduleGenerator.RetRecord sample_record) ∧
  (CUDAScheduleGenerator.get (constant_tape sample_record) "random" false 100
     (CUDAScheduleGenerator.get (constant_tape sample_record) "random" false
        100 fresh_generator).2).1 = Raise IndexError.
Proof. split; reflexivity. Qed.

(** ** Exploitation sampling *)

Section Sampling.
Import CUDAScheduleGenerator.

Lemma entry_lt_hi_lo : entry_lt entry_hi entry_lo = true.
Proof. unfold entry_lt. simpl. destruct (Rgt_dec 2 1); [done | lra]. Qed.

Lemma nlargest_fed : nlargest 2 [entry_hi; entry_lo] = [entry_lo; entry_hi].
Proof. unfold nlargest, sorted_desc. simpl. by rewrite entry_lt_hi_lo. Qed.

Lemma sa_accepts : ((/ 10) < calculate_p (value entry_hi) (value entry_lo))%R.
Proof.
  unfold calculate_p. simpl.
  pose proof (exp_ineq1_le ((2 - 1) / 2 * (1 + / 100000))%R). lra.
Qed.

(** An accepted sample at iteration [i] makes the loop return [cand[i]]. *)
Lemma sa_loop_accept cand ps samples n i p :
  list_getitem ps ((samples i).1 `mod` Z.of_nat (length cand)) = Ok p →
  ((samples i).2 < p)%R →
  sa_loop cand ps samples (S n) i = list_getitem cand (Z.of_nat i).
Proof.
  intros Hp Hlt. simpl. rewrite Hp. cbn.
  destruct (Rlt_dec _ p); [done | contradiction].
Qed.
(** The loop returns the candidate at the index of the first iteration
    that accepts its sample, whichever candidate was sampled. *)
Lemma sa_loop_first_accept cand ps samples : ∀ k n i p,
  (k < n)%nat →
  (∀ j, (j < k)%nat → ∃ q,
     list_getitem ps ((samples (i + j)%nat).1 `mod` Z.of_nat (length cand)) = Ok q ∧
     ¬ ((samples (i + j)%nat).2 < q)%R) →
  list_getitem ps ((samples (i + k)%nat).1 `mod` Z.of_nat (length cand)) = Ok p →
  ((samples (i + k)%nat).2 < p)%R →
  sa_loop cand ps samples n i = list_getitem cand (Z.of_nat (i + k)).
Proof.
  induction k as [|k IH]; intros n i p Hk Hrej Hp Hlt.
  - destruct n as [|n]; [lia|]. rewrite Nat.add_0_r in *.
    by eapply sa_loop_accept.
  - destruct n as [|n]; [lia|].
    destruct (Hrej 0%nat) as (q & Hq & Hnot); [lia|].
    rewrite Nat.add_0_r in Hq, Hnot. cbn [sa_loop]. rewrite Hq. cbn.
    destruct (Rlt_dec _ q); [contradiction|].
    replace (i + S k)%nat with (S i + k)%nat in * by lia.
    apply (IH n (S i) p); [lia| |done|done].
    intros j Hj. destruct (Hrej (S j)) as (q' & Hq' & Hnot'); [lia|].
    replace (i + S j)%nat with (S i + j)%nat in * by lia. eauto.
Qed.
End Sampling.

(** C2, the code at a failing input: with the archive [[entry_hi; entry_lo]]
    the candidates are [[entry_lo; entry_hi]]; the first iteration samples
    index 1, that is [entry_hi], and accepts it (0.1 is below its weight),
    yet [sa_select_entry] returns [entry_lo], the candidate at the loop
    index 0. *)
Theorem sa_select_entry_returns_loop_index :
  CUDAScheduleGenerator.nlargest 2 (CUDAScheduleGenerator.entries fed_generator)
    = [entry_lo; entry_hi] ∧
  list_getitem [entry_lo; entry_hi] ((sa_tape 0%nat).1 `mod` 2) = Ok entry_hi ∧
  ((sa_tape 0%nat).2 < CUDAScheduleGenerator.calculate_p
                         (CUDAScheduleGenerator.value entry_hi)
                         (CUDAScheduleGenerator.value entry_lo))%R ∧
  CUDAScheduleGenerator.sa_select_entry fed_generator sa_tape 20 = Ok entry_lo ∧
  entry_lo ≠ entry_hi.
Proof.
  split; [apply nlargest_fed|]. split; [reflexivity|]. split; [apply sa_accepts|].
  split.
  - unfold CUDAScheduleGenerator.sa_select_entry.
    change (CUDAScheduleGenerator.entries fed_generator) with [entry_hi; entry_lo].
    change (Nat.min 20 (length [entry_hi; entry_lo])) with 2%nat.
    rewrite nlargest_fed.
    change (CUDAScheduleGenerator.sa_loop [entry_lo; entry_hi]
              [CUDAScheduleGenerator.calculate_p
                 (CUDAScheduleGenerator.value entry_lo)
                 (CUDAScheduleGenerator.value entry_lo);
               CUDAScheduleGenerator.calculate_p
                 (CUDAScheduleGenerator.value entry_hi)
                 (CUDAScheduleGenerator.value entry_lo)] sa_tape 20 0
            = Ok entry_lo).
    rewrite (sa_loop_accept _ _ _ _ _
               (CUDAScheduleGenerator.calculate_p
                  (CUDAScheduleGenerator.value entry_hi)
                  (CUDAScheduleGenerator.value entry_lo)));
      [reflexivity | reflexivity | apply sa_accepts].
  - intros H. inversion H.
Qed.

(** ** The schedule applier *)

(** C4: [apply] begins by storing [params] and resetting the state to the
    empty state, so its outcome (the schedule returned, or the exception, and
    the state and parameters left behind) does not depend on what an earlier
    call left in [self.state] and [self.params]: on the same schedule, graph,
    recipe stage and [params], two calls give the same schedule. *)
Theorem apply_deterministic self params X sch0 st1 pr1 st2 pr2 :
  (_ ← CUDAScheduleApplier.initialize_parameters params;
   _ ← CUDAScheduleApplier.check_parameter_ready;
   CUDAScheduleApplier.initialize_state)
    (CUDAScheduleApplier.mkMem st1 pr1 sch0)
    = (Ok tt, CUDAScheduleApplier.mkMem empty_state params sch0) ∧
  CUDAScheduleApplier.apply self params X (CUDAScheduleApplier.mkMem st1 pr1 sch0)
    = CUDAScheduleApplier.apply self params X
        (CUDAScheduleApplier.mkMem st2 pr2 sch0).
Proof. split; reflexivity. Qed.

(** ** [auto_schedule] *)

Section AutoSchedule.
Local Arguments reduce_check : simpl never.

Lemma foldl_last {A} (l : list A) (acc : option A) :
  foldl (fun _ x => Some x) acc l = from_option Some acc (last l).
Proof.
  induction l as [|x l IH] using rev_ind; [done|].
  by rewrite foldl_app, last_snoc.
Qed.

Lemma target_main_op_last (inp : MatchInput) :
  foldl (fun _ kv => Some kv.2) None (main_op_map inp)
    = last (main_op_map inp).*2.
Proof.
  induction (main_op_map inp) as [|kv l IH] using rev_ind; [done|].
  rewrite foldl_app, fmap_app. simpl. by rewrite last_snoc.
Qed.

Lemma reduce_check_raise main ops e :
  foldl (reduce_check main) (Raise e) ops = Raise e.
Proof. induction ops; simpl; auto. Qed.

Lemma len_op_reduce_axis op : len (op_reduce_axis op) = Z.of_nat (n_reduce_axis op).
Proof. unfold len, op_reduce_axis. by rewrite length_fmap, length_seq. Qed.

Lemma reduce_check_placeholder main op :
  is_compute op = false → reduce_check main (Ok tt) op = Raise AttributeError.
Proof. intros H. unfold reduce_check, getattr_reduce_axis. by rewrite H. Qed.

Lemma reduce_check_compute main op :
  is_compute op = true →
  reduce_check main (Ok tt) op =
  if (0 <? n_reduce_axis op)%nat && negb (op_eq op main)
  then Raise (RuntimeError
         "We do not support scheduling for reduce op which is not main op.")
  else Ok tt.
Proof.
  intros H. unfold reduce_check, getattr_reduce_axis. rewrite H. cbn.
  rewrite len_op_reduce_axis.
  by destruct (n_reduce_axis op).
Qed.

(** When the Main operation is the only compute operation with a reduce
    axis, the loop ends normally on a graph of compute operations, and stops
    at the first placeholder otherwise. *)
Lemma reduce_check_ok main ops :
  (∀ op, op ∈ ops → is_compute op = true → (0 < n_reduce_axis op)%nat →
         handle op = handle main) →
  foldl (reduce_check main) (Ok tt) ops
    = if forallb is_compute ops then Ok tt else Raise AttributeError.
Proof.
  induction ops as [|op ops IH]; intros H; simpl; [done|].
  destruct (is_compute op) eqn:Ec; simpl.
  - rewrite reduce_check_compute by done.
    destruct (0 <? n_reduce_axis op)%nat eqn:E; simpl.
    + unfold op_eq. rewrite bool_decide_eq_true_2.
      * simpl. apply IH. intros. apply H; [by right|done|done].
      * apply H; [by left|done|]. by apply Nat.ltb_lt.
    + apply IH. intros. apply H; [by right|done|done].
  - rewrite reduce_check_placeholder by done. apply reduce_check_raise.
Qed.

(** A compute operation with a reduce axis that is not the Main operation
    stops the loop, unless a placeholder stops it before. *)
Lemma reduce_check_fail main ops op :
  op ∈ ops → is_compute op = true → (0 < n_reduce_axis op)%nat →
  handle op ≠ handle main →
  ∃ e, foldl (reduce_check main) (Ok tt) ops = Raise e ∧
       (e = RuntimeError
              "We do not support scheduling for reduce op which is not main op." ∨
        e = AttributeError) ∧
       (forallb is_compute ops = true →
        e = RuntimeError
              "We do not support scheduling for reduce op which is not main op.").
Proof.
  induction ops as [|op' ops IH]; intros Hin Hc Hr Hne.
  - by apply elem_of_nil in Hin.
  - cbn [foldl forallb].
    destruct (is_compute op') eqn:Ec.
    + rewrite reduce_check_compute by done. cbn [andb].
      destruct ((0 <? n_reduce_axis op')%nat && negb (op_eq op' main)) eqn:E.
      * rewrite reduce_check_raise. eexists. split; [done|]. split; [by left|done].
      * apply elem_of_cons in Hin as [->|Hin]; [|by apply IH].
        exfalso. apply andb_false_iff in E as [E|E].
        -- apply Nat.ltb_ge in E. lia.
        -- apply negb_false_iff in E. unfold op_eq in E.
           by apply bool_decide_eq_true_1 in E.
    + rewrite reduce_check_placeholder by done. rewrite reduce_check_raise.
      eexists. split; [done|]. split; [by right|done].
Qed.
End AutoSchedule.

(** C8: [auto_schedule] raises whenever the target is not ["cuda"], and
    whenever the graph holds a reduction-bearing operation (a compute
    operation with a reduce axis) other than the Main operation (the last
    value of [main_op_map]); when the Main operation is the only
    reduction-bearing operation and the target is ["cuda"], it raises
    neither of these errors: it returns on a graph of compute operations.
    The loop reads [op.reduce_axis] of every operation, so on a graph that
    holds a placeholder the call ends with [AttributeError] instead, unless
    the error for a second reduction comes first. *)
Theorem auto_schedule_errors inp :
  (recipe_target inp ≠ "cuda"%string →
     (∃ e, auto_schedule inp = Raise e) ∧
     (∀ main, last (main_op_map inp).*2 = Some main →
        forallb is_compute (op_lst (transform_dag inp)) = true →
        (∀ op, op ∈ op_lst (transform_dag inp) → is_compute op = true →
               (0 < n_reduce_axis op)%nat → handle op = handle main) →
        auto_schedule inp
          = Raise (RuntimeError ("Target not supported: " +:+ recipe_target inp)))) ∧
  (∀ op, op ∈ op_lst (transform_dag inp) → is_compute op = true →
     (0 < n_reduce_axis op)%nat →
     (∀ main, last (main_op_map inp).*2 = Some main → handle op ≠ handle main) →
     ∃ e, auto_schedule inp = Raise e ∧
          (is_Some (last (main_op_map inp).*2) →
           (e = RuntimeError
                  "We do not support scheduling for reduce op which is not main op." ∨
            e = AttributeError) ∧
           (forallb is_compute (op_lst (transform_dag inp)) = true →
            e = RuntimeError
                  "We do not support scheduling for reduce op which is not main op."))) ∧
  (∀ main, last (main_op_map inp).*2 = Some main →
     recipe_target inp = "cuda"%string →
     (∀ op, op ∈ op_lst (transform_dag inp) → is_compute op = true →
            (0 < n_reduce_axis op)%nat → handle op = handle main) →
     auto_schedule inp
       = if forallb is_compute (op_lst (transform_dag inp)) then Ok tt
         else Raise AttributeError).
Proof.
  unfold auto_schedule. rewrite target_main_op_last.
  split; [|split].
  - intros Ht. split.
    + destruct (last _) as [main|]; [|by eexists].
      destruct (foldl _ _ _) as [[]|e]; cbn; [|by eexists].
      rewrite bool_decide_eq_false_2 by done. by eexists.
    + intros main -> Hc Hall. rewrite reduce_check_ok, Hc by done. cbn.
      by rewrite bool_decide_eq_false_2.
  - intros op Hin Hc Hr Hne. destruct (last _) as [main|].
    + destruct (reduce_check_fail main _ op Hin Hc Hr) as (e & -> & Hor & Hrt);
        [by apply Hne|].
      exists e. cbn. done.
    + eexists. split; [done|]. by intros [? ?].
  - intros main -> Ht Hall. rewrite reduce_check_ok by done.
    destruct (forallb _ _); cbn; [|done].
    by rewrite bool_decide_eq_true_2.
Qed.

Lemma auto_schedule_errors_witness :
  auto_schedule (mkMatchInput "rocm" [(7%nat, op_rowsum)] rowsum_dag)
    = Raise (RuntimeError "Target not supported: rocm") ∧
  auto_schedule (mkMatchInput "cuda" [(7%nat, op_rowsum)] rowsum_total_dag)
    = Raise (RuntimeError
               "We do not support scheduling for reduce op which is not main op.") ∧
  auto_schedule (mkMatchInput "cuda" [(7%nat, op_rowsum)] rowsum_dag) = Ok tt ∧
  auto_schedule (mkMatchInput "cuda" [(7%nat, op_gemm)] gemm_dag)
    = Raise AttributeError.
Proof.
  split; [|split; [|split]].
  - destruct (auto_schedule_errors
                (mkMatchInput "rocm" [(7%nat, op_rowsum)] rowsum_dag))
      as (H & _ & _).
    destruct H as [_ H]; [simpl; discriminate|].
    apply (H op_rowsum); [reflexivity|reflexivity|].
    simpl. intros op Hin Hc Hr.
    repeat (apply elem_of_cons in Hin as [->|Hin]); simpl in *;
      try lia; try done. by apply elem_of_nil in Hin.
  - destruct (auto_schedule_errors
                (mkMatchInput "cuda" [(7%nat, op_rowsum)] rowsum_total_dag))
      as (_ & H & _).
    destruct (H op_total) as (e & He & Hmsg).
    + simpl. do 3 right. left.
    + reflexivity.
    + simpl. lia.
    + simpl. intros main [= <-]. simpl. lia.
    + rewrite He. f_equal. apply Hmsg; [by eexists|reflexivity].
  - apply (auto_schedule_errors
             (mkMatchInput "cuda" [(7%nat, op_rowsum)] rowsum_dag)
             ) with (main := op_rowsum).
    + reflexivity.
    + reflexivity.
    + simpl. intros op Hin Hc Hr.
      repeat (apply elem_of_cons in Hin as [->|Hin]); simpl in *;
        try lia; try done. by apply elem_of_nil in Hin.
  - apply (auto_schedule_errors (mkMatchInput "cuda" [(7%nat, op_gemm)] gemm_dag)
             ) with (main := op_gemm).
    + reflexivity.
    + reflexivity.
    + simpl. intros op Hin Hc Hr.
      repeat (apply elem_of_cons in Hin as [->|Hin]); simpl in *;
        try lia; try done. by apply elem_of_nil in Hin.
Defined.

(** ** Tiling of the Main operation *)

Section Tiling.
Import CUDAScheduleApplier.

Lemma run_bind {A B} (c : M A) (f : A → M B) m a m' :
  c m = (Ok a, m') → (c ≫= f) m = f a m'.
Proof. intros H. unfold mbind, M_bind. by rewrite H. Qed.

Lemma run_lift {A} (r : result A) m : lift r m = (r, m).
Proof. reflexivity. Qed.

Lemma list_getitem_from_end {A} (pre suf : list A) x :
  list_getitem (pre ++ x :: suf) (- Z.of_nat (S (length suf))) = Ok x.
Proof.
  unfold list_getitem.
  rewrite length_app. simpl length.
  replace (Z.of_nat (length pre + S (length suf)) + - Z.of_nat (S (length suf)))
    with (Z.of_nat (length pre)) by lia.
  destruct (Z.ltb_spec (- Z.of_nat (S (length suf))) 0); [|lia].
  destruct (Z.ltb_spec (Z.of_nat (length pre)) 0); [lia|].
  rewrite Nat2Z.id.
  by rewrite lookup_app_r, Nat.sub_diag by lia.
Qed.

Lemma partition_reduce_axis_from (reserve : list Z) (s : Stage) n : ∀ a r sp,
  foldl (fun '(reserve_axis, split_axis) '(i, iv) =>
           if bool_decide (i ∈ reserve) then (reserve_axis ++ [iv], split_axis)
           else (reserve_axis, split_axis ++ [iv]))
        (r, sp) (zip (Z.of_nat <$> seq a n) (ReduceAxis s <$> seq a n))
  = (r ++ (ReduceAxis s <$> filter (fun i => Z.of_nat i ∈ reserve) (seq a n)),
     sp ++ (ReduceAxis s <$> filter (fun i => Z.of_nat i ∉ reserve) (seq a n))).
Proof.
  induction n as [|n IH]; intros a r sp; simpl.
  - by rewrite !app_nil_r.
  - rewrite !filter_cons. case_bool_decide as Hin.
    + rewrite IH. rewrite decide_True by done. rewrite decide_False by tauto.
      simpl. by rewrite <- app_assoc.
    + rewrite IH. rewrite decide_False by done. rewrite decide_True by done.
      simpl. by rewrite <- app_assoc.
Qed.

Lemma partition_reduce_axis_spec reserve op :
  partition_reduce_axis reserve (op_reduce_axis op)
  = (reserved_reduce_axes reserve op, tileable_reduce_axes reserve op).
Proof.
  unfold partition_reduce_axis, enumerate, op_reduce_axis.
  rewrite length_fmap, length_seq.
  apply (partition_reduce_axis_from reserve _ _ 0%nat [] []).
Qed.

Lemma three_way_factor_lists cs fs :
  Forall2 three_way_choice cs fs →
  ∃ vs, mapM (fun x => py_getitem x 0) cs = Ok vs ∧
        Forall2 (fun v f => py_iter v = Ok [f.1.1; f.1.2; f.2]) vs fs.
Proof.
  induction 1 as [|c f cs fs (v & Hv & Hit) _ (vs & Hvs & Hall)].
  - by exists [].
  - exists (v :: vs). split; [|by constructor].
    change (mapM (fun x => py_getitem x 0) (c :: cs))
      with (y ← py_getitem c 0; k ← mapM (fun x => py_getitem x 0) cs;
            mret (y :: k)).
    by rewrite Hv, Hvs.
Qed.

Lemma py_slice_to_length {A} (l : list A) (n : nat) :
  n = length l → py_slice l None (Some (Z.of_nat n)) = l.
Proof.
  intros ->. unfold py_slice, slice_bound. simpl.
  destruct (Z.ltb_spec (Z.of_nat (length l)) 0); [lia|].
  by rewrite Nat2Z.id, Nat.min_id, take_ge by lia.
Qed.

Lemma py_slice_to_neg {A} (l : list A) (k : nat) :
  (0 < k ≤ length l)%nat →
  py_slice l None (Some (- Z.of_nat k)) = take (length l - k) l.
Proof.
  intros Hk. unfold py_slice, slice_bound. simpl.
  destruct (Z.ltb_spec (- Z.of_nat k) 0); [|lia].
  replace (Z.to_nat (0 `max` (Z.of_nat (length l) + - Z.of_nat k)))%Z
    with (length l - k)%nat by lia.
  done.
Qed.

Lemma py_slice_from_neg {A} (l : list A) (k : nat) :
  (0 < k ≤ length l)%nat →
  py_slice l (Some (- Z.of_nat k)) None = drop (length l - k) l.
Proof.
  intros Hk. unfold py_slice, slice_bound. simpl.
  destruct (Z.ltb_spec (- Z.of_nat k) 0); [|lia].
  replace (Z.to_nat (0 `max` (Z.of_nat (length l) + - Z.of_nat k)))%Z
    with (length l - k)%nat by lia.
  by rewrite take_ge by lia.
Qed.

Lemma first_factors_all factors cs vs msg :
  py_iter factors = Ok cs →
  mapM (fun x => py_getitem x 0) cs = Ok vs →
  first_factors factors (len cs) msg = Ok vs.
Proof.
  intros Hit Hvs. unfold first_factors, py_len. rewrite Hit.
  cbn [mbind result_bind]. unfold len. rewrite Z.leb_refl.
  cbn [py_assert mbind result_bind].
  destruct factors as [| |l|l]; try discriminate;
    inversion Hit; subst; cbn [py_getslice mbind result_bind];
    by rewrite py_slice_to_length.
Qed.

Lemma split_parts_three_way s iv v f0 f1 f2 m :
  py_iter v = Ok [f0; f1; f2] →
  ∃ log, split_parts s iv v m
         = (Ok (tile_part (iv, (f0, f1, f2))),
            mkMem (state m) (params m) (sch m ++ log)).
Proof.
  intros Hv.
  exists [SchSplit s iv f2; SchSplit s (SplitOuter iv f2) f1].
  destruct m as [st pr sc].
  destruct v as [| |l|l]; try discriminate; inversion Hv; subst;
    unfold split_parts, split, emit, lift, mbind, M_bind, mret, M_ret; simpl;
    unfold mbind, M_bind, mret, M_ret; simpl;
    by rewrite <- !app_assoc.
Qed.

Lemma mapM_split_parts s vs fs :
  Forall2 (fun v f => py_iter v = Ok [f.1.1; f.1.2; f.2]) vs fs →
  ∀ ivs m,
  ∃ log, mapM (fun '(iv, factors) => split_parts s iv factors) (zip ivs vs) m
         = (Ok (tile_part <$> zip ivs fs),
            mkMem (state m) (params m) (sch m ++ log)).
Proof.
  induction 1 as [|v [[f0 f1] f2] vs fs Hv _ IH]; intros ivs m.
  - exists []. destruct m, ivs; cbn; by rewrite app_nil_r.
  - destruct ivs as [|iv ivs].
    + exists []. destruct m. cbn. by rewrite app_nil_r.
    + destruct (split_parts_three_way s iv v f0 f1 f2 m Hv) as [log1 H1].
      destruct (IH ivs (mkMem (state m) (params m) (sch m ++ log1)))
        as [log2 H2].
      exists (log1 ++ log2).
      change (mapM (fun '(iv, factors) => split_parts s iv factors)
                (zip (iv :: ivs) (v :: vs)))
        with (y ← split_parts s iv v;
              k ← mapM (fun '(iv, factors) => split_parts s iv factors)
                    (zip ivs vs);
              mret (y :: k)).
      erewrite run_bind by exact H1.
      erewrite run_bind by exact H2.
      cbn. by rewrite <- app_assoc.
Qed.

Lemma mapM_lookup_tile_part (l : list (IterVar * (pyval * pyval * pyval))) :
  mapM (fun p : list IterVar => p !! 0%nat) (tile_part <$> l) = Some (tile_level0 <$> l) ∧
  mapM (fun p : list IterVar => p !! 1%nat) (tile_part <$> l) = Some (tile_level1 <$> l) ∧
  mapM (fun p : list IterVar => p !! 2%nat) (tile_part <$> l) = Some (tile_level2 <$> l).
Proof.
  induction l as [|t l (IH0 & IH1 & IH2)]; [done|].
  cbn. cbn in IH0, IH1, IH2. by rewrite IH0, IH1, IH2.
Qed.

Lemma min_len_tile_part (l : list (IterVar * (pyval * pyval * pyval))) n :
  (3 ≤ n)%nat →
  foldr (fun (p : list IterVar) m => Nat.min (length p) m) n (tile_part <$> l)
  = match l with [] => n | _ => 3%nat end.
Proof.
  intros Hn. induction l as [|t l IH]; [done|].
  rewrite fmap_cons. cbn [foldr]. rewrite IH. simpl length. destruct l; lia.
Qed.

Lemma zip_star_tile_part (l : list (IterVar * (pyval * pyval * pyval))) :
  l ≠ [] →
  zip_star (tile_part <$> l)
  = [tile_level0 <$> l; tile_level1 <$> l; tile_level2 <$> l].
Proof.
  intros Hl. destruct l as [|t l]; [done|].
  unfold zip_star.
  change ((tile_part <$> t :: l)) with (tile_part t :: (tile_part <$> l)).
  cbv iota. 
  change (tile_part t :: (tile_part <$> l)) with (tile_part <$> t :: l).
  rewrite min_len_tile_part by (simpl; lia).
  destruct (mapM_lookup_tile_part (t :: l)) as (H0 & H1 & H2).
  cbn [seq omap list_omap]. by rewrite H0, H1, H2.
Qed.

Lemma third_innermost_last_axis m front mid pos inner2 inner1 :
  output_op_axis (state m) = front ++ [mid ++ [pos]; inner2; inner1] →
  get_output_op_third_innermost_last_axis m = (Ok pos, m).
Proof.
  intros H. unfold get_output_op_third_innermost_last_axis.
  erewrite run_bind by reflexivity. rewrite H.
  assert ((2 <? len (front ++ [mid ++ [pos]; inner2; inner1])) = true) as ->.
  { apply Z.ltb_lt. unfold len. rewrite length_app. simpl. lia. }
  erewrite run_bind by reflexivity.
  erewrite run_bind.
  2:{ rewrite run_lift. f_equal.
      apply (list_getitem_from_end front [inner2; inner1] (mid ++ [pos])). }
  assert ((0 <? len (mid ++ [pos])) = true) as ->.
  { apply Z.ltb_lt. unfold len. rewrite length_app. simpl. lia. }
  erewrite run_bind by reflexivity.
  rewrite run_lift. f_equal.
  apply (list_getitem_from_end mid [] pos).
Qed.

Lemma length_op_axis op : length (op_axis op) = n_axis op.
Proof. unfold op_axis. by rewrite length_fmap, length_seq. Qed.

(** C7, amended: [tiling] on the Main operation with 3-way reduction splits
    reorders the loop axes to the outer two reduction-tile levels, the outer
    spatial block, the third reduction-tile level, the reserved spatial axes
    and the reserved reduction axes, in this order; and the recorded
    tensorize axis is the outermost of the reserved axes, the first reserved
    spatial axis. *)
Theorem tiling_main_order (self : t) op_id op X m rs cs fs
    front mid pos inner2 inner1 :
  let reserve := main_op_reserve_reduce_axis (recipe_stage self) in
  let tiles := zip (tileable_reduce_axes reserve (X op)) fs in
  let outer := take (n_axis (X op) - rs) (op_axis (X op)) in
  let reserved := drop (n_axis (X op) - rs) (op_axis (X op)) in
  let s := StageOf (handle (X op)) in
  op_eq op (main_op self) = true →
  reserve_inner_axis_count (recipe_stage self) !! handle op = Some (Z.of_nat rs) →
  (0 < rs ≤ n_axis (X op))%nat →
  output_op_axis (state m) = front ++ [mid ++ [pos]; inner2; inner1] →
  py_iter (reduce_factors (params m)) = Ok cs →
  Forall2 three_way_choice cs fs →
  length fs = length (tileable_reduce_axes reserve (X op)) →
  fs ≠ [] →
  ∃ m', tiling self op_id op X m = (Ok tt, m') ∧
    last (sch m') = Some (SchReorder s
      ((tile_level0 <$> tiles) ++ (tile_level1 <$> tiles) ++ outer ++
       (tile_level2 <$> tiles) ++ reserved ++
       reserved_reduce_axes reserve (X op))) ∧
    main_op_reduce_axis (state m')
      = [tile_level0 <$> tiles; tile_level1 <$> tiles; tile_level2 <$> tiles;
         reserved_reduce_axes reserve (X op)] ∧
    tensorize_iter (state m') !! handle op = head reserved ∧
    head reserved = Some (Axis s (n_axis (X op) - rs)).
Proof.
  intros reserve tiles outer reserved s Hmain Hrs Hrange Hout Hrf Hcs Hlen Hne.
  destruct (three_way_factor_lists cs fs Hcs) as (vs & Hvs & Hall).
  pose proof (Forall2_length _ _ _ Hcs) as Hlcs.
  unfold tiling. rewrite Hmain. unfold tiling_main.
  erewrite run_bind.
  2:{ rewrite run_lift. unfold reserve_count. by rewrite Hrs. }
  rewrite partition_reduce_axis_spec.
  erewrite run_bind by (eapply third_innermost_last_axis; exact Hout).
  erewrite run_bind by reflexivity.
  erewrite run_bind.
  2:{ unfold get_main_op_reduce_axis_factors. erewrite run_bind by reflexivity.
      rewrite run_lift. fold reserve.
      replace (len (tileable_reduce_axes reserve (X op))) with (len cs)
        by (unfold len; congruence).
      by rewrite (first_factors_all _ cs vs). }
  fold reserve.
  match goal with
  | |- context [mapM _ _ ≫= _] =>
      destruct (mapM_split_parts (StageOf (handle (X op))) vs fs Hall
                  (tileable_reduce_axes reserve (X op))
                  (mkMem (state m) (params m)
                     (sch m ++ [SchComputeAt (StageOf (handle (X op)))
                                  (StageOf (handle (X (output_op self)))) pos])))
        as [log Hlog]
  end.
  erewrite run_bind by exact Hlog.
  fold tiles.
  assert (tiles ≠ []) as Htiles.
  { unfold tiles. intros Hz. apply (f_equal length) in Hz.
    rewrite length_zip in Hz. simpl in Hz.
    destruct fs; [done|]. simpl in *. lia. }
  rewrite zip_star_tile_part by done.
  set (L0 := tile_level0 <$> tiles). set (L1 := tile_level1 <$> tiles).
  set (L2 := tile_level2 <$> tiles).
  set (rr := reserved_reduce_axes reserve (X op)).
  change (py_slice ([L0; L1; L2] ++ [rr]) None (Some (-2))) with [L0; L1].
  change (py_slice ([L0; L1; L2] ++ [rr]) (Some (-2)) (Some (-1))) with [L2].
  change (py_slice ([L0; L1; L2] ++ [rr]) (Some (-1)) None) with [rr].
  rewrite py_slice_to_neg, py_slice_from_neg by (rewrite length_op_axis; lia).
  rewrite length_op_axis. fold outer reserved. cbn [fst snd].
  assert (∃ res', reserved = Axis s (n_axis (X op) - rs) :: res' ∧
                  length res' = (rs - 1)%nat) as (res' & Hres & Hres').
  { exists (Axis s <$> seq (S (n_axis (X op) - rs)) (rs - 1)).
    split; [|by rewrite length_fmap, length_seq].
    unfold reserved, op_axis. rewrite <- fmap_drop, drop_seq.
    replace (n_axis (X op) - (n_axis (X op) - rs))%nat with (S (rs - 1)) by lia.
    reflexivity. }
  assert (concat ([L0; L1] ++ [outer] ++ [L2] ++ [reserved] ++ [rr])
          = (L0 ++ L1 ++ outer ++ L2)
              ++ Axis s (n_axis (X op) - rs) :: (res' ++ rr)) as Hord.
  { simpl. rewrite Hres, app_nil_r. simpl. by rewrite <- !app_assoc. }
  assert (L0 ++ L1 ++ outer ++ L2 ++ reserved ++ rr
          = concat ([L0; L1] ++ [outer] ++ [L2] ++ [reserved] ++ [rr])) as Hflat.
  { simpl. by rewrite app_nil_r. }
  rewrite Hflat.
  set (ordered := concat ([L0; L1] ++ [outer] ++ [L2] ++ [reserved] ++ [rr])) in *.
  erewrite run_bind by reflexivity.
  erewrite run_bind by reflexivity.
  erewrite run_bind by reflexivity.
  erewrite run_bind.
  2:{ rewrite run_lift. f_equal. rewrite Hord.
      replace (- (Z.of_nat rs + len rr)) with (- Z.of_nat (S (length (res' ++ rr)))).
      - apply list_getitem_from_end.
      - unfold len. rewrite length_app, Hres'. lia. }
  eexists. split; [reflexivity|].
  cbn [sch state main_op_reduce_axis tensorize_iter set_tensorize_iter
       set_main_op_reduce_axis].
  split; [by rewrite last_snoc|]. split; [done|].
  rewrite lookup_insert_eq, Hres. done.
Qed.

Lemma tiling_main_order_witness :
  ∃ m', tiling mma_applier 4 op_mma (fun x => x) mma_output_done = (Ok tt, m') ∧
    last (sch m') = Some (SchReorder (StageOf 4)
      [SplitOuter (SplitOuter (ReduceAxis (StageOf 4) 0) (PyInt 5)) (PyInt 3);
       SplitInner (SplitOuter (ReduceAxis (StageOf 4) 0) (PyInt 5)) (PyInt 3);
       Axis (StageOf 4) 0; Axis (StageOf 4) 1;
       SplitInner (ReduceAxis (StageOf 4) 0) (PyInt 5);
       Axis (StageOf 4) 2; Axis (StageOf 4) 3;
       ReduceAxis (StageOf 4) 1]) ∧
    tensorize_iter (state m') !! 4%nat = Some (Axis (StageOf 4) 2).
Proof.
  destruct (tiling_main_order mma_applier 4 op_mma (fun x => x) mma_output_done
              2 [split_choice [2; 3; 5]] [(PyInt 2, PyInt 3, PyInt 5)]
              [[Fused
                  [SplitOuter (SplitOuter (Axis (StageOf 5) 0) (PyInt 2)) (PyInt 2);
                   SplitOuter (SplitOuter (Axis (StageOf 5) 1) (PyInt 1)) (PyInt 2)]]]
              []
              (Fused
                 [SplitInner (SplitOuter (Axis (StageOf 5) 0) (PyInt 2)) (PyInt 2);
                  SplitInner (SplitOuter (Axis (StageOf 5) 1) (PyInt 1)) (PyInt 2)])
              [SplitInner (Axis (StageOf 5) 0) (PyInt 2);
               SplitInner (Axis (StageOf 5) 1) (PyInt 1)]
              [Axis (StageOf 5) 2; Axis (StageOf 5) 3])
    as (m' & Hrun & Hlast & _ & Hiter & Hhead).
  - reflexivity.
  - reflexivity.
  - simpl. lia.
  - reflexivity.
  - reflexivity.
  - repeat constructor. by eexists.
  - reflexivity.
  - discriminate.
  - exists m'. split; [exact Hrun|]. split; [exact Hlast|].
    exact (eq_trans Hiter Hhead).
Defined.

(** C7 as stated fails on the recorded axis: in the sample graph the reorder
    ends with the reserved axes [Axis 2; Axis 3; ReduceAxis 1] of the Main
    stage; the axis just outside them is the third-level reduction tile, and
    the axis recorded for tensorize is the first reserved axis. *)
Lemma tiling_main_tensorize_axis_is_reserved :
  (tiling mma_applier 4 op_mma (fun x => x) mma_output_done).1 = Ok tt ∧
  last (sch mma_main_tiled) = Some (SchReorder (StageOf 4)
    [SplitOuter (SplitOuter (ReduceAxis (StageOf 4) 0) (PyInt 5)) (PyInt 3);
     SplitInner (SplitOuter (ReduceAxis (StageOf 4) 0) (PyInt 5)) (PyInt 3);
     Axis (StageOf 4) 0; Axis (StageOf 4) 1;
     SplitInner (ReduceAxis (StageOf 4) 0) (PyInt 5);
     Axis (StageOf 4) 2; Axis (StageOf 4) 3;
     ReduceAxis (StageOf 4) 1]) ∧
  reserve_inner_axis_count mma_stage !! 4%nat = Some 2 ∧
  reserved_reduce_axes (main_op_reserve_reduce_axis mma_stage) op_mma
    = [ReduceAxis (StageOf 4) 1] ∧
  tensorize_iter (state mma_main_tiled) !! 4%nat = Some (Axis (StageOf 4) 2) ∧
  Axis (StageOf 4) 2 ≠ SplitInner (ReduceAxis (StageOf 4) 0) (PyInt 5).
Proof. repeat split; try reflexivity. discriminate. Qed.

End Tiling.

(** ** The archive and the visited set over the life of a generator *)

Section Archive.
Import CUDAScheduleGenerator.

Lemma insert_head_swap {A} (l : list A) : ∀ j (a b : A),
  (j < length l)%nat → a :: <[j := b]> l ≡ₚ b :: <[j := a]> l.
Proof.
  induction l as [|y l IH]; intros j a b Hj; simpl in Hj; [lia|].
  destruct j as [|j]; simpl.
  - apply perm_swap.
  - rewrite (perm_swap y a), (IH j a b) by lia. apply perm_swap.
Qed.

Lemma insert_swap_perm {A} (l : list A) : ∀ i j (a b : A),
  i ≠ j → (i < length l)%nat → (j < length l)%nat →
  <[i := a]> (<[j := b]> l) ≡ₚ <[i := b]> (<[j := a]> l).
Proof.
  induction l as [|y l IH]; intros i j a b Hij Hi Hj; simpl in *; [lia|].
  destruct i as [|i], j as [|j]; simpl; try done.
  - apply insert_head_swap. lia.
  - symmetry. apply insert_head_swap. lia.
  - f_equiv. apply IH; lia.
Qed.

Lemma siftdown_perm n : ∀ hp pos x,
  (pos < length hp)%nat → siftdown n hp x pos ≡ₚ <[pos := x]> hp.
Proof.
  induction n as [|n IH]; intros hp pos x Hpos; cbn [siftdown]; [done|].
  destruct (Nat.ltb_spec 0 pos) as [H0|H0]; [|done].
  change ((pos - 1) / 2)%nat with (parent pos).
  assert (parent pos < pos)%nat as Hlt
    by (unfold parent; apply Nat.Div0.div_lt_upper_bound; lia).
  destruct (hp !! parent pos) as [p|] eqn:Hp; [|done].
  destruct (entry_lt x p); [|done].
  rewrite IH by (rewrite length_insert; lia).
  rewrite insert_swap_perm by (rewrite ?length_insert; lia).
  rewrite list_insert_insert_ne by lia.
  by rewrite (list_insert_id hp (parent pos) p).
Qed.

Lemma heappush_perm h x : heappush h x ≡ₚ x :: h.
Proof.
  unfold heappush. rewrite siftdown_perm.
  - rewrite length_app. simpl.
    replace (length h + 1 - 1)%nat with (length h + 0)%nat by lia.
    rewrite insert_app_r. simpl. by rewrite Permutation_app_comm.
  - rewrite length_app. simpl. lia.
Qed.

Lemma feedback_all_entries l : ∀ self,
  entries (feedback_all self l) ≡ₚ (fed_entry <$> l) ++ entries self.
Proof.
  induction l as [|rv l IH]; intros self; simpl; [done|].
  change (feedback_all self (rv :: l))
    with (feedback_all (feedback self rv.1 rv.2) l).
  rewrite IH. simpl. rewrite heappush_perm.
  by rewrite <- Permutation_middle.
Qed.

Lemma feedback_all_is_heap l : ∀ self,
  is_heap (entries self) → is_heap (entries (feedback_all self l)).
Proof.
  induction l as [|rv l IH]; intros self H; [done|].
  apply IH. by apply feedback_is_heap.
Qed.

Lemma is_heap_nil : is_heap [].
Proof. intros i e p _ H. by rewrite lookup_nil in H. Qed.

Lemma get_greedy tape repeat max_trial self e rest :
  entries self = e :: rest →
  (get tape "greedy" repeat max_trial self).1 = Ok (RetEntry e).
Proof.
  intros He. destruct max_trial as [|n]; simpl.
  - unfold fallback. by rewrite He.
  - unfold trial. rewrite assemble_next_trial. unfold assemble.
    rewrite He. simpl. done.
Qed.

Lemma get_visited_mono tape policy repeat max_trial : ∀ self,
  visited self ⊆ visited (get tape policy repeat max_trial self).2.
Proof.
  induction max_trial as [|n IH]; intros self; simpl; [done|].
  unfold trial.
  destruct (assemble _ _ _) as [[record|e]|e]; simpl; try done.
  destruct (repeat || _).
  - destruct (valid record) as [[|]|e]; simpl; try done.
    + set_solver.
    + etrans; [|apply IH]. done.
  - etrans; [|apply IH]. done.
Qed.

Lemma get_entries tape policy repeat max_trial : ∀ self,
  entries (get tape policy repeat max_trial self).2 = entries self.
Proof.
  induction max_trial as [|n IH]; intros self; simpl; [done|].
  destruct (trial tape policy repeat self) as [[r|] s'] eqn:E;
    apply trial_entries in E; simpl; [done|].
  by rewrite IH.
Qed.

Lemma get_fresh tape policy max_trial : ∀ self r self',
  get tape policy false max_trial self = (Ok (RetRecord r), self') →
  (Params_str r ∉ visited self) ∧
  visited self' = {[ Params_str r ]} ∪ visited self.
Proof.
  induction max_trial as [|n IH]; intros self r self' H; simpl in H.
  - unfold fallback in H.
    destruct (list_getitem (entries self) 0); cbn in H; inversion H.
  - unfold trial in H.
    destruct (assemble _ _ _) as [[record|e]|e]; try (inversion H; fail).
    simpl in H.
    destruct (decide (Params_str record ∈ visited self)) as [Hin|Hin].
    + rewrite bool_decide_eq_true_2 in H by done. simpl in H.
      by apply IH in H.
    + rewrite bool_decide_eq_false_2 in H by done. simpl in H.
      destruct (valid record) as [[|]|e]; [| |inversion H].
      * inversion H; subst. done.
      * by apply IH in H.
Qed.

End Archive.

Section GetMore.
Import CUDAScheduleGenerator.
Local Arguments valid_step : simpl never.



(** X2: after any non-empty sequence of [feedback] calls on a generator that
    started with an empty archive, [get(policy="greedy")] returns one of the
    entries fed, and no cost fed is greater than its cost; this holds for
    every [max_trial], also 0. *)
Theorem greedy_returns_best_fed tape repeat max_trial self l :
  entries self = [] → l ≠ [] →
  ∃ e, (get tape "greedy" repeat max_trial (feedback_all self l)).1
         = Ok (RetEntry e) ∧
       e ∈ fed_entry <$> l ∧
       ∀ rv, rv ∈ l → (rv.2 <= value e)%R.
Proof.
  intros Hnil Hl.
  pose proof (feedback_all_entries l self) as Hperm.
  rewrite Hnil, app_nil_r in Hperm.
  assert (is_heap (entries (feedback_all self l))) as Hheap.
  { apply feedback_all_is_heap. rewrite Hnil. apply is_heap_nil. }
  destruct (entries (feedback_all self l)) as [|e rest] eqn:He.
  { apply Permutation_nil_l in Hperm. destruct l; [done|discriminate]. }
  exists e. split; [by eapply get_greedy|]. split.
  - rewrite <- Hperm. left.
  - intros rv Hrv.
    change rv.2 with (value (fed_entry rv)).
    eapply (heap_root_best (e :: rest)); [done|done|].
    rewrite Hperm. by apply list_elem_of_fmap_2.
Qed.

Lemma greedy_returns_best_fed_witness :
  ∃ e, (get (constant_tape wide_record) "greedy" false 100
          (feedback_all fresh_generator [(sample_record, 2%R); (wide_record, 1%R)])).1
         = Ok (RetEntry e) ∧
       e ∈ fed_entry <$> [(sample_record, 2%R); (wide_record, 1%R)] ∧
       ∀ rv, rv ∈ [(sample_record, 2%R); (wide_record, 1%R)] → (rv.2 <= value e)%R.
Proof. apply greedy_returns_best_fed; [reflexivity|discriminate]. Defined.

(** X3: with an archive that is not empty, a policy other than "random",
    "q" and "greedy" makes the first attempt of [get] raise [RuntimeError]
    with the policy in the message; with [max_trial = 0] the policy is never
    looked at and [get] returns [self.entries[0]]. *)
Theorem get_unknown_policy tape policy repeat max_trial self e rest :
  policy ≠ "random" → policy ≠ "q" → policy ≠ "greedy" →
  entries self = e :: rest →
  get tape policy repeat (S max_trial) self
    = (Raise (RuntimeError ("Unknown policy: " +:+ policy)), next_trial self) ∧
  get tape policy repeat 0 self = (Ok (RetEntry e), self).
Proof.
  intros H1 H2 H3 He. split.
  - simpl. unfold trial. rewrite assemble_next_trial.
    unfold assemble. rewrite He.
    rewrite !bool_decide_eq_false_2 by done. done.
  - simpl. unfold fallback. by rewrite He.
Qed.

Lemma get_unknown_policy_witness :
  get (constant_tape sample_record) "best" false 100 fed_generator
    = (Raise (RuntimeError "Unknown policy: best"), next_trial fed_generator) ∧
  get (constant_tape sample_record) "best" false 0 fed_generator
    = (Ok (RetEntry entry_hi), fed_generator).
Proof.
  apply (get_unknown_policy _ "best" false 99 fed_generator entry_hi [entry_lo]);
    [discriminate|discriminate|discriminate|reflexivity].
Defined.

(** X4: a record returned by [get] with [repeat=False] was not visited
    before, is the only string added to the visited set, leaves the archive
    as it was, and passes [valid]. *)
Theorem get_returns_unvisited tape policy max_trial self r self' :
  get tape policy false max_trial self = (Ok (RetRecord r), self') →
  (Params_str r ∉ visited self) ∧
  visited self' = {[ Params_str r ]} ∪ visited self ∧
  entries self' = entries self ∧
  valid r = Ok true.
Proof.
  intros H. destruct (get_fresh _ _ _ _ _ _ H) as [Hn Hv].
  split; [done|]. split; [done|]. split.
  - by rewrite <- (get_entries tape policy false max_trial self), H.
  - by eapply get_record_checked.
Qed.

Lemma get_first_draw tape r self n :
  random_record (tape (trial_no self)) = r →
  valid r = Ok true →
  Params_str r ∉ visited self →
  get tape "random" false (S n) self
    = (Ok (RetRecord r), add_visited (next_trial self) (Params_str r)).
Proof.
  intros Hr Hv Hn. cbn [get].
  rewrite (trial_accepts _ _ _ _ r); [reflexivity| |by right|exact Hv].
  rewrite assemble_random. by rewrite Hr.
Qed.

Lemma valid_sample_record : valid sample_record = Ok true.
Proof. apply valid_iff_warp_capacity. exists [2; 2], 8. by vm_compute. Qed.

Lemma valid_narrow_record : valid narrow_record = Ok true.
Proof. apply valid_iff_warp_capacity. exists [2; 2], 8. by vm_compute. Qed.

Lemma get_sample_record :
  get two_record_tape "random" false 100 fresh_generator
    = (Ok (RetRecord sample_record),
       add_visited (next_trial fresh_generator) (Params_str sample_record)).
Proof.
  apply get_first_draw; [reflexivity|apply valid_sample_record|].
  apply not_elem_of_empty.
Qed.

Lemma get_returns_unvisited_witness :
  (Params_str sample_record ∉ visited fresh_generator) ∧
  visited (add_visited (next_trial fresh_generator) (Params_str sample_record))
    = {[ Params_str sample_record ]} ∪ visited fresh_generator ∧
  entries (add_visited (next_trial fresh_generator) (Params_str sample_record))
    = entries fresh_generator ∧
  valid sample_record = Ok true.
Proof.
  apply (get_returns_unvisited two_record_tape "random" 100).
  apply get_sample_record.
Defined.

Lemma step_invariants s s' :
  generator_step s s' →
  visited s ⊆ visited s' ∧
  entries s ⊆+ entries s' ∧
  (is_heap (entries s) → is_heap (entries s')).
Proof.
  intros [tape policy repeat n s1|s1 r v].
  - pose proof (get_visited_mono tape policy repeat n s1).
    rewrite get_entries. done.
  - simpl. split; [done|]. split.
    + rewrite heappush_perm. by apply submseteq_cons.
    + apply heappush_is_heap.
Qed.

Lemma steps_visited_mono s s' :
  rtc generator_step s s' → visited s ⊆ visited s'.
Proof.
  induction 1 as [s|s1 s2 s3 Hstep _ IH]; [done|].
  etrans; [|exact IH]. by apply step_invariants.
Qed.

(** X5: over any sequence of [get] and [feedback] calls the visited set
    only grows, the archive only gains entries, and the archive stays a heap
    if it was one. *)
Theorem generator_lifetime s s' :
  rtc generator_step s s' →
  visited s ⊆ visited s' ∧
  entries s ⊆+ entries s' ∧
  (is_heap (entries s) → is_heap (entries s')).
Proof.
  induction 1 as [s|s1 s2 s3 Hstep _ (IHv & IHe & IHh)]; [done|].
  destruct (step_invariants _ _ Hstep) as (Hv & He & Hh).
  split; [by etrans|]. split; [by etrans|].
  intros H. by apply IHh, Hh.
Qed.

Lemma generator_lifetime_witness :
  visited fresh_generator ⊆ visited fed_generator ∧
  entries fresh_generator ⊆+ entries fed_generator ∧
  (is_heap (entries fresh_generator) → is_heap (entries fed_generator)).
Proof.
  apply generator_lifetime.
  rewrite <- fed_generator_by_feedback.
  eapply rtc_l; [apply step_feedback|]. apply rtc_once, step_feedback.
Defined.

(** X6: two calls of [get] with [repeat=False] that both return a record
    never return records with the same string, whatever calls of [get] and
    [feedback] come between them. *)
Theorem get_never_repeats tape1 policy1 n1 tape2 policy2 n2 s r1 s1 s2 r2 s3 :
  get tape1 policy1 false n1 s = (Ok (RetRecord r1), s1) →
  rtc generator_step s1 s2 →
  get tape2 policy2 false n2 s2 = (Ok (RetRecord r2), s3) →
  Params_str r1 ≠ Params_str r2.
Proof.
  intros H1 Hsteps H2 Heq.
  destruct (get_fresh _ _ _ _ _ _ H1) as [_ Hv1].
  destruct (get_fresh _ _ _ _ _ _ H2) as [Hn2 _].
  apply steps_visited_mono in Hsteps.
  apply Hn2, Hsteps. rewrite Hv1, Heq.
  by apply elem_of_union_l, elem_of_singleton.
Qed.

Lemma Params_str_sample_narrow :
  Params_str sample_record ≠ Params_str narrow_record.
Proof. vm_compute. discriminate. Qed.

Lemma get_narrow_record :
  get two_record_tape "random" false 100
    (feedback (add_visited (next_trial fresh_generator) (Params_str sample_record))
       sample_record 2)
    = (Ok (RetRecord narrow_record),
       add_visited
         (next_trial
            (feedback
               (add_visited (next_trial fresh_generator) (Params_str sample_record))
               sample_record 2))
         (Params_str narrow_record)).
Proof.
  apply get_first_draw; [reflexivity|apply valid_narrow_record|].
  cbn [visited feedback add_visited next_trial fresh_generator].
  rewrite not_elem_of_union, elem_of_singleton. split.
  - intros E. by apply Params_str_sample_narrow.
  - apply not_elem_of_empty.
Qed.

Lemma get_never_repeats_witness :
  Params_str sample_record ≠ Params_str narrow_record.
Proof.
  eapply (get_never_repeats two_record_tape "random" 100
            two_record_tape "random" 100 fresh_generator).
  - apply get_sample_record.
  - apply rtc_once, (step_feedback _ sample_record 2).
  - apply get_narrow_record.
Defined.

(** X7: [valid] returns [False] exactly when the warp-dimension entries of
    the spatial factors are integers and either their product exceeds 32
    (then [last_factors] is not read) or the warp-dimension factor of the
    trailing operation exceeds 32. *)
Theorem valid_rejects r :
  valid r = Ok false ↔
  ∃ ws, spatial_warp_dims r = Some ws ∧
        (32 < product ws ∨ ∃ w, last_warp_dim r = Some w ∧ 32 < w).
Proof.
  unfold valid, spatial_warp_dims, last_warp_dim. split.
  - intros H.
    destruct (py_iter (spatial_factors r)) as [items|]; cbn in H; [|discriminate].
    unfold valid_loop in H.
    destruct (foldl valid_step (Ok (PyInt 1)) items) as [v|] eqn:E;
      cbn in H; [|discriminate].
    destruct v as [|b| |]; cbn in H; try discriminate.
    apply valid_fold_int_inv in E as (ws & Hws & ->).
    exists ws. split; [done|].
    destruct (32 <? 1 * product ws) eqn:Hp; [left; lia|right].
    destruct (py_getitem (last_factors r) 0) as [l0|]; cbn in H; [|discriminate].
    unfold warp_dim.
    destruct (py_getitem l0 0) as [l00|]; cbn in H |- *; [|discriminate].
    destruct (py_getitem l00 1) as [w|]; cbn in H |- *; [|discriminate].
    destruct w as [|w| |]; cbn in H; try discriminate.
    destruct (32 <? w) eqn:Hw; [|discriminate].
    exists w. split; [done|lia].
  - intros (ws & Hws & Hor).
    destruct (py_iter (spatial_factors r)) as [items|]; [|discriminate]. cbn.
    unfold valid_loop. rewrite (valid_fold_int _ _ ws) by done. cbn.
    destruct (32 <? 1 * product ws) eqn:Hp; [done|].
    destruct Hor as [Hgt|(w & Hw & Hgt)]; [lia|].
    destruct (py_getitem (last_factors r) 0) as [l0|]; [|discriminate]. cbn.
    unfold warp_dim in Hw.
    destruct (py_getitem l0 0) as [l00|]; cbn in Hw |- *; [|discriminate].
    destruct (py_getitem l00 1) as [w'|]; cbn in Hw |- *; [|discriminate].
    destruct w'; try discriminate. inversion Hw; subst. cbn.
    by replace (32 <? w) with true by lia.
Qed.

End GetMore.

(** ** Hidden indices, moves and serialisation *)

Section Hidden.

Lemma NoDup_choices n : NoDup (Z.of_nat <$> seq 0 n).
Proof. apply NoDup_fmap_2; [apply Nat2Z.inj'|apply NoDup_seq]. Qed.

Lemma index_map_lookup (values : list Z) (i x : Z) :
  dict_comprehension (zip (Z.of_nat <$> seq 0 (length values)) values) !! i = Some x
  ↔ 0 ≤ i ∧ values !! Z.to_nat i = Some x.
Proof.
  split.
  - intros H. apply dict_comprehension_inv in H.
    apply list_elem_of_lookup in H as [j Hj].
    apply lookup_zip_with_Some in Hj as (a & b & Heq & Ha & Hb).
    inversion Heq; subst.
    apply list_lookup_fmap_Some in Ha as (k & -> & Hk).
    apply lookup_seq in Hk as [-> _]. simpl.
    split; [lia|]. by rewrite Nat2Z.id.
  - intros [Hi Hx].
    apply dict_comprehension_nodup.
    + rewrite fst_zip; [apply NoDup_choices|].
      by rewrite length_fmap, length_seq.
    + apply list_elem_of_lookup. exists (Z.to_nat i).
      apply lookup_zip_with_Some. exists i, x. split; [done|]. split; [|done].
      apply list_lookup_fmap_Some. exists (Z.to_nat i). split; [lia|].
      apply lookup_seq. split; [done|]. by apply lookup_lt_Some in Hx.
Qed.

Lemma index_map_getitem (values : list Z) (i : Z) :
  map_getitem
    (dict_comprehension (zip (Z.of_nat <$> seq 0 (length values)) values)) i
  = if (0 <=? i) && (i <? Z.of_nat (length values))
    then match values !! Z.to_nat i with
         | Some x => Ok x
         | None => Raise KeyError
         end
    else Raise KeyError.
Proof.
  unfold map_getitem.
  destruct (dict_comprehension _ !! i) as [x|] eqn:E.
  - apply index_map_lookup in E as [Hi Hx]. rewrite Hx.
    apply lookup_lt_Some in Hx as Hlt.
    replace (0 <=? i) with true by lia.
    by replace (i <? Z.of_nat (length values)) with true by lia.
  - destruct ((0 <=? i) && (i <? Z.of_nat (length values))) eqn:Hb; [|done].
    apply andb_true_iff in Hb as [H0 H1].
    destruct (values !! Z.to_nat i) as [x|] eqn:Hx; [|done].
    assert (dict_comprehension
              (zip (Z.of_nat <$> seq 0 (length values)) values) !! i = Some x)
      as H by (apply index_map_lookup; split; [lia|done]).
    congruence.
Qed.

Lemma reverse_index_lookup (values : list Z) (i x : Z) :
  NoDup values → 0 ≤ i → values !! Z.to_nat i = Some x →
  map_getitem
    (dict_comprehension (zip values (Z.of_nat <$> seq 0 (length values)))) x
  = Ok i.
Proof.
  intros Hnd Hi Hx. unfold map_getitem.
  rewrite (dict_comprehension_nodup _ x i); [done| |].
  - rewrite fst_zip; [done|]. rewrite length_fmap, length_seq. lia.
  - apply list_elem_of_lookup. exists (Z.to_nat i).
    apply lookup_zip_with_Some. exists x, i. split; [done|]. split; [done|].
    apply list_lookup_fmap_Some. exists (Z.to_nat i). split; [lia|].
    apply lookup_seq. split; [done|]. by apply lookup_lt_Some in Hx.
Qed.

(** X10: for the vector-length and unroll-step generators, [map_from_hidden]
    succeeds exactly on the indices that [valid] accepts, where it returns
    the value at that position; every other index, negative ones included,
    raises [KeyError]. *)
Theorem hidden_index_valid :
  (∀ lengths i,
     let g := VectorizeLengthGenerator.init lengths in
     VectorizeLengthGenerator.map_from_hidden g i
     = if VectorizeLengthGenerator.valid g i
       then match lengths !! Z.to_nat i with
            | Some x => Ok x
            | None => Raise KeyError
            end
       else Raise KeyError) ∧
  (∀ steps i,
     let g := UnrollStepGenerator.init steps in
     UnrollStepGenerator.map_from_hidden g i
     = if UnrollStepGenerator.valid g i
       then match steps !! Z.to_nat i with
            | Some x => Ok x
            | None => Raise KeyError
            end
       else Raise KeyError) ∧
  (∀ lengths i,
     VectorizeLengthGenerator.valid (VectorizeLengthGenerator.init lengths) i = true
     ↔ ∃ x, VectorizeLengthGenerator.map_from_hidden
              (VectorizeLengthGenerator.init lengths) i = Ok x) ∧
  (∀ steps i,
     UnrollStepGenerator.valid (UnrollStepGenerator.init steps) i = true
     ↔ ∃ x, UnrollStepGenerator.map_from_hidden
              (UnrollStepGenerator.init steps) i = Ok x).
Proof.
  assert (∀ (values : list Z) i,
    (0 <=? i) && (i <? Z.of_nat (length values)) = true
    ↔ ∃ x, map_getitem
             (dict_comprehension (zip (Z.of_nat <$> seq 0 (length values)) values)) i
           = Ok x) as Hiff.
  { intros values i. rewrite index_map_getitem.
    destruct ((0 <=? i) && (i <? Z.of_nat (length values))) eqn:Hb.
    - apply andb_true_iff in Hb as [H0 H1].
      destruct (lookup_lt_is_Some_2 values (Z.to_nat i)) as [x Hx]; [lia|].
      rewrite Hx. split; [by eexists|done].
    - split; [done|]. by intros [x Hx]. }
  split; [|split; [|split]].
  - intros lengths i g. apply index_map_getitem.
  - intros steps i g. apply index_map_getitem.
  - intros lengths i. apply Hiff.
  - intros steps i. apply Hiff.
Qed.

(** X11: mapping a hidden index to the visible value and back gives the
    index again, when the visible values are pairwise distinct: for the
    keys of [factor_map] of the split generator, and for the valid indices of
    the other two. *)
Theorem hidden_index_roundtrip :
  (∀ choices factor_map dim sum_val dirs (init : list Z),
     let g := SplitFactorGenerator.init (choices, factor_map, dim, sum_val) dirs in
     NoDup factor_map.*1 → NoDup factor_map.*2 →
     Forall (fun i => i ∈ factor_map.*1) init →
     SplitFactorGenerator.map_from_hidden g init
       ≫= SplitFactorGenerator.map_to_hidden g = Ok init) ∧
  (∀ lengths i,
     let g := VectorizeLengthGenerator.init lengths in
     NoDup lengths →
     VectorizeLengthGenerator.valid g i = true →
     VectorizeLengthGenerator.map_from_hidden g i
       ≫= VectorizeLengthGenerator.map_to_hidden g = Ok i) ∧
  (∀ steps i,
     let g := UnrollStepGenerator.init steps in
     NoDup steps →
     UnrollStepGenerator.valid g i = true →
     UnrollStepGenerator.map_from_hidden g i
       ≫= UnrollStepGenerator.map_to_hidden g = Ok i).
Proof.
  assert (∀ (values : list Z) i, NoDup values →
    (0 <=? i) && (i <? Z.of_nat (length values)) = true →
    map_getitem
      (dict_comprehension (zip (Z.of_nat <$> seq 0 (length values)) values)) i
    ≫= map_getitem
         (dict_comprehension (zip values (Z.of_nat <$> seq 0 (length values))))
    = Ok i) as Hrt.
  { intros values i Hnd Hb. rewrite index_map_getitem, Hb.
    apply andb_true_iff in Hb as [H0 H1].
    destruct (lookup_lt_is_Some_2 values (Z.to_nat i)) as [x Hx]; [lia|].
    rewrite Hx. cbn. apply reverse_index_lookup; [done|lia|done]. }
  split; [|split].
  - intros choices factor_map dim sum_val dirs init g Hk Hv Hin.
    apply mapM_result_roundtrip.
    eapply Forall_impl; [exact Hin|].
    intros i Hi. simpl.
    apply list_elem_of_fmap in Hi as ([k f] & -> & Hkf). simpl.
    rewrite (dict_get_nodup factor_map k f) by done. cbn.
    unfold map_getitem.
    rewrite (dict_comprehension_nodup _ f k); [done| |].
    + rewrite <- list_fmap_compose.
      by replace (fst ∘ (fun xy : Z * Z => (xy.2, xy.1))) with (@snd Z Z).
    + apply list_elem_of_fmap. by exists (k, f).
  - intros lengths i g Hnd Hv. by apply Hrt.
  - intros steps i g Hnd Hv. by apply Hrt.
Qed.

Lemma hidden_index_roundtrip_witness :
  (let g := SplitFactorGenerator.init
              ([[0; 2]; [1; 1]; [2; 0]], [(0, 1); (1, 2); (2, 4)], 1, 2)
              [[1]; [-1]] in
   SplitFactorGenerator.map_from_hidden g [2; 0]
     ≫= SplitFactorGenerator.map_to_hidden g = Ok [2; 0]) ∧
  (let g := VectorizeLengthGenerator.init [1; 2; 4; 8] in
   VectorizeLengthGenerator.map_from_hidden g 2
     ≫= VectorizeLengthGenerator.map_to_hidden g = Ok 2) ∧
  (let g := UnrollStepGenerator.init [16; 64; 512; 1500] in
   UnrollStepGenerator.map_from_hidden g 3
     ≫= UnrollStepGenerator.map_to_hidden g = Ok 3).
Proof.
  destruct hidden_index_roundtrip as (Hs & Hv & Hu).
  split; [|split].
  - apply Hs; compute_done.
  - apply Hv; [compute_done|reflexivity].
  - apply Hu; [compute_done|reflexivity].
Defined.

End Hidden.

Section Move.

Lemma zsum_app l1 l2 : zsum (l1 ++ l2) = zsum l1 + zsum l2.
Proof. induction l1 as [|x l1 IH]; simpl; [done|]. unfold zsum in *. simpl. lia. Qed.

Lemma enumerate_snoc {A} (l : list A) x :
  enumerate (l ++ [x]) = enumerate l ++ [(Z.of_nat (length l), x)].
Proof.
  unfold enumerate. rewrite length_app. simpl.
  rewrite seq_app, fmap_app. simpl.
  rewrite zip_with_app; [done|]. by rewrite length_fmap, length_seq.
Qed.

Lemma list_getitem_nat {A} (l : list A) (i : nat) :
  list_getitem l (Z.of_nat i)
  = match l !! i with Some x => Ok x | None => Raise IndexError end.
Proof.
  unfold list_getitem.
  destruct (Z.ltb_spec (Z.of_nat i) 0) as [Hneg|_]; [lia|].
  simpl. destruct (Z.ltb_spec (Z.of_nat i) 0) as [Hneg|_]; [lia|].
  by rewrite Nat2Z.id.
Qed.

Lemma zip_with_add_snoc (d : list Z) v x : ∀ init : list Z,
  init !! length d = Some x →
  zip_with Z.add init (d ++ [v]) = zip_with Z.add init d ++ [x + v].
Proof.
  induction d as [|w d IH]; intros [|y init] H; simpl in *; try done.
  - inversion H; subst. by destruct init.
  - f_equal. by apply IH.
Qed.

Lemma move_loop (init : list Z) : ∀ d,
  foldl (fun acc (iv : Z * Z) =>
           '(ret, tmp_sum) ← acc;
           x ← list_getitem init iv.1;
           Ok (ret ++ [x + iv.2], tmp_sum + (x + iv.2)))
        (Ok ([], 0)) (enumerate d)
  = if bool_decide (length d ≤ length init)%nat
    then Ok (zip_with Z.add init d, zsum (zip_with Z.add init d))
    else Raise IndexError.
Proof.
  induction d as [|v d IH] using rev_ind.
  - change (enumerate (@nil Z)) with (@nil (Z * Z)). cbn [foldl].
    rewrite bool_decide_eq_true_2 by (simpl; lia).
    by destruct init.
  - rewrite enumerate_snoc, foldl_app, IH. cbn [foldl].
    rewrite length_app. simpl.
    destruct (decide (length d ≤ length init)%nat) as [Hle|Hgt].
    + rewrite bool_decide_eq_true_2 by done. cbn.
      rewrite list_getitem_nat.
      destruct (init !! length d) as [x|] eqn:Hx.
      * apply lookup_lt_Some in Hx as Hlt.
        rewrite bool_decide_eq_true_2 by lia. cbn. f_equal.
        rewrite (zip_with_add_snoc d v x init) by done.
        rewrite zsum_app. f_equal. unfold zsum at 3. simpl. lia.
      * apply lookup_ge_None in Hx.
        by rewrite bool_decide_eq_false_2 by lia.
    + rewrite !bool_decide_eq_false_2 by lia. done.
Qed.

(** X9: [SplitFactorGenerator.move_towards_direction] moves the first
    [len(d)] coordinates by [d] and appends the coordinate that makes the
    result sum to [sum_val]; it raises [IndexError] when [init] is shorter
    than [d]. *)
Theorem move_towards_direction_sum self (init d : list Z) :
  ((length d ≤ length init)%nat →
   ∃ ret, SplitFactorGenerator.move_towards_direction self init d = Ok ret ∧
          length ret = S (length d) ∧
          zsum ret = SplitFactorGenerator.sum_val self ∧
          take (length d) ret = zip_with Z.add init d) ∧
  ((length init < length d)%nat →
   SplitFactorGenerator.move_towards_direction self init d = Raise IndexError).
Proof.
  unfold SplitFactorGenerator.move_towards_direction. rewrite move_loop.
  split; intros H.
  - rewrite bool_decide_eq_true_2 by done. cbn. eexists. split; [done|].
    assert (length (zip_with Z.add init d) = length d) as Hlen
      by (rewrite length_zip_with; lia).
    split; [|split].
    + rewrite length_app, Hlen. simpl. lia.
    + rewrite zsum_app. unfold zsum at 2. simpl. lia.
    + rewrite <- Hlen. by rewrite take_app_length.
  - by rewrite bool_decide_eq_false_2 by lia.
Qed.

Lemma move_towards_direction_sum_witness :
  ∃ ret, SplitFactorGenerator.move_towards_direction
           (SplitFactorGenerator.init
              ([[0; 2]; [1; 1]; [2; 0]], [(0, 1); (1, 2); (2, 4)], 1, 2)
              [[1]; [-1]]) [1; 1] [1] = Ok ret ∧
         length ret = 2%nat ∧ zsum ret = 2 ∧ take 1 ret = [2].
Proof.
  apply (move_towards_direction_sum
           (SplitFactorGenerator.init
              ([[0; 2]; [1; 1]; [2; 0]], [(0, 1); (1, 2); (2, 4)], 1, 2)
              [[1]; [-1]]) [1; 1] [1]).
  simpl. lia.
Defined.

(** X8: [Params.from_json] computes what [record_from_json] computes,
    whatever the receiving object held: it succeeds exactly when the six
    keys are present, the result holds their values, keys beyond the six are
    ignored, and a missing key raises [KeyError]. *)
Theorem from_json_reads_six_keys self obj :
  from_json self obj = CUDAScheduleGenerator.record_from_json obj ∧
  (∀ p, from_json self obj = Ok p ↔
        ∀ k v, (k, v) ∈ to_json p → dict_get obj k = Some v) ∧
  ((∃ k, k ∈ (to_json self).*1 ∧ dict_get obj k = None) →
   from_json self obj = Raise KeyError).
Proof.
  unfold from_json, CUDAScheduleGenerator.record_from_json, obj_getitem.
  split; [|split].
  - repeat (match goal with
            | |- context [dict_get obj ?k] => destruct (dict_get obj k); cbn
            end; try done).
  - intros p. split.
    + intros H k v Hin.
      destruct (dict_get obj "vectorize") as [v1|] eqn:E1; cbn in H; [|done].
      destruct (dict_get obj "spatial_factors") as [v2|] eqn:E2; cbn in H; [|done].
      destruct (dict_get obj "reduce_factors") as [v3|] eqn:E3; cbn in H; [|done].
      destruct (dict_get obj "last_factors") as [v4|] eqn:E4; cbn in H; [|done].
      destruct (dict_get obj "output_unroll_step") as [v5|] eqn:E5; cbn in H; [|done].
      destruct (dict_get obj "last_unroll_step") as [v6|] eqn:E6; cbn in H; [|done].
      inversion H; subst. unfold to_json in Hin. simpl in Hin.
      repeat (apply elem_of_cons in Hin as [[= -> ->]|Hin]; [done|]).
      by apply elem_of_nil in Hin.
    + intros H. destruct p as [v1 v2 v3 v4 v5 v6]. unfold to_json in H. simpl in H.
      rewrite (H "vectorize"%string v1) by (left). cbn.
      rewrite (H "spatial_factors"%string v2) by (right; left). cbn.
      rewrite (H "reduce_factors"%string v3) by (do 2 right; left). cbn.
      rewrite (H "last_factors"%string v4) by (do 3 right; left). cbn.
      rewrite (H "output_unroll_step"%string v5) by (do 4 right; left). cbn.
      rewrite (H "last_unroll_step"%string v6) by (do 5 right; left). cbn.
      done.
  - intros (k & Hk & Hnone). unfold to_json in Hk. simpl in Hk.
    repeat (match goal with
            | |- context [dict_get obj ?k] => destruct (dict_get obj k) eqn:?; cbn
            end; try done).
    exfalso.
    repeat (apply elem_of_cons in Hk as [->|Hk]; [congruence|]).
    by apply elem_of_nil in Hk.
Qed.

End Move.

(** ** More on the schedule applier *)

Section ApplierMore.
Import CUDAScheduleApplier.

Lemma forM_skip {A} (f : A → M unit) (l : list A) m :
  Forall (fun x => ∀ m', f x m' = (Ok tt, m')) l → forM l f m = (Ok tt, m).
Proof.
  induction 1 as [|x l Hx _ IH]; [done|].
  unfold forM in *. cbn [foldM]. by erewrite run_bind by apply Hx.
Qed.

(** X12: on a graph without compute operation [apply] calls no primitive:
    it returns the schedule as given, with the state reset and the
    parameters stored. *)
Theorem apply_skips_placeholders self params X m :
  Forall (fun op => is_compute op = false) (op_lst (target_dag self)) →
  apply self params X m = (Ok (sch m), mkMem empty_state params (sch m)).
Proof.
  intros Hall. unfold apply.
  erewrite run_bind by reflexivity.
  erewrite run_bind by reflexivity.
  erewrite run_bind by reflexivity.
  erewrite run_bind.
  2:{ apply forM_skip.
      apply Forall_forall. intros [op_id op] Hin m'.
      apply elem_of_zip_r in Hin. rewrite elem_of_reverse in Hin.
      rewrite Forall_forall in Hall. by rewrite (Hall op Hin). }
  reflexivity.
Qed.

Lemma apply_skips_placeholders_witness :
  apply (mk (mkDAG [op_a; op_b] ∅) op_a op_b 0 1 mma_stage) sample_record
    (fun x => x) (mkMem empty_state empty_params [])
  = (Ok [], mkMem empty_state sample_record []).
Proof.
  apply (apply_skips_placeholders
           (mk (mkDAG [op_a; op_b] ∅) op_a op_b 0 1 mma_stage) sample_record
           (fun x => x) (mkMem empty_state empty_params [])).
  repeat constructor.
Defined.

(** X13: [tiling] on the Main operation needs the Output operation to be
    tiled first: while [output_op_axis] has fewer than three levels it
    raises (the assertion of [get_output_op_third_innermost_last_axis], or
    [KeyError] for a missing reserve count) before any schedule call. *)
Theorem tiling_main_needs_output self op_id op X m :
  op_eq op (main_op self) = true →
  len (output_op_axis (state m)) ≤ 2 →
  tiling self op_id op X m
  = (match reserve_count self op with
     | Ok _ => Raise (AssertionError EmptyString)
     | Raise e => Raise e
     end, m).
Proof.
  intros Hmain Hout. unfold tiling. rewrite Hmain. unfold tiling_main.
  destruct (reserve_count self op) as [rs|e] eqn:Hrs.
  - erewrite run_bind by (rewrite run_lift; reflexivity).
    destruct (partition_reduce_axis _ _) as [rr sr].
    unfold get_output_op_third_innermost_last_axis.
    unfold mbind at 1, M_bind. unfold mbind at 1, M_bind.
    unfold mbind at 1, M_bind. unfold mbind at 1, M_bind. cbn [get_state].
    destruct (Z.ltb_spec 2 (len (output_op_axis (state m)))) as [H|H]; [lia|].
    reflexivity.
  - reflexivity.
Qed.

Lemma tiling_main_needs_output_witness :
  tiling mma_applier 4 op_mma (fun x => x)
    (mkMem empty_state sample_record [])
  = (Raise (AssertionError EmptyString), mkMem empty_state sample_record []).
Proof.
  apply (tiling_main_needs_output mma_applier 4 op_mma (fun x => x)
           (mkMem empty_state sample_record [])).
  - reflexivity.
  - simpl. unfold len. simpl. lia.
Defined.

End ApplierMore.

Section Warp.
Import CUDAScheduleApplier.

Lemma py_iter_getitem v l i : py_iter v = Ok l → py_getitem v i = list_getitem l i.
Proof. destruct v; try discriminate; by intros [= ->]. Qed.

Lemma py_iter_len v l : py_iter v = Ok l → py_len v = Ok (len l).
Proof. intros H. unfold py_len. by rewrite H. Qed.

Lemma main_warp_loop cs fs : ∀ ws a,
  Forall2 three_way_choice cs fs →
  (fun f : pyval * pyval * pyval => f.1.2) <$> fs = PyInt <$> ws →
  foldl (fun acc part =>
           ret ← acc;
           p0 ← py_getitem part 0;
           n0 ← py_len p0;
           _ ← py_assert (1 <? n0) EmptyString;
           w ← py_getitem p0 (-2);
           py_mul ret w)
        (Ok (PyInt a)) cs = Ok (PyInt (a * product ws)) ∧
  mapM warp_dim cs = Some ws.
Proof.
  intros ws a H. revert ws a.
  induction H as [|c [[f0 f1] f2] cs fs (v & Hv & Hit) _ IH]; intros ws a Hws.
  - destruct ws; [|discriminate]. simpl. unfold product. simpl.
    split; [|done]. do 2 f_equal. lia.
  - destruct ws as [|w ws]; [discriminate|]. simpl in Hws.
    inversion Hws as [[Hw Hrest]]. simpl in Hit, Hw. subst f1.
    destruct (IH ws (a * w) Hrest) as [IHl IHm].
    cbn [foldl]. split.
    + match goal with
      | |- foldl ?F ?x0 _ = _ =>
          assert (x0 = Ok (PyInt (a * w))) as ->
      end.
      { cbn [mbind result_bind]. rewrite Hv. cbn [mbind result_bind].
        rewrite (py_iter_len _ _ Hit). cbn [mbind result_bind].
        by rewrite (py_iter_getitem _ _ _ Hit). }
      rewrite IHl. unfold product. simpl. do 2 f_equal. lia.
    + assert (warp_dim c = Some w) as Hc.
      { unfold warp_dim. rewrite Hv. cbn [mbind result_bind].
        by rewrite (py_iter_getitem _ _ _ Hit). }
      change (mapM warp_dim (c :: cs))
        with (y ← warp_dim c; k ← mapM warp_dim cs; mret (y :: k)).
      by rewrite Hc, IHm.
Qed.

(** X14: on 3-way spatial factors with integer warp entries, the warp number
    that the applier computes ([part[0][-2]] multiplied over the spatial
    factors) is the product that the generator's [valid] bounds
    ([factors[0][1]]): a record accepted by [valid] gives at most 32 warps. *)
Theorem warp_numbers_checked_by_valid m cs fs ws :
  py_iter (spatial_factors (params m)) = Ok cs →
  cs ≠ [] →
  Forall2 three_way_choice cs fs →
  (fun f : pyval * pyval * pyval => f.1.2) <$> fs = PyInt <$> ws →
  get_main_op_warp_numbers m = (Ok (PyInt (product ws)), m) ∧
  spatial_warp_dims (params m) = Some ws ∧
  (CUDAScheduleGenerator.valid (params m) = Ok true → product ws ≤ 32).
Proof.
  intros Hit Hne Hcs Hws.
  destruct (main_warp_loop cs fs ws 1 Hcs Hws) as [Hloop Hdims].
  assert (spatial_warp_dims (params m) = Some ws) as Hsp.
  { unfold spatial_warp_dims. by rewrite Hit. }
  split; [|split; [done|]].
  - unfold get_main_op_warp_numbers.
    erewrite run_bind by reflexivity. rewrite run_lift. f_equal.
    rewrite (py_iter_len _ _ Hit). cbn [mbind result_bind].
    assert ((0 <? len cs) = true) as ->.
    { apply Z.ltb_lt. unfold len. destruct cs; [done|simpl; lia]. }
    cbn [py_assert mbind result_bind]. rewrite Hit. cbn [mbind result_bind].
    rewrite Hloop. do 2 f_equal. lia.
  - intros Hv. apply valid_iff_warp_capacity in Hv as (ws' & w & Hws' & Hle & _).
    rewrite Hsp in Hws'. by inversion Hws'; subst.
Qed.

Lemma warp_numbers_checked_by_valid_witness :
  get_main_op_warp_numbers (mkMem empty_state sample_record [])
    = (Ok (PyInt (product [2; 2])), mkMem empty_state sample_record []) ∧
  spatial_warp_dims sample_record = Some [2; 2] ∧
  (CUDAScheduleGenerator.valid sample_record = Ok true → product [2; 2] ≤ 32).
Proof.
  apply (warp_numbers_checked_by_valid (mkMem empty_state sample_record [])
           [split_choice [2; 2; 2]; split_choice [4; 2; 1]]
           [(PyInt 2, PyInt 2, PyInt 2); (PyInt 4, PyInt 2, PyInt 1)] [2; 2]).
  - reflexivity.
  - discriminate.
  - repeat constructor; by eexists.
  - reflexivity.
Defined.

End Warp.

Section TilingMore.
Import CUDAScheduleApplier.

Lemma op_axis_from_end op (rs : nat) :
  (0 < rs ≤ n_axis op)%nat →
  list_getitem (op_axis op) (- Z.of_nat rs)
    = Ok (Axis (StageOf (handle op)) (n_axis op - rs)).
Proof.
  intros Hrs.
  assert (op_axis op
          = (Axis (StageOf (handle op)) <$> seq 0 (n_axis op - rs))
              ++ Axis (StageOf (handle op)) (n_axis op - rs)
              :: (Axis (StageOf (handle op)) <$> seq (S (n_axis op - rs)) (rs - 1)))
    as ->.
  { unfold op_axis.
    replace (n_axis op) with ((n_axis op - rs) + S (rs - 1))%nat at 1 by lia.
    rewrite seq_app, fmap_app. simpl. done. }
  replace (- Z.of_nat rs)
    with (- Z.of_nat (S (length (Axis (StageOf (handle op))
                                   <$> seq (S (n_axis op - rs)) (rs - 1))))).
  - apply list_getitem_from_end.
  - rewrite length_fmap, length_seq. lia.
Qed.

(** X15: for an operation with a role placed before the Main operation,
    [compute_at], [unroll] and [tensorize] in this order attach the stage at
    the last axis of the second reduction-tile level of the Main operation,
    leave unrolling out, and tensorize from the first reserved axis
    [axis[-reserve_spatial_num]]. *)
Theorem load_op_tensorize_axis self op_id op X m ax (rs : nat) key last :
  let s := StageOf (handle (X op)) in
  let iv := Axis s (n_axis (X op) - rs) in
  has_role self op = true →
  op_id < main_op_id self →
  op_eq op (output_op self) = false →
  op_eq op (main_op self) = false →
  list_getitem (op_lst (target_dag self)) (-1) = Ok last →
  op_eq op last = false →
  get_main_op_second_outermost_last_reduce_axis m = (Ok ax, m) →
  reserve_inner_axis_count (recipe_stage self) !! handle op = Some (Z.of_nat rs) →
  (0 < rs ≤ n_axis (X op))%nat →
  capsule_key (recipe_stage self) !! handle op = Some key →
  (_ ← compute_at self op_id op X;
   _ ← unroll self op_id op X;
   tensorize self op_id op X) m
  = (Ok tt,
     mkMem (set_tensorize_iter (handle op) iv (state m)) (params m)
       (sch m ++ [SchComputeAt s (StageOf (handle (X (main_op self)))) ax;
                  SchTensorize s iv key])).
Proof.
  intros s iv Hrole Hid Hout Hmain Hlast Hnl Hax Hrs Hrange Hkey.
  erewrite run_bind.
  2:{ unfold compute_at. rewrite Hrole. cbn [negb].
      destruct (Z.ltb_spec op_id (main_op_id self)) as [_|?]; [|lia].
      erewrite run_bind by exact Hax.
      erewrite run_bind by reflexivity.
      erewrite run_bind.
      2:{ rewrite run_lift. unfold reserve_count. by rewrite Hrs. }
      erewrite run_bind.
      2:{ rewrite run_lift. by rewrite op_axis_from_end. }
      reflexivity. }
  erewrite run_bind.
  2:{ unfold unroll. rewrite Hout, Hmain.
      erewrite run_bind by (rewrite run_lift; by rewrite Hlast).
      rewrite Hnl. reflexivity. }
  unfold tensorize. rewrite Hrole, Hkey. cbn [negb].
  erewrite run_bind by reflexivity.
  erewrite run_bind.
  2:{ unfold get_tensorize_iter. erewrite run_bind by reflexivity.
      cbn [state set_tensorize_iter tensorize_iter].
      rewrite lookup_insert_eq. reflexivity. }
  unfold emit. cbn [state params sch]. by rewrite <- app_assoc.
Qed.

Lemma load_op_tensorize_axis_witness :
  (_ ← compute_at mma_applier 2 op_load_a (fun x => x);
   _ ← unroll mma_applier 2 op_load_a (fun x => x);
   tensorize mma_applier 2 op_load_a (fun x => x)) mma_main_tiled
  = (Ok tt,
     mkMem (set_tensorize_iter 2%nat (Axis (StageOf 2) 2) (state mma_main_tiled))
       (params mma_main_tiled)
       (sch mma_main_tiled
          ++ [SchComputeAt (StageOf 2) (StageOf 4)
                (SplitInner (SplitOuter (ReduceAxis (StageOf 4) 0) (PyInt 5)) (PyInt 3));
              SchTensorize (StageOf 2) (Axis (StageOf 2) 2) "load_a"])).
Proof.
  apply (load_op_tensorize_axis mma_applier 2 op_load_a (fun x => x)
           mma_main_tiled
           (SplitInner (SplitOuter (ReduceAxis (StageOf 4) 0) (PyInt 5)) (PyInt 3))
           2 "load_a"%string op_store).
  - reflexivity.
  - reflexivity.
  - reflexivity.
  - reflexivity.
  - reflexivity.
  - reflexivity.
  - reflexivity.
  - reflexivity.
  - simpl. lia.
  - reflexivity.
Defined.

End TilingMore.

Section TilingLast.
Import CUDAScheduleApplier.

Lemma py_slice_first {A} (x : A) (l : list A) :
  py_slice (x :: l) None (Some 1) = [x].
Proof. unfold py_slice, slice_bound. simpl. by rewrite Nat.min_0_r. Qed.

Lemma first_factor_of_last factors c rest v msg :
  py_iter factors = Ok (c :: rest) →
  py_getitem c 0 = Ok v →
  first_factors factors 1 msg = Ok [v].
Proof.
  intros Hit Hv. unfold first_factors. rewrite (py_iter_len _ _ Hit).
  cbn [mbind result_bind].
  assert ((1 <=? len (c :: rest)) = true) as ->.
  { apply Z.leb_le. unfold len. simpl. lia. }
  cbn [py_assert mbind result_bind].
  destruct factors as [| |l|l]; try discriminate; inversion Hit; subst;
    cbn [py_getslice mbind result_bind py_iter]; rewrite py_slice_first;
    cbn; by rewrite Hv.
Qed.

Lemma split_parts_two_way s iv v f0 f1 m :
  py_iter v = Ok [f0; f1] →
  split_parts s iv v m
  = (Ok [SplitOuter iv f1; SplitInner iv f1],
     mkMem (state m) (params m) (sch m ++ [SchSplit s iv f1])).
Proof.
  intros Hv. destruct m as [st pr sc].
  destruct v as [| |l|l]; try discriminate; inversion Hv; subst;
    unfold split_parts, split, emit, lift, mbind, M_bind, mret, M_ret; simpl;
    unfold mbind, M_bind, mret, M_ret; simpl; done.
Qed.

(** X16: [tiling] on the trailing operation (no Main, no Output) fuses all
    its axes, splits off the 32 threads, splits the rest by the second factor
    of the first choice of [last_factors] (the first factor is not used), and
    binds the three loops to blockIdx.x, threadIdx.y and threadIdx.x. *)
Theorem tiling_last_schedule self op_id op X m last c rest v f0 f1 :
  let s := StageOf (handle (X op)) in
  let fused := Fused (op_axis (X op)) in
  let block := SplitOuter fused (PyInt 32) in
  let thread_level := SplitInner fused (PyInt 32) in
  op_eq op (main_op self) = false →
  op_eq op (output_op self) = false →
  list_getitem (op_lst (target_dag self)) (-1) = Ok last →
  op_eq op last = true →
  py_iter (last_factors (params m)) = Ok (c :: rest) →
  py_getitem c 0 = Ok v →
  py_iter v = Ok [f0; f1] →
  tiling self op_id op X m
  = (Ok tt,
     mkMem (set_last_op_axis
              [[SplitOuter block f1; SplitInner block f1; thread_level]]
              (state m))
       (params m)
       (sch m ++ [SchFuse s (op_axis (X op));
                  SchSplit s fused (PyInt 32);
                  SchSplit s block f1;
                  SchBind s (SplitOuter block f1) (ThreadAxis "blockIdx.x");
                  SchBind s (SplitInner block f1) (ThreadAxis "threadIdx.y");
                  SchBind s thread_level (ThreadAxis "threadIdx.x")])).
Proof.
  intros s fused block thread_level Hmain Hout Hlast Hl Hit Hv Hv2.
  unfold tiling. rewrite Hmain, Hout.
  erewrite run_bind by (rewrite run_lift; by rewrite Hlast).
  rewrite Hl. unfold tiling_last.
  erewrite run_bind by reflexivity.
  erewrite run_bind by reflexivity. cbv beta iota.
  erewrite run_bind.
  2:{ unfold get_last_op_axis_factors. erewrite run_bind by reflexivity.
      rewrite run_lift. cbn [params].
      by rewrite (first_factor_of_last _ c rest v). }
  erewrite run_bind by reflexivity.
  erewrite run_bind by (by apply (split_parts_two_way _ _ v f0 f1)).
  erewrite run_bind by reflexivity.
  erewrite run_bind by reflexivity.
  erewrite run_bind by reflexivity.
  erewrite run_bind by reflexivity.
  erewrite run_bind by reflexivity.
  unfold modify_state. erewrite run_bind by reflexivity.
  unfold set_state. cbn [state params sch]. rewrite <- !app_assoc. reflexivity.
Qed.

Lemma tiling_last_schedule_witness :
  tiling mma_bias_applier 6 op_bias (fun x => x)
    (mkMem empty_state sample_record [])
  = (Ok tt,
     mkMem (set_last_op_axis
              [[SplitOuter (SplitOuter (Fused (op_axis op_bias)) (PyInt 32)) (PyInt 8);
                SplitInner (SplitOuter (Fused (op_axis op_bias)) (PyInt 32)) (PyInt 8);
                SplitInner (Fused (op_axis op_bias)) (PyInt 32)]]
              empty_state)
       sample_record
       [SchFuse (StageOf 6) (op_axis op_bias);
        SchSplit (StageOf 6) (Fused (op_axis op_bias)) (PyInt 32);
        SchSplit (StageOf 6) (SplitOuter (Fused (op_axis op_bias)) (PyInt 32)) (PyInt 8);
        SchBind (StageOf 6)
          (SplitOuter (SplitOuter (Fused (op_axis op_bias)) (PyInt 32)) (PyInt 8))
          (ThreadAxis "blockIdx.x");
        SchBind (StageOf 6)
          (SplitInner (SplitOuter (Fused (op_axis op_bias)) (PyInt 32)) (PyInt 8))
          (ThreadAxis "threadIdx.y");
        SchBind (StageOf 6) (SplitInner (Fused (op_axis op_bias)) (PyInt 32))
          (ThreadAxis "threadIdx.x")]).
Proof.
  apply (tiling_last_schedule mma_bias_applier 6 op_bias (fun x => x)
           (mkMem empty_state sample_record []) op_bias
           (split_choice [4; 8]) [] (PyList [PyInt 4; PyInt 8]) (PyInt 4) (PyInt 8));
    reflexivity.
Defined.

End TilingLast.

Section TilingOutput.
Import CUDAScheduleApplier.

Lemma reserved_axes_end op (rs : nat) :
  (2 ≤ rs ≤ n_axis op)%nat →
  drop (n_axis op - rs) (op_axis op)
  = (Axis (StageOf (handle op)) <$> seq (n_axis op - rs) (rs - 2))
      ++ Axis (StageOf (handle op)) (n_axis op - 2)
      :: [Axis (StageOf (handle op)) (n_axis op - 1)].
Proof.
  intros Hrs. unfold op_axis. rewrite <- fmap_drop, drop_seq.
  replace (n_axis op - (n_axis op - rs))%nat with ((rs - 2) + 2)%nat by lia.
  rewrite seq_app, fmap_app. simpl.
  replace (0 + (n_axis op - rs))%nat with (n_axis op - rs)%nat by lia.
  replace (n_axis op - rs + (rs - 2))%nat with (n_axis op - 2)%nat by lia.
  replace (S (n_axis op - 2)) with (n_axis op - 1)%nat by lia.
  done.
Qed.

(** X17: [tiling] on the Output operation with 3-way spatial splits reorders
    the loops level by level before the reserved axes, fuses the two outer
    levels and binds them to blockIdx.x and threadIdx.y (no virtual thread
    is bound), binds the third level to threadIdx.x at thread scope only,
    records the four levels in [output_op_axis], and records the second last
    axis of the operation as the tensorize axis. *)
Theorem tiling_output_schedule self op_id op X m (rs : nat) cs fs :
  let s := StageOf (handle (X op)) in
  let outer := take (n_axis (X op) - rs) (op_axis (X op)) in
  let reserved := drop (n_axis (X op) - rs) (op_axis (X op)) in
  let tiles := zip outer fs in
  let L0 := tile_level0 <$> tiles in
  let L1 := tile_level1 <$> tiles in
  let L2 := tile_level2 <$> tiles in
  let warp := Fused L2 in
  op_eq op (main_op self) = false →
  op_eq op (output_op self) = true →
  reserve_inner_axis_count (recipe_stage self) !! handle op = Some (Z.of_nat rs) →
  (2 ≤ rs ≤ n_axis (X op))%nat →
  py_iter (spatial_factors (params m)) = Ok cs →
  Forall2 three_way_choice cs fs →
  length fs = (n_axis (X op) - rs)%nat →
  fs ≠ [] →
  ∃ m' splits, tiling self op_id op X m = (Ok tt, m') ∧
    sch m' = sch m ++ splits ++
      [SchReorder s (L0 ++ L1 ++ L2 ++ reserved);
       SchFuse s L0; SchFuse s L1;
       SchBind s (Fused L0) (ThreadAxis "blockIdx.x");
       SchBind s (Fused L1) (ThreadAxis "threadIdx.y")] ++
      (if decide (instruction_scope (recipe_stage self) = InstructionScope.thread)
       then [SchFuse s L2; SchSplitNparts s warp 32;
             SchBind s (NpartsOuter warp 32) (ThreadAxis "threadIdx.x")]
       else []) ∧
    output_op_axis (state m')
      = [[Fused L0]; [Fused L1];
         (if decide (instruction_scope (recipe_stage self) = InstructionScope.thread)
          then [NpartsOuter warp 32; NpartsInner warp 32] else L2);
         reserved] ∧
    tensorize_iter (state m') !! handle op = Some (Axis s (n_axis (X op) - 2)).
Proof.
  intros s outer reserved tiles L0 L1 L2 warp Hmain Hout Hrs Hrange Hsf Hcs Hlen Hne.
  destruct (three_way_factor_lists cs fs Hcs) as (vs & Hvs & Hall).
  pose proof (Forall2_length _ _ _ Hcs) as Hlcs.
  unfold tiling. rewrite Hmain, Hout. unfold tiling_output.
  erewrite run_bind.
  2:{ rewrite run_lift. unfold reserve_count. by rewrite Hrs. }
  rewrite py_slice_to_neg, py_slice_from_neg by (rewrite length_op_axis; lia).
  rewrite length_op_axis. fold outer reserved.
  erewrite run_bind.
  2:{ unfold get_output_op_axis_factors. erewrite run_bind by reflexivity.
      rewrite run_lift.
      replace (len outer) with (len cs).
      - by rewrite (first_factors_all _ cs vs).
      - unfold len, outer. rewrite length_take, length_op_axis. lia. }
  destruct (mapM_split_parts s vs fs Hall outer m) as [log Hlog].
  erewrite run_bind by exact Hlog.
  fold tiles.
  assert (tiles ≠ []) as Htiles.
  { unfold tiles. intros Hz. apply (f_equal length) in Hz.
    rewrite length_zip in Hz. unfold outer in Hz.
    rewrite length_take, length_op_axis in Hz. simpl in Hz.
    destruct fs; [done|]. simpl in *. lia. }
  rewrite zip_star_tile_part by done.
  fold L0 L1 L2.
  erewrite run_bind by reflexivity.
  erewrite run_bind by reflexivity.
  erewrite run_bind by reflexivity.
  erewrite run_bind by reflexivity.
  erewrite run_bind by reflexivity.
  erewrite run_bind by reflexivity.
  erewrite run_bind by reflexivity.
  erewrite run_bind by reflexivity.
  erewrite run_bind by reflexivity.
  erewrite run_bind by reflexivity.
  cbn [state params sch].
  assert (list_getitem reserved (-2) = Ok (Axis s (n_axis (X op) - 2))) as Hiv.
  { unfold reserved. rewrite reserved_axes_end by done.
    apply (list_getitem_from_end _ [Axis s (n_axis (X op) - 1)]). }
  assert (concat ([L0; L1; L2] ++ [reserved]) = L0 ++ L1 ++ L2 ++ reserved)
    as Hflat by (simpl; by rewrite app_nil_r).
  rewrite Hflat.
  destruct (decide (instruction_scope (recipe_stage self) = InstructionScope.thread)).
  - erewrite run_bind by reflexivity.
    erewrite run_bind by reflexivity.
    erewrite run_bind by reflexivity.
    erewrite run_bind by (rewrite run_lift; by rewrite Hiv).
    eexists _, log. split; [reflexivity|].
    cbn [state params sch set_output_op_axis set_tensorize_iter
         output_op_axis tensorize_iter].
    split; [by rewrite <- !app_assoc|]. split; [done|].
    by rewrite lookup_insert_eq.
  - erewrite run_bind by reflexivity.
    erewrite run_bind by reflexivity.
    erewrite run_bind by reflexivity.
    erewrite run_bind by (rewrite run_lift; by rewrite Hiv).
    eexists _, log. split; [reflexivity|].
    cbn [state params sch set_output_op_axis set_tensorize_iter
         output_op_axis tensorize_iter].
    split; [by rewrite <- !app_assoc, app_nil_r|]. split; [done|].
    by rewrite lookup_insert_eq.
Qed.

Lemma tiling_output_schedule_witness :
  ∃ m' splits, tiling mma_applier 5 op_store (fun x => x)
                 (mkMem empty_state sample_record []) = (Ok tt, m') ∧
    sch m' = splits ++
      [SchReorder (StageOf 5)
         [SplitOuter (SplitOuter (Axis (StageOf 5) 0) (PyInt 2)) (PyInt 2);
          SplitOuter (SplitOuter (Axis (StageOf 5) 1) (PyInt 1)) (PyInt 2);
          SplitInner (SplitOuter (Axis (StageOf 5) 0) (PyInt 2)) (PyInt 2);
          SplitInner (SplitOuter (Axis (StageOf 5) 1) (PyInt 1)) (PyInt 2);
          SplitInner (Axis (StageOf 5) 0) (PyInt 2);
          SplitInner (Axis (StageOf 5) 1) (PyInt 1);
          Axis (StageOf 5) 2; Axis (StageOf 5) 3];
       SchFuse (StageOf 5)
         [SplitOuter (SplitOuter (Axis (StageOf 5) 0) (PyInt 2)) (PyInt 2);
          SplitOuter (SplitOuter (Axis (StageOf 5) 1) (PyInt 1)) (PyInt 2)];
       SchFuse (StageOf 5)
         [SplitInner (SplitOuter (Axis (StageOf 5) 0) (PyInt 2)) (PyInt 2);
          SplitInner (SplitOuter (Axis (StageOf 5) 1) (PyInt 1)) (PyInt 2)];
       SchBind (StageOf 5)
         (Fused
            [SplitOuter (SplitOuter (Axis (StageOf 5) 0) (PyInt 2)) (PyInt 2);
             SplitOuter (SplitOuter (Axis (StageOf 5) 1) (PyInt 1)) (PyInt 2)])
         (ThreadAxis "blockIdx.x");
       SchBind (StageOf 5)
         (Fused
            [SplitInner (SplitOuter (Axis (StageOf 5) 0) (PyInt 2)) (PyInt 2);
             SplitInner (SplitOuter (Axis (StageOf 5) 1) (PyInt 1)) (PyInt 2)])
         (ThreadAxis "threadIdx.y")] ∧
    tensorize_iter (state m') !! 5%nat = Some (Axis (StageOf 5) 2).
Proof.
  destruct (tiling_output_schedule mma_applier 5 op_store (fun x => x)
              (mkMem empty_state sample_record []) 2
              [split_choice [2; 2; 2]; split_choice [4; 2; 1]]
              [(PyInt 2, PyInt 2, PyInt 2); (PyInt 4, PyInt 2, PyInt 1)])
    as (m' & splits & Hrun & Hsch & _ & Hiter).
  - reflexivity.
  - reflexivity.
  - reflexivity.
  - simpl. lia.
  - reflexivity.
  - repeat constructor; by eexists.
  - reflexivity.
  - discriminate.
  - exists m', splits. split; [exact Hrun|]. split; [|exact Hiter].
    rewrite Hsch. reflexivity.
Defined.
End TilingOutput.

(** ** More on exploitation sampling *)

Section SamplingMore.
Import CUDAScheduleGenerator.

Lemma insert_desc_perm x l : insert_desc x l ≡ₚ x :: l.
Proof.
  induction l as [|y l IH]; simpl; [done|].
  destruct (entry_lt y x); [done|].
  rewrite IH. apply perm_swap.
Qed.

Lemma sorted_desc_perm l : sorted_desc l ≡ₚ l.
Proof.
  unfold sorted_desc.
  assert (∀ acc, foldl (fun acc x => insert_desc x acc) acc l ≡ₚ l ++ acc) as H.
  { induction l as [|x l IH]; intros acc; simpl; [done|].
    rewrite IH, insert_desc_perm. by rewrite Permutation_middle. }
  by rewrite H, app_nil_r.
Qed.

Lemma nlargest_all max_num l :
  (length l ≤ max_num)%nat →
  nlargest (Nat.min max_num (length l)) l = sorted_desc l.
Proof.
  intros H. unfold nlargest. rewrite Nat.min_r by done.
  apply take_ge. by rewrite sorted_desc_perm.
Qed.

Lemma list_getitem_nonneg {A} (l : list A) (i : Z) :
  0 ≤ i →
  list_getitem l i
  = match l !! Z.to_nat i with Some x => Ok x | None => Raise IndexError end.
Proof.
  intros Hi. unfold list_getitem.
  destruct (Z.ltb_spec i 0) as [Hneg|_]; [lia|].
  by destruct (Z.ltb_spec i 0) as [Hneg|_]; [lia|].
Qed.

Lemma list_getitem_mod {A} (l : list A) (x : Z) :
  l ≠ [] →
  ∃ a, l !! Z.to_nat (x `mod` Z.of_nat (length l)) = Some a ∧
       list_getitem l (x `mod` Z.of_nat (length l)) = Ok a.
Proof.
  intros Hl.
  assert (0 < Z.of_nat (length l)) as Hlen by (destruct l; [done|simpl; lia]).
  pose proof (Z.mod_pos_bound x _ Hlen) as [H0 H1].
  destruct (lookup_lt_is_Some_2 l (Z.to_nat (x `mod` Z.of_nat (length l))))
    as [a Ha]; [lia|].
  exists a. split; [done|]. by rewrite list_getitem_nonneg, Ha.
Qed.

(** X18: when the archive holds at most [max_num] entries, [sa_select_entry]
    returns the candidate at the index of the first accepting iteration of
    its loop; when that iteration comes at or after the number of entries,
    the call raises [IndexError]. *)
Theorem sa_select_entry_first_accept self samples max_num k :
  let cand := sorted_desc (entries self) in
  (0 < length (entries self) ≤ max_num)%nat →
  (k < max_num)%nat →
  (∀ j, (j < k)%nat → ¬ sa_accepted cand samples j) →
  sa_accepted cand samples k →
  sa_select_entry self samples max_num = list_getitem cand (Z.of_nat k) ∧
  ((length (entries self) ≤ k)%nat →
   sa_select_entry self samples max_num = Raise IndexError).
Proof.
  intros cand [Hpos Hmax] Hk Hrej (best & c & Hbest & Hc & Hp).
  assert (length cand = length (entries self)) as Hlen
    by (unfold cand; by rewrite sorted_desc_perm).
  assert (cand ≠ []) as Hne by (intros E; rewrite E in Hlen; simpl in Hlen; lia).
  assert (sa_select_entry self samples max_num = list_getitem cand (Z.of_nat k))
    as Hsel.
  { unfold sa_select_entry.
    rewrite bool_decide_eq_true_2 by done. cbn [py_assert mbind result_bind].
    rewrite nlargest_all by done. fold cand.
    assert (list_getitem cand 0 = Ok best) as ->.
    { rewrite list_getitem_nonneg by done.
      change (Z.to_nat 0) with 0%nat. by rewrite Hbest. }
    cbn [mbind result_bind].
    set (ps := (fun x => calculate_p (value x) (value best)) <$> cand).
    assert (∀ x a, cand !! Z.to_nat (x `mod` Z.of_nat (length cand)) = Some a →
              list_getitem ps (x `mod` Z.of_nat (length cand))
                = Ok (calculate_p (value a) (value best))) as Hps.
    { intros x a Ha.
      assert (0 < Z.of_nat (length cand)) as Hl by lia.
      pose proof (Z.mod_pos_bound x _ Hl) as [H0 H1].
      rewrite list_getitem_nonneg by done.
      unfold ps. by rewrite list_lookup_fmap, Ha. }
    apply (sa_loop_first_accept cand ps samples k max_num 0%nat
             (calculate_p (value c) (value best))); [done| | |].
    - intros j Hj. simpl.
      destruct (list_getitem_mod cand (samples j).1 Hne) as (a & Ha & _).
      exists (calculate_p (value a) (value best)). split; [by apply Hps|].
      intros Hlt. apply (Hrej j Hj). by exists best, a.
    - simpl. by apply Hps.
    - done. }
  split; [done|].
  intros Hout. rewrite Hsel, list_getitem_nonneg by lia.
  rewrite Nat2Z.id. rewrite lookup_ge_None_2 by lia. done.
Qed.

Lemma sorted_desc_loss :
  sorted_desc (entries loss_generator) = [entry_m2; entry_m1].
Proof.
  unfold sorted_desc. simpl.
  assert (entry_lt entry_m1 entry_m2 = true) as ->; [|done].
  apply entry_lt_true. simpl. lra.
Qed.

Lemma calculate_p_loss :
  (calculate_p (value entry_m1) (value entry_m2) <= 6 / 10)%R.
Proof.
  unfold calculate_p. simpl.
  replace ((-1 - -2) / 2 * (-2 + / 100000))%R
    with (- (1 - / 200000))%R by lra.
  rewrite exp_Ropp.
  pose proof (exp_ineq1_le (1 - / 200000)) as Hexp.
  assert (1 + (1 - / 200000) > 0)%R as Hpos by lra.
  assert (0 < exp (1 - / 200000))%R as Hexp0 by apply exp_pos.
  apply (Rmult_le_reg_r (exp (1 - / 200000))); [done|].
  rewrite Rinv_l by lra. nra.
Qed.

Lemma calculate_p_best x : calculate_p x x = 1%R.
Proof.
  unfold calculate_p.
  replace ((x - x) / 2 * (x + / 100000))%R with 0%R by lra.
  apply exp_0.
Qed.

Lemma sa_select_entry_first_accept_witness :
  sa_select_entry loss_generator late_tape 20 = Raise IndexError.
Proof.
  destruct (sa_select_entry_first_accept loss_generator late_tape 20 2)
    as [_ H].
  - simpl. lia.
  - lia.
  - rewrite sorted_desc_loss. intros j Hj (best & c & Hb & Hc & Hp).
    pose proof calculate_p_loss as Hle.
    destruct j as [|[|j]]; [| |lia];
      simpl in Hb, Hc, Hp; inversion Hb; inversion Hc; subst; lra.
  - rewrite sorted_desc_loss. exists entry_m2, entry_m2.
    split; [reflexivity|]. split; [reflexivity|].
    rewrite calculate_p_best. simpl. lra.
  - apply H. simpl. lia.
Defined.

End SamplingMore.
